(** * spencerTools: the two-agent authoring assistant

    A shallow embedding of [author.py] (terminal front end, driven by a
    two-node graph) and [authorChainlit.py] (chat front end), with the
    properties of the response parser, of the turn controller and of the
    save step.

    Text is modelled as [string]: a sequence of one-byte characters, read
    as the code points U+0000..U+00FF.  On that range [str.lower] maps one
    character to one character and [str.strip] removes the characters
    listed in [Py.isspace].  Texts with other characters are outside the
    model: there [str.lower] can change the length of a text (U+0130
    becomes two code points), and both parsers cut the original text at
    positions found in the lower-cased one.  The statements that rest on
    these positions are therefore statements about texts of one-byte
    characters, and say so.  The few message literals of the sources with
    a character outside that range (a dash, a check mark, the pictographs
    of the button labels) are written as they stand; they are only
    printed or sent, never parsed. *)

From Stdlib Require Import ZArith Lia Bool Ascii String List DecimalString.
From stdpp Require Import gmap strings.

Local Open Scope Z_scope.

(** ** Python string primitives used by the two programs *)

Module Py.

(** One line feed, the character written [\n] in the sources. *)
Definition nl : string := String (ascii_of_nat 10) EmptyString.

(** [str.lower] on one character of U+0000..U+00FF: [A-Z] and the
    upper-case letters of the Latin-1 block (U+00C0..U+00DE without the
    multiplication sign) move by 32, every other character stays. *)
Definition lower_char (c : ascii) : ascii :=
  let n := N_of_ascii c in
  if ((65 <=? n) && (n <=? 90)
      || (192 <=? n) && (n <=? 222) && negb (n =? 215))%N
  then ascii_of_N (n + 32) else c.

(** [s.lower()] for a text of one-byte characters: character by
    character, so the length is kept.  This is not so for every Python
    string: U+0130 lower-cases to two code points. *)
Fixpoint lower (s : string) : string :=
  match s with
  | EmptyString => EmptyString
  | String c s' => String (lower_char c) (lower s')
  end.

(** [str.isspace] on one character. *)
Definition isspace (c : ascii) : bool :=
  let n := N_of_ascii c in
  ((9 <=? n) && (n <=? 13) || (28 <=? n) && (n <=? 32)
   || (n =? 133) || (n =? 160))%N.

Fixpoint lstrip (s : string) : string :=
  match s with
  | EmptyString => EmptyString
  | String c s' => if isspace c then lstrip s' else s
  end.

Fixpoint rstrip (s : string) : string :=
  match s with
  | EmptyString => EmptyString
  | String c s' =>
      match rstrip s' with
      | EmptyString => if isspace c then EmptyString else String c EmptyString
      | r => String c r
      end
  end.

(** [s.strip()] *)
Definition strip (s : string) : string := rstrip (lstrip s).

(** [len(s)] *)
Definition len (s : string) : Z := Z.of_nat (String.length s).

Fixpoint take (n : nat) (s : string) : string :=
  match n, s with
  | S n', String c s' => String c (take n' s')
  | _, _ => EmptyString
  end.

Fixpoint drop (n : nat) (s : string) : string :=
  match n, s with
  | S n', String _ s' => drop n' s'
  | _, _ => s
  end.

(** A slice bound as Python normalises it: a negative bound counts from
    the end, and every bound is clipped to [0 .. len]. *)
Definition clamp (i n : Z) : Z :=
  if i <? 0 then Z.max (i + n) 0 else Z.min i n.

(** [s[lo:hi]] *)
Definition slice (s : string) (lo hi : Z) : string :=
  let a := clamp lo (len s) in
  let b := clamp hi (len s) in
  take (Z.to_nat (b - a)) (drop (Z.to_nat a) s).

(** [s[lo:]] *)
Definition slice_from (s : string) (lo : Z) : string :=
  drop (Z.to_nat (clamp lo (len s))) s.

(** [s[:hi]] *)
Definition slice_to (s : string) (hi : Z) : string :=
  take (Z.to_nat (clamp hi (len s))) s.

(** [s.startswith(p)] *)
Definition startswith (s p : string) : bool := String.prefix p s.

(** [s.endswith(p)] *)
Definition endswith (s p : string) : bool :=
  let n := String.length s in
  let m := String.length p in
  (m <=? n)%nat && String.eqb (drop (n - m) s) p.

(** [s.find(sub)]: the index of the first occurrence, or [-1]. *)
Fixpoint find (s sub : string) : Z :=
  if String.prefix sub s then 0
  else match s with
       | EmptyString => -1
       | String _ s' =>
           let i := find s' sub in
           if i =? -1 then -1 else i + 1
       end.

(** [sep.join(ls)] *)
Definition join (sep : string) (ls : list string) : string :=
  String.concat sep ls.

(** A text in which [sub] occurs. *)
Definition occurs (sub s : string) : Prop :=
  exists pre post, s = pre +:+ sub +:+ post.

(** [bool(s)]: a string is true when it is not empty. *)
Definition truthy (s : string) : bool :=
  match s with EmptyString => false | _ => true end.

(** The line boundaries of [str.splitlines] among the characters below
    U+0100. *)
Definition is_linebreak (c : ascii) : bool :=
  let n := N_of_ascii c in
  ((10 <=? n) && (n <=? 13) || (28 <=? n) && (n <=? 30) || (n =? 133))%N.

(** [s.splitlines(keepends=False)]; [cur] is the line being read, [None]
    when no character of it has been seen.  A carriage return followed by
    a line feed is one boundary. *)
Fixpoint splitlines_go (cur : option string) (s : string) : list string :=
  match s with
  | EmptyString => match cur with Some l => [l] | None => [] end
  | String c s' =>
      if is_linebreak c then
        let line := default EmptyString cur in
        match s' with
        | String c' s'' =>
            if Ascii.eqb c (ascii_of_nat 13) && Ascii.eqb c' (ascii_of_nat 10)
            then line :: splitlines_go None s''
            else line :: splitlines_go None s'
        | EmptyString => [line]
        end
      else
        splitlines_go (Some (default EmptyString cur +:+ String c EmptyString)) s'
  end.

Definition splitlines (s : string) : list string := splitlines_go None s.

(** [str(n)] for an integer. *)
Definition str_of_int (n : Z) : string :=
  NilEmpty.string_of_int (Z.to_int n).

(** [s * n]: [n] copies of [s]. *)
Fixpoint repeat_str (s : string) (n : nat) : string :=
  match n with
  | O => EmptyString
  | S n' => s +:+ repeat_str s n'
  end.

(** The fields of [time.localtime()] that the file name uses. *)
Record struct_time := mkTime {
  tm_year : Z; tm_mon : Z; tm_mday : Z; tm_hour : Z; tm_min : Z
}.

(** A two-digit, zero-padded field of [strftime]. *)
Definition pad2 (n : Z) : string :=
  if n <? 10 then "0" +:+ str_of_int n else str_of_int n.

(** [time.strftime("draft_%Y-%m-%d_%H%M.md")] at local time [t]. *)
Definition strftime_draft (t : struct_time) : string :=
  "draft_" +:+ str_of_int (tm_year t) +:+ "-" +:+ pad2 (tm_mon t) +:+ "-"
  +:+ pad2 (tm_mday t) +:+ "_" +:+ pad2 (tm_hour t) +:+ pad2 (tm_min t)
  +:+ ".md".

End Py.

(** ** Exceptions and the monad of effects

    A computation runs in a world [W] and either returns a value or raises;
    in both cases the world it leaves behind is kept, so that an [except]
    clause continues from the point of the failure. *)

Module Eff.

Inductive exn : Type :=
| EOFError
| GraphRecursionError
| SystemExit (code : Z)
| Exception (msg : string).

(** [str(e)] *)
Definition str_of_exn (e : exn) : string :=
  match e with
  | EOFError => "EOF when reading a line"
  | GraphRecursionError => "Recursion limit reached without hitting a stop condition."
  | SystemExit code => Py.str_of_int code
  | Exception msg => msg
  end.

(** What [except Exception] catches: everything but [SystemExit]. *)
Definition is_Exception (e : exn) : bool :=
  match e with SystemExit _ => false | _ => true end.

Inductive result (W A : Type) : Type :=
| Ok (a : A) (w : W)
| Raise (e : exn) (w : W).
Arguments Ok {W A} a w.
Arguments Raise {W A} e w.

Definition M (W A : Type) : Type := W -> result W A.

#[global] Instance M_ret {W} : MRet (M W) := fun A a w => Ok a w.

#[global] Instance M_bind {W} : MBind (M W) := fun A B f m w =>
  match m w with
  | Ok a w' => f a w'
  | Raise e w' => Raise e w'
  end.

Definition raise {W A} (e : exn) : M W A := fun w => Raise e w.

(** [try: body / except Exception as e: handler(e)] *)
Definition try_except {W A} (body : M W A) (handler : exn -> M W A) : M W A :=
  fun w =>
    match body w with
    | Ok a w' => Ok a w'
    | Raise e w' => if is_Exception e then handler e w' else Raise e w'
    end.

(** The world a computation leaves behind. *)
Definition world_of {W A} (r : result W A) : W :=
  match r with Ok _ w => w | Raise _ w => w end.

(** The reply of a language-model call: the [.content] of the answer, or
    the message of the exception the call raises. *)
Inductive reply : Type :=
| Content (text : string)
| Fails (msg : string).

End Eff.

(** ** The terminal front end: [author.py] *)

Module Terminal.
Import Py Eff.

Definition EDITOR_SYS_PROMPT : string :=
  "You are a meticulous senior editor." +:+ nl
  +:+ "Task: Review the user's DRAFT and propose clear, actionable improvements" +:+ nl
  +:+ "to clarity, structure, tone, grammar, and originality." +:+ nl
  +:+ "ensure any  story is brief and keep it to under 300 words."
  +:+ "Return TWO sections in Markdown exactly in this format:" +:+ nl +:+ nl
  +:+ "### SUGGESTIONS" +:+ nl
  +:+ "- Use bullet points. Make each suggestion concise but specific." +:+ nl
  +:+ "- Only include changes that improve the piece." +:+ nl +:+ nl
  +:+ "### REWRITTEN" +:+ nl
  +:+ "Provide a single improved version that applies your suggestions while" +:+ nl
  +:+ "preserving the author's intent and voice." +:+ nl.

Definition CREATOR_SYS_PROMPT : string :=
  "You are a helpful content creator. Your task is to take a story suggestion from the user and write an original story based on it. You should then accept feedback and suggestions to refine the draft while preserving the author's intent. When asked to revise, return only the full revised content (no commentary).".

(** *** State *)

(** [class DocState(TypedDict)] *)
Record DocState := mkDocState {
  content : string;
  edited_version : string;
  suggestions : string;
  approved : bool;
  iteration : Z
}.

(** The dictionary a node returns: the keys it sets. *)
Record Update := mkUpdate {
  u_content : option string;
  u_edited_version : option string;
  u_suggestions : option string;
  u_approved : option bool;
  u_iteration : option Z
}.

Definition no_update : Update := mkUpdate None None None None None.

(** The graph runtime writes the keys a node returned over the state and
    keeps the other keys. *)
Definition merge (state : DocState) (u : Update) : DocState :=
  mkDocState
    (default (content state) (u_content u))
    (default (edited_version state) (u_edited_version u))
    (default (suggestions state) (u_suggestions u))
    (default (approved state) (u_approved u))
    (default (iteration state) (u_iteration u)).

(** *** The world of the process *)

(** What the program finds around it and does not change. *)
Record Env := mkEnv {
  (** the constructor call of [make_creator_llm]: [None] when it returns a
      client, [Some msg] when it raises *)
  creator_client : option string;
  (** the same for [make_editor_llm] *)
  editor_client : option string;
  (** [CREATOR_LLM.invoke(prompt).content], for the call number and the
      prompt *)
  creator_invoke : nat -> string -> reply;
  (** [EDITOR_LLM.invoke(prompt).content] *)
  editor_invoke : nat -> string -> reply;
  (** [difflib.unified_diff(a, b, fromfile="current", tofile="editor")]
      with an empty [lineterm] *)
  unified_diff : list string -> list string -> list string;
  (** the recursion limit of the graph runtime: one [invoke] is stopped by
      [GraphRecursionError] once that many nodes have been executed *)
  recursion_limit : nat;
  (** [os.environ.get("GOOGLE_API_KEY")] *)
  GOOGLE_API_KEY : option string;
  (** the local time read by [time.strftime] *)
  localtime : struct_time;
  (** [open(fname, "w")]: [None] when the file opens, [Some msg] when the
      call raises *)
  open_error : string -> option string;
  (** [os.path.abspath] *)
  abspath : string -> string
}.

(** What the program reads and changes. *)
Record World := mkWorld {
  (** the lines [input()] has still to return; end of file after them *)
  stdin : list string;
  (** what has been written to the terminal, oldest first *)
  stdout : list string;
  (** the two module-level clients: [false] is [None] *)
  CREATOR_LLM : bool;
  EDITOR_LLM : bool;
  (** the number of language-model calls made so far *)
  clock : nat;
  (** the files written, by name *)
  files : gmap string string
}.

(** The world after [out] has been written to the terminal. *)
Definition say (out : list string) (w : World) : World :=
  mkWorld (stdin w) (stdout w ++ out) (CREATOR_LLM w) (EDITOR_LLM w)
    (clock w) (files w).

Definition write (s : string) : M World unit := fun w => Ok tt (say [s] w).

(** [print(s)] *)
Definition print (s : string) : M World unit := write (s +:+ nl).

(** [input()]: the next line, [EOFError] at end of file. *)
Definition input_line : M World string := fun w =>
  match stdin w with
  | [] => Raise EOFError w
  | line :: rest =>
      Ok line (mkWorld rest (stdout w) (CREATOR_LLM w) (EDITOR_LLM w)
                 (clock w) (files w))
  end.

(** [input(prompt)] *)
Definition input (prompt : string) : M World string :=
  write prompt;; input_line.

(** One model call: the clock advances, the oracle answers. *)
Definition llm_invoke (oracle : nat -> string -> reply) (prompt : string)
  : M World string := fun w =>
  let w' := mkWorld (stdin w) (stdout w) (CREATOR_LLM w) (EDITOR_LLM w)
              (S (clock w)) (files w) in
  match oracle (clock w) prompt with
  | Content text => Ok text w'
  | Fails msg => Raise (Exception msg) w'
  end.

(** [with open(fname, "w", encoding="utf-8") as f: f.write(data)] *)
Definition write_file (E : Env) (fname data : string) : M World unit := fun w =>
  match open_error E fname with
  | Some msg => Raise (Exception msg) w
  | None =>
      Ok tt (mkWorld (stdin w) (stdout w) (CREATOR_LLM w) (EDITOR_LLM w)
               (clock w) (<[fname := data]> (files w)))
  end.

(** *** Helpers *)

(** The [while True] loop of [read_multiline]: [lines] is the list being
    built; the loop stops at a line that strips to [/done] and at end of
    file.  It returns the lines and what is left of the input. *)
Fixpoint read_lines (lines : list string) (inp : list string)
  : list string * list string :=
  match inp with
  | [] => (lines, [])
  | line :: rest =>
      if String.eqb (strip line) "/done" then (lines, rest)
      else read_lines (lines ++ [line]) rest
  end.

(** The loop run on the standard input, then ["\n".join(lines).strip()]. *)
Definition read_until_done : M World string := fun w =>
  let '(lines, rest) := read_lines [] (stdin w) in
  Ok (strip (join nl lines))
     (mkWorld rest (stdout w) (CREATOR_LLM w) (EDITOR_LLM w) (clock w)
        (files w)).

Definition read_multiline (prompt : string) : M World string :=
  print EmptyString;;
  print prompt;;
  read_until_done.

(** The header-cleaning loops: [for hdr in hdrs: if s.startswith(hdr):
    s = s[len(hdr):].strip()]. *)
Definition clean_headers (hdrs : list string) (s : string) : string :=
  fold_left
    (fun acc hdr =>
       if startswith acc hdr then strip (slice_from acc (len hdr)) else acc)
    hdrs s.

Definition parse_editor_response (text : string) : string * string :=
  let lower := lower text in
  let sugg_idx := find lower "### suggestions" in
  let rew_idx := find lower "### rewritten" in
  if (sugg_idx =? -1) || (rew_idx =? -1) then
    (strip text, EmptyString)
  else
    let '(suggestions, rewritten) :=
      if sugg_idx <? rew_idx then
        (strip (slice text sugg_idx rew_idx),
         strip (slice_from text (rew_idx + len "### REWRITTEN")))
      else
        (strip (slice_from text (sugg_idx + len "### SUGGESTIONS")),
         strip (slice text rew_idx sugg_idx)) in
    let suggestions :=
      clean_headers ["### SUGGESTIONS"; "### Suggestions"] suggestions in
    let rewritten :=
      clean_headers ["### REWRITTEN"; "### Rewritten"] rewritten in
    (suggestions, rewritten).

Definition bar : string := repeat_str "=" 70.

(** [print_divider(title)]; [None] is the call without a title. *)
Definition print_divider (title : option string) : M World unit :=
  match title with
  | Some t =>
      if truthy t then print (nl +:+ bar +:+ nl +:+ t +:+ nl +:+ bar)
      else print (nl +:+ bar)
  | None => print (nl +:+ bar)
  end.

(** [for line in ...: print(line)] *)
Fixpoint print_lines (ls : list string) : M World unit :=
  match ls with
  | [] => mret tt
  | l :: ls' => print l;; print_lines ls'
  end.

Definition show_diff (E : Env) (a b : string) : M World unit :=
  print_divider (Some "DIFF: Current vs Editor Rewritten");;
  let a_lines := splitlines a in
  let b_lines := splitlines b in
  print_lines (unified_diff E a_lines b_lines).

(** *** The two clients *)

Definition make_editor_llm (E : Env) : M World unit :=
  match editor_client E with
  | None => mret tt
  | Some e =>
      print ("Error creating Editor LLM: " +:+ e);;
      print "Ensure GOOGLE_API_KEY is set and packages are installed.";;
      raise (SystemExit 1)
  end.

Definition make_creator_llm (E : Env) : M World unit :=
  match creator_client E with
  | None => mret tt
  | Some e =>
      print ("Error creating Creator LLM: " +:+ e);;
      print "Ensure GOOGLE_API_KEY is set and packages are installed.";;
      raise (SystemExit 1)
  end.

(** [if CREATOR_LLM is None: CREATOR_LLM = make_creator_llm()] *)
Definition ensure_creator_llm (E : Env) : M World unit := fun w =>
  if CREATOR_LLM w then Ok tt w
  else
    match make_creator_llm E w with
    | Ok _ w' =>
        Ok tt (mkWorld (stdin w') (stdout w') true (EDITOR_LLM w') (clock w')
                 (files w'))
    | Raise e w' => Raise e w'
    end.

(** [if EDITOR_LLM is None: EDITOR_LLM = make_editor_llm()] *)
Definition ensure_editor_llm (E : Env) : M World unit := fun w =>
  if EDITOR_LLM w then Ok tt w
  else
    match make_editor_llm E w with
    | Ok _ w' =>
        Ok tt (mkWorld (stdin w') (stdout w') (CREATOR_LLM w') true (clock w')
                 (files w'))
    | Raise e w' => Raise e w'
    end.

(** *** Graph nodes *)

(** [creator_node], first branch ([iteration == 0 and not content]): the
    idea is read and the first story generated. *)
Definition welcome_turn (E : Env) (iteration : Z) : M World Update :=
  print_divider (Some "WELCOME — Content Creator");;
  suggestion ← read_multiline
    ("What story would you like to create? Provide a suggestion or idea."
     +:+ nl +:+ "Type /done when finished.");
  if negb (truthy suggestion) then
    print "No suggestion entered. Exiting.";;
    mret (mkUpdate None None None (Some true) None)
  else
    (* Generate the initial story *)
    let prompt :=
      CREATOR_SYS_PROMPT +:+ nl +:+ nl
      +:+ "Here is the user's suggestion: " +:+ suggestion +:+ nl +:+ nl
      +:+ "Please write a story based on this suggestion." in
    try_except
      (initial_content ← llm_invoke (creator_invoke E) prompt;
       print (nl +:+ "Generated initial story. Sending to the Editor for review..." +:+ nl);;
       mret (mkUpdate (Some initial_content) None None None
               (Some (iteration + 1))))
      (fun e =>
         print ("Error during initial story generation: " +:+ str_of_exn e);;
         mret (mkUpdate None None None (Some true) None)).

(** [creator_node], after the editor has suggested changes: the
    suggestions, the preview of the rewrite and the five options are
    printed. *)
Definition present_menu (suggestions edited_version : string) : M World unit :=
  print_divider (Some "EDITOR SUGGESTIONS");;
  (if truthy suggestions then print suggestions
   else print "(No suggestions returned — you can still iterate or edit.)");;
  (if truthy edited_version then
     print_divider (Some "EDITOR REWRITTEN PREVIEW (first 600 chars)");;
     let preview :=
       slice_to edited_version 600
       +:+ (if 600 <? len edited_version then "..." else EmptyString) in
     print preview
   else mret tt);;
  print_divider (Some "Choose an option");;
  print "[1] Accept the editor's rewritten version";;
  print "[2] Edit the draft yourself";;
  print "[3] Ask the AI to revise based on your instructions";;
  print "[4] Show a diff between current and editor version";;
  print "[5] Finish and save current content to Markdown".

(** [creator_node], the [if choice == ...] chain. *)
Definition dispatch_choice (E : Env) (state : DocState) (choice : string)
  : M World Update :=
  let iteration := iteration state in
  let content := content state in
  let edited_version := edited_version state in
  if String.eqb choice "1" then
    if truthy edited_version then
      print (nl +:+ "Accepted the editor's rewrite." +:+ nl);;
      mret (mkUpdate (Some edited_version) None None None
              (Some (iteration + 1)))
    else
      print "No rewritten version available to accept.";;
      mret (mkUpdate None None None None (Some (iteration + 1)))
  else if String.eqb choice "2" then
    new_text ← read_multiline "Edit your draft. Type /done when finished:";
    if truthy new_text then
      mret (mkUpdate (Some new_text) None None None (Some (iteration + 1)))
    else
      print "(No changes made.)";;
      mret (mkUpdate None None None None (Some (iteration + 1)))
  else if String.eqb choice "3" then
    user_instr ← read_multiline
      ("Describe how you'd like the AI to revise (tone, length, audience, etc.)."
       +:+ nl +:+ "Type /done when finished:");
    if negb (truthy (strip user_instr)) then
      print "(No instructions provided. Skipping.)";;
      mret (mkUpdate None None None None (Some (iteration + 1)))
    else
      let prompt :=
        CREATOR_SYS_PROMPT +:+ nl +:+ nl
        +:+ "Here is the current draft between <draft> tags. Revise it per the user instructions."
        +:+ nl +:+ nl
        +:+ "<draft>" +:+ nl +:+ content +:+ nl +:+ "</draft>" +:+ nl +:+ nl
        +:+ "User instructions: " +:+ user_instr +:+ nl +:+ nl
        +:+ "Return only the revised draft." in
      try_except
        (revised ← llm_invoke (creator_invoke E) prompt;
         print (nl +:+ "AI revision complete." +:+ nl);;
         mret (mkUpdate (Some revised) None None None
                 (Some (iteration + 1))))
        (fun e =>
           print ("Error during AI revision: " +:+ str_of_exn e);;
           mret (mkUpdate None None None None (Some (iteration + 1))))
  else if String.eqb choice "4" then
    (if truthy edited_version then show_diff E content edited_version
     else print "No editor version to diff against.");;
    (* stay in creator node for another choice next round *)
    mret (mkUpdate None None None None (Some (iteration + 1)))
  else if String.eqb choice "5" then
    (* Finish *)
    mret (mkUpdate None None None (Some true) None)
  else
    print "Invalid choice; continuing.";;
    mret (mkUpdate None None None None (Some (iteration + 1))).

(** Creator agent: gathers initial text and manages user choices each
    loop. *)
Definition creator_node (E : Env) (state : DocState) : M World Update :=
  ensure_creator_llm E;;
  if (iteration state =? 0) && negb (truthy (content state)) then
    welcome_turn E (iteration state)
  else
    present_menu (suggestions state) (edited_version state);;
    line ← input "Enter 1/2/3/4/5: ";
    dispatch_choice E state (strip line).

(** Editor agent: reviews current content and proposes improvements. *)
Definition editor_node (E : Env) (state : DocState) : M World Update :=
  ensure_editor_llm E;;
  let content := strip (content state) in
  let iteration := iteration state in
  if negb (truthy content) then
    (* Nothing to do. *)
    mret no_update
  else
    print_divider (Some ("EDITOR REVIEW — Iteration " +:+ str_of_int iteration));;
    let prompt :=
      EDITOR_SYS_PROMPT +:+ nl +:+ nl
      +:+ "Here is the DRAFT between <draft> tags." +:+ nl +:+ nl
      +:+ "<draft>" +:+ nl +:+ content +:+ nl +:+ "</draft>" +:+ nl in
    try_except
      (resp ← llm_invoke (editor_invoke E) prompt;
       let '(suggestions, rewritten) := parse_editor_response resp in
       mret (mkUpdate None (Some rewritten) (Some suggestions) None None))
      (fun e =>
         print ("Error during editing call: " +:+ str_of_exn e);;
         mret (mkUpdate None (Some EmptyString)
                 (Some "(Editor call failed. You can continue editing manually.)")
                 None None)).

(** *** Graph wiring *)

Definition route_after_creator (state : DocState) : string :=
  if approved state then "end" else "editor".

(** [build_graph().invoke(state)]: the entry edge leads to the creator
    node; after it the conditional edge maps ["end"] to the end of the run
    and ["editor"] to the editor node, whose edge leads back to the creator.
    [limit] is the number of node executions the runtime still allows.
    Each node execution uses one of them, and the runtime looks at what is
    left before it looks for the end of the run: when a node has used the
    last one the runtime raises, also when that node was the creator and
    the session is approved.  So a run of [k] node executions returns only
    under a limit of [k + 1] or more. *)
Fixpoint run_graph (E : Env) (limit : nat) (state : DocState)
  : M World DocState :=
  match limit with
  | O => raise GraphRecursionError
  | S limit' =>
      u ← creator_node E state;
      let state := merge state u in
      match limit' with
      | O => raise GraphRecursionError
      | S limit'' =>
          if String.eqb (route_after_creator state) "end" then mret state
          else
            u ← editor_node E state;
            run_graph E limit'' (merge state u)
      end
  end.

Definition invoke (E : Env) (state : DocState) : M World DocState :=
  run_graph E (recursion_limit E) state.

(** *** Main *)

(** Initial empty state *)
Definition initial_state : DocState :=
  mkDocState EmptyString EmptyString EmptyString false 0.

(** [os.environ.get("GOOGLE_API_KEY")] is [None] or empty. *)
Definition api_key_missing (E : Env) : bool :=
  match GOOGLE_API_KEY E with
  | Some k => negb (truthy k)
  | None => true
  end.

(** The part of [main] after the graph has returned [final_state]. *)
Definition save_to_markdown (E : Env) (final_state : DocState) : M World unit :=
  let final_content := strip (content final_state) in
  if negb (truthy final_content) then
    print (nl +:+ "Nothing to save. Exiting.")
  else
    print_divider (Some "SAVE TO MARKDOWN");;
    let default_name := strftime_draft (localtime E) in
    line ← input ("Filename [" +:+ default_name +:+ "]: ");
    let fname := if truthy (strip line) then strip line else default_name in
    let fname :=
      if negb (endswith (lower fname) ".md") then fname +:+ ".md" else fname in
    try_except
      (write_file E fname (final_content +:+ nl);;
       let abs_path := abspath E fname in
       print ("Saved ✅  " +:+ abs_path))
      (fun e => print ("Failed to save: " +:+ str_of_exn e)).

Definition main (E : Env) : M World unit :=
  (if api_key_missing E then
     print "WARNING: GOOGLE_API_KEY is not set. Set it to use Gemini."
   else mret tt);;
  (* Run the graph until END (approved=True) *)
  final_state ← invoke E initial_state;
  (* Save to markdown *)
  save_to_markdown E final_state.

End Terminal.

(** ** The chat front end: [authorChainlit.py] *)

Module Chainlit.
Import Py Eff.

Definition EDITOR_SYS_PROMPT : string := Terminal.EDITOR_SYS_PROMPT.

Definition parse_editor_response (text : string) : string * string :=
  let lower := lower text in
  let sugg_idx := find lower "### suggestions" in
  let rew_idx := find lower "### rewritten" in
  if (sugg_idx =? -1) || (rew_idx =? -1) then
    (strip text, EmptyString)
  else if sugg_idx <? rew_idx then
    (strip (slice text (sugg_idx + len "### suggestions") rew_idx),
     strip (slice_from text (rew_idx + len "### rewritten")))
  else
    (strip (slice_from text (sugg_idx + len "### suggestions")),
     strip (slice text (rew_idx + len "### rewritten") sugg_idx)).

(** [cl.Action(name=.., value=.., label=..)] *)
Record Action := mkAction {
  name : string;
  value : string;
  label : string
}.

(** What the session shows to the human: a message with its buttons, or a
    step with its name, its input, its output and its error mark. *)
Inductive ui_event : Type :=
| Message (content : string) (actions : list Action)
| Step (name input output : string) (is_error : bool).

Record Env := mkEnv {
  (** [editor_llm.ainvoke(prompt).content], for the call number and the
      prompt *)
  editor_ainvoke : nat -> string -> reply;
  (** [difflib.unified_diff(a, b, fromfile="current", tofile="editor")]
      with an empty [lineterm] *)
  unified_diff : list string -> list string -> list string;
  (** the local time read by [time.strftime] *)
  localtime : struct_time;
  (** [open(fname, "w")]: [None] when the file opens, [Some msg] when the
      call raises *)
  open_error : string -> option string;
  (** [os.path.abspath] *)
  abspath : string -> string
}.

Record World := mkWorld {
  (** the string-valued keys of [cl.user_session] *)
  session : gmap string string;
  (** what has been sent to the chat, oldest first *)
  sent : list ui_event;
  (** the number of language-model calls made so far *)
  clock : nat;
  (** the files written, by name *)
  files : gmap string string
}.

(** [cl.user_session.get(key, default)] with the empty string as default *)
Definition session_get (key : string) : M World string := fun w =>
  Ok (default EmptyString (session w !! key)) w.

(** [cl.user_session.get(key)]: [None] when the key is not set. *)
Definition session_get_opt (key : string) : M World (option string) := fun w =>
  Ok (session w !! key) w.

(** [cl.user_session.set(key, v)] *)
Definition session_set (key v : string) : M World unit := fun w =>
  Ok tt (mkWorld (<[key := v]> (session w)) (sent w) (clock w) (files w)).

Definition emit (ev : ui_event) : M World unit := fun w =>
  Ok tt (mkWorld (session w) (sent w ++ [ev]) (clock w) (files w)).

(** [await cl.Message(content=c).send()] *)
Definition send (c : string) : M World unit := emit (Message c []).

(** [async with cl.Step(name=name) as step:] around a block that sets
    [step.input] to [input] first and, when it ends, has set [step.output]
    to the value of [body].  The step is shown with what it holds when the
    block is left: that output or, when the block raises, the text of the
    exception and the error mark.  The exception is not caught. *)
Definition with_step (name input : string) (body : M World string)
  : M World unit := fun w =>
  match body w with
  | Ok output w' => emit (Step name input output false) w'
  | Raise e w' =>
      Raise e
        (mkWorld (session w')
           (sent w' ++ [Step name input (str_of_exn e) true])
           (clock w') (files w'))
  end.

Definition llm_ainvoke (oracle : nat -> string -> reply) (prompt : string)
  : M World string := fun w =>
  let w' := mkWorld (session w) (sent w) (S (clock w)) (files w) in
  match oracle (clock w) prompt with
  | Content text => Ok text w'
  | Fails msg => Raise (Exception msg) w'
  end.

Definition write_file (E : Env) (fname data : string) : M World unit := fun w =>
  match open_error E fname with
  | Some msg => Raise (Exception msg) w
  | None =>
      Ok tt (mkWorld (session w) (sent w) (clock w)
               (<[fname := data]> (files w)))
  end.

(** Generates a unified diff string. *)
Definition show_diff (E : Env) (a b : string) : string :=
  let a_lines := splitlines a in
  let b_lines := splitlines b in
  let diff := unified_diff E a_lines b_lines in
  join nl diff.

(** The five buttons. *)
Definition actions : list Action :=
  [ mkAction "accept" "accept" "âœ… Accept Rewrite";
    mkAction "revise" "revise" "âœï¸ Revise with AI";
    mkAction "edit" "edit" "ðŸ“ Edit Manually";
    mkAction "diff" "diff" "ðŸ”„ Show Diff";
    mkAction "finish" "finish" "ðŸ Finish & Save" ].

(** Displays the editor's feedback and action buttons to the user. *)
Definition display_editor_results : M World unit :=
  suggestions ← session_get "suggestions";
  edited_version ← session_get "edited_version";
  if negb (truthy suggestions) && negb (truthy edited_version) then
    send "The editor had no suggestions. What would you like to do next?"
  else
    let suggestions_msg :=
      "**Editor's Suggestions:**" +:+ nl +:+ nl +:+ suggestions in
    send suggestions_msg;;
    (if truthy edited_version then
       let preview :=
         if 600 <? len edited_version
         then slice_to edited_version 600 +:+ "..."
         else edited_version in
       send ("**Editor's Rewrite Preview:**" +:+ nl +:+ nl +:+ preview)
     else mret tt);;
    emit (Message "What would you like to do next?" actions).

(** Gets editor feedback on the current content, stores it in the
    session, and displays the results. *)
Definition editor_review (E : Env) : M World unit :=
  content ← session_get "content";
  if negb (truthy content) then mret tt
  else
    let prompt :=
      EDITOR_SYS_PROMPT +:+ nl +:+ nl
      +:+ "Here is the DRAFT between <draft> tags." +:+ nl +:+ nl
      +:+ "<draft>" +:+ nl +:+ content +:+ nl +:+ "</draft>" +:+ nl in
    with_step "Editor Review" prompt
      (response ← llm_ainvoke (editor_ainvoke E) prompt;
       let '(suggestions, rewritten) := parse_editor_response response in
       session_set "suggestions" suggestions;;
       session_set "edited_version" rewritten;;
       mret ("Suggestions: " +:+ suggestions +:+ nl +:+ nl
             +:+ "Rewritten: " +:+ rewritten));;
    display_editor_results.

Definition on_accept (E : Env) : M World unit :=
  edited_version ← session_get_opt "edited_version";
  match edited_version with
  | Some ev =>
      if truthy ev then
        session_set "content" ev;;
        send "Accepted the editor's rewrite. Rerunning review...";;
        editor_review E
      else send "No rewritten version available to accept."
  | None => send "No rewritten version available to accept."
  end.

Definition on_diff (E : Env) : M World unit :=
  content ← session_get "content";
  edited_version ← session_get "edited_version";
  if negb (truthy edited_version) then
    send "No editor version to diff against."
  else
    let diff_result := show_diff E content edited_version in
    send ("**Diff:**" +:+ nl +:+ "```diff" +:+ nl +:+ diff_result +:+ nl
          +:+ "```");;
    (* Re-display options *)
    display_editor_results.

Definition on_finish (E : Env) : M World unit :=
  content ← session_get "content";
  if negb (truthy content) then send "Nothing to save!"
  else
    send ("**Final Content:**" +:+ nl +:+ nl +:+ content);;
    (* Save to file *)
    let fname := strftime_draft (localtime E) in
    try_except
      (write_file E fname (content +:+ nl);;
       let abs_path := abspath E fname in
       send ("Saved âœ…  `" +:+ abs_path +:+ "`"))
      (fun e => send ("Failed to save file: " +:+ str_of_exn e)).

End Chainlit.

(** ** Vocabulary of the statements *)

Module Spec.
Import Py Eff.

(** The header spellings the terminal parser removes from a section. *)
Definition SUGGESTIONS_headers : list string :=
  ["### SUGGESTIONS"; "### Suggestions"].
Definition REWRITTEN_headers : list string :=
  ["### REWRITTEN"; "### Rewritten"].

(** [x] begins with one of the spellings. *)
Definition has_header (hdrs : list string) (x : string) : bool :=
  existsb (startswith x) hdrs.

(** The inputs on which the two parsers are compared: a marker is missing,
    or the marker that comes first is written in one of the spellings the
    terminal parser removes and neither section found by the chat parser
    begins with a header of its own kind. *)
Definition agree_domain (text : string) : bool :=
  let lower := lower text in
  let s := find lower "### suggestions" in
  let r := find lower "### rewritten" in
  if (s =? -1) || (r =? -1) then true
  else
    let first_ok :=
      if s <? r
      then existsb (String.eqb (slice text s (s + 15))) SUGGESTIONS_headers
      else existsb (String.eqb (slice text r (r + 13))) REWRITTEN_headers in
    first_ok
    && negb (has_header SUGGESTIONS_headers
               (fst (Chainlit.parse_editor_response text)))
    && negb (has_header REWRITTEN_headers
               (snd (Chainlit.parse_editor_response text))).

(** *** The terminal front end *)

(** The creator client exists or can be made. *)
Definition creator_ready (E : Terminal.Env) (w : Terminal.World) : Prop :=
  Terminal.CREATOR_LLM w = true \/ Terminal.creator_client E = None.

(** The editor client exists or can be made. *)
Definition editor_ready (E : Terminal.Env) (w : Terminal.World) : Prop :=
  Terminal.EDITOR_LLM w = true \/ Terminal.editor_client E = None.

(** [creator_node] takes its second branch: the menu is shown. *)
Definition menu_turn (st : Terminal.DocState) : bool :=
  negb ((Terminal.iteration st =? 0)
        && negb (truthy (Terminal.content st))).

(** A computation that only writes to the terminal. *)
Definition only_prints (m : M Terminal.World unit) : Prop :=
  exists out, forall w, m w = Ok tt (Terminal.say out w).

(** The text [read_multiline] returns on the input [inp]. *)
Definition text_read (inp : list string) : string :=
  strip (join nl (fst (Terminal.read_lines [] inp))).

(** The state with the loop counter advanced and nothing else changed. *)
Definition next_iteration (st : Terminal.DocState) : Terminal.DocState :=
  Terminal.mkDocState (Terminal.content st) (Terminal.edited_version st)
    (Terminal.suggestions st) (Terminal.approved st)
    (Terminal.iteration st + 1).

(** Every value the computation returns satisfies [P]. *)
Definition ensures {A : Type} (P : A -> Prop) (m : M Terminal.World A) : Prop :=
  forall w a w', m w = Ok a w' -> P a.

(** What [creator_node] may return: the end of the session, or an update
    that advances the loop counter by one. *)
Definition creator_update (st : Terminal.DocState) (u : Terminal.Update)
  : Prop :=
  (Terminal.u_approved u = Some true /\ Terminal.u_iteration u = None
   /\ Terminal.u_content u = None)
  \/ (Terminal.u_approved u = None
      /\ Terminal.u_iteration u = Some (Terminal.iteration st + 1)).

(** What [editor_node] may return: the two fields of the review, or
    nothing. *)
Definition editor_update (u : Terminal.Update) : Prop :=
  Terminal.u_content u = None /\ Terminal.u_approved u = None
  /\ Terminal.u_iteration u = None.

(** A world and an environment for the examples: nothing typed yet but
    [inp], both clients still to be made, a creator that answers [c] and an
    editor that answers [e]. *)
Definition example_env (c e : reply) : Terminal.Env :=
  Terminal.mkEnv None None (fun _ _ => c) (fun _ _ => e) (fun _ _ => [])
    25 (Some "key") (mkTime 2025 3 9 7 5) (fun _ => None)
    (fun f => "/home/user/" +:+ f).

Definition example_world (inp : list string) : Terminal.World :=
  Terminal.mkWorld inp [] false false 0 ∅.

(** A Creator turn completes, as the specification has it (4.1): the
    node hands back a content, which is the first draft, the accepted
    rewrite, the text typed or the revision.  Every other choice is a
    no-op there: it leaves the state as it is and the menu is shown
    again. *)
Definition completes_turn (u : Terminal.Update) : bool :=
  match Terminal.u_content u with
  | Some _ => true
  | None => false
  end.

(** The executions of the graph: [reaches E k c st0 w0 st w] when the
    state [st] and the world [w] are reached from [st0] and [w0] by node
    executions, of which [k] are executions of [creator_node] after which
    the run goes on, and [c] of these completed a Creator turn.  A node is
    executed only while the session is not approved. *)
Inductive reaches (E : Terminal.Env) :
  nat -> nat -> Terminal.DocState -> Terminal.World ->
  Terminal.DocState -> Terminal.World -> Prop :=
| reaches_start st w : reaches E 0 0 st w st w
| reaches_creator k c st0 w0 st w u w' :
    reaches E k c st0 w0 st w ->
    Terminal.approved st = false ->
    Terminal.creator_node E st w = Ok u w' ->
    Terminal.route_after_creator (Terminal.merge st u) = "editor" ->
    completes_turn u = true ->
    reaches E (S k) (S c) st0 w0 (Terminal.merge st u) w'
| reaches_noop k c st0 w0 st w u w' :
    reaches E k c st0 w0 st w ->
    Terminal.approved st = false ->
    Terminal.creator_node E st w = Ok u w' ->
    Terminal.route_after_creator (Terminal.merge st u) = "editor" ->
    completes_turn u = false ->
    reaches E (S k) c st0 w0 (Terminal.merge st u) w'
| reaches_finish k c st0 w0 st w u w' :
    reaches E k c st0 w0 st w ->
    Terminal.approved st = false ->
    Terminal.creator_node E st w = Ok u w' ->
    Terminal.route_after_creator (Terminal.merge st u) = "end" ->
    reaches E k c st0 w0 (Terminal.merge st u) w'
| reaches_editor k c st0 w0 st w u w' :
    reaches E k c st0 w0 st w ->
    Terminal.approved st = false ->
    Terminal.editor_node E st w = Ok u w' ->
    reaches E k c st0 w0 (Terminal.merge st u) w'.

(** *** The chat front end *)

(** The world after [evs] have been sent to the chat. *)
Definition shows (evs : list Chainlit.ui_event) (w : Chainlit.World)
  : Chainlit.World :=
  Chainlit.mkWorld (Chainlit.session w) (Chainlit.sent w ++ evs)
    (Chainlit.clock w) (Chainlit.files w).

(** The message that carries the five buttons. *)
Definition menu_message : Chainlit.ui_event :=
  Chainlit.Message "What would you like to do next?" Chainlit.actions.

(** The session value [edited_version], or the empty string, in the world
    [w]. *)
Definition session_rewrite (w : Chainlit.World) : string :=
  default EmptyString (Chainlit.session w !! "edited_version").

(** The session value [content], or the empty string, in the world [w]. *)
Definition session_content (w : Chainlit.World) : string :=
  default EmptyString (Chainlit.session w !! "content").

(** An environment and a world for the examples of the chat front end. *)
Definition example_chat_env (e : reply) : Chainlit.Env :=
  Chainlit.mkEnv (fun _ _ => e) (fun _ _ => [])
    (mkTime 2025 3 9 7 5) (fun _ => None) (fun f => "/home/user/" +:+ f).

Definition example_chat_world (content rewrite : string) : Chainlit.World :=
  Chainlit.mkWorld
    (<["content" := content]> (<["edited_version" := rewrite]> ∅)) [] 0 ∅.

(** The name under which the terminal front end saves, for the line the
    human typed at the file-name prompt. *)
Inductive chosen_name (E : Terminal.Env) (line : string) : string -> Prop :=
| name_default :
    strip line = EmptyString ->
    chosen_name E line (strftime_draft (Terminal.localtime E))
| name_as_given :
    strip line <> EmptyString ->
    endswith (lower (strip line)) ".md" = true ->
    chosen_name E line (strip line)
| name_completed :
    strip line <> EmptyString ->
    endswith (lower (strip line)) ".md" = false ->
    chosen_name E line (strip line +:+ ".md").

End Spec.

(** ** The chat front end: the message handlers

    [on_chat_start], [on_message], [on_revise] and [on_edit] use one more
    session key, [context], whose value is a string or [None].  It is kept
    beside the world of the button handlers, which holds the string-valued
    keys. *)

Module Chat.
Import Py Eff.

Definition CREATOR_SYS_PROMPT : string := Terminal.CREATOR_SYS_PROMPT.

(** The session key [context]: not set, set to [None], or set to a
    string. *)
Inductive context_value : Type :=
| Unset
| IsNone
| Is (s : string).

Record Env := mkEnv {
  (** what the button handlers find around them *)
  base_env : Chainlit.Env;
  (** the two [make_llm] calls of [on_chat_start]: [None] when both return
      a client, [Some msg] when one raises *)
  make_llm_error : option string;
  (** [creator_llm.astream(prompt)], for the call number and the prompt:
      the [.content] of the chunks it yields and, when the stream ends by
      an exception, its message *)
  creator_astream : nat -> string -> list string * option string
}.

Record World := mkWorld {
  (** the world of the button handlers *)
  base : Chainlit.World;
  (** the session key [context] *)
  context : context_value;
  (** the tokens streamed into messages already sent, oldest first *)
  streamed : list string
}.

(** A computation of the button handlers run in this world. *)
Definition lift {A : Type} (m : M Chainlit.World A) : M World A := fun w =>
  match m (base w) with
  | Ok a b => Ok a (mkWorld b (context w) (streamed w))
  | Raise e b => Raise e (mkWorld b (context w) (streamed w))
  end.

(** [cl.user_session.set("context", v)] *)
Definition set_context (v : context_value) : M World unit := fun w =>
  Ok tt (mkWorld (base w) v (streamed w)).

(** [cl.user_session.get("context", "initial_idea")]: [None] stands for
    the value [None]. *)
Definition get_context : M World (option string) := fun w =>
  Ok (match context w with
      | Unset => Some "initial_idea"
      | IsNone => None
      | Is s => Some s
      end) w.

(** [async for chunk in creator_llm.astream(prompt): await
    msg.stream_token(chunk.content)]; the result is [msg.content] of a
    message that was empty before. *)
Definition stream_tokens (E : Env) (prompt : string) : M World string :=
  fun w =>
    let b := base w in
    let '(chunks, failure) :=
      creator_astream E (Chainlit.clock b) prompt in
    let w' :=
      mkWorld
        (Chainlit.mkWorld (Chainlit.session b) (Chainlit.sent b)
           (S (Chainlit.clock b)) (Chainlit.files b))
        (context w) (streamed w ++ chunks) in
    match failure with
    | None => Ok (String.concat EmptyString chunks) w'
    | Some msg => Raise (Exception msg) w'
    end.

(** The empty message is sent, then the tokens are streamed into it. *)
Definition stream_message (E : Env) (prompt : string) : M World string :=
  lift (Chainlit.send EmptyString);;
  stream_tokens E prompt.

(** Initializes the chatbot session. *)
Definition on_chat_start (E : Env) : M World unit :=
  match make_llm_error E with
  | Some e =>
      lift (Chainlit.send
              ("Error initializing LLMs: " +:+ e +:+ nl
               +:+ "Please check your API keys."))
  | None =>
      (* Initialize state *)
      lift (Chainlit.session_set "content" EmptyString);;
      lift (Chainlit.session_set "suggestions" EmptyString);;
      lift (Chainlit.session_set "edited_version" EmptyString);;
      set_context (Is "initial_idea");;
      lift (Chainlit.send
              ("**Welcome to the AI Authoring Assistant!**" +:+ nl +:+ nl
               +:+ "I'm here to help you write a story. "
               +:+ "Let's start with your idea."));;
      lift (Chainlit.send
              "What story would you like to create? Provide a suggestion or idea.")
  end.

(** Handles user messages for story creation, revision, and editing. *)
Definition on_message (E : Env) (user_input : string) : M World unit :=
  context ← get_context;
  content ← lift (Chainlit.session_get "content");
  (* Clear context after receiving the message *)
  set_context IsNone;;
  match context with
  | None => mret tt
  | Some context =>
      if String.eqb context "initial_idea" then
        let prompt :=
          CREATOR_SYS_PROMPT +:+ nl +:+ nl
          +:+ "Here is the user's suggestion: " +:+ user_input +:+ nl +:+ nl
          +:+ "Please write a story based on this suggestion." in
        new_content ← stream_message E prompt;
        lift (Chainlit.session_set "content" new_content);;
        lift (Chainlit.send
                "Initial draft created. Now, let's get the editor's feedback...");;
        lift (Chainlit.editor_review (base_env E))
      else if String.eqb context "revise" then
        let prompt :=
          CREATOR_SYS_PROMPT +:+ nl +:+ nl
          +:+ "Here is the current draft between <draft> tags. Revise it per the user instructions."
          +:+ nl +:+ nl
          +:+ "<draft>" +:+ nl +:+ content +:+ nl +:+ "</draft>" +:+ nl +:+ nl
          +:+ "User instructions: " +:+ user_input +:+ nl +:+ nl
          +:+ "Return only the revised draft." in
        revised_content ← stream_message E prompt;
        lift (Chainlit.session_set "content" revised_content);;
        lift (Chainlit.send "Draft revised. Sending back to the editor...");;
        lift (Chainlit.editor_review (base_env E))
      else if String.eqb context "edit" then
        lift (Chainlit.session_set "content" user_input);;
        lift (Chainlit.send
                "Draft updated with your edits. Let's get new feedback...");;
        lift (Chainlit.editor_review (base_env E))
      else mret tt
  end.

Definition on_revise : M World unit :=
  set_context (Is "revise");;
  lift (Chainlit.send
          "Describe how you'd like the AI to revise the draft (e.g., change the tone, shorten it, target a different audience).").

Definition on_edit : M World unit :=
  set_context (Is "edit");;
  lift (Chainlit.send
          "Please paste your full edited version of the draft below.").

End Chat.

(** ** Vocabulary of the further statements *)

Module Laws.
Import Py Eff.

(** The computation returns from every world. *)
Definition returns {W A : Type} (m : M W A) : Prop :=
  forall w, exists a w', m w = Ok a w'.

(** Whatever the computation raises is caught by [except Exception]. *)
Definition catchable {W A : Type} (m : M W A) : Prop :=
  forall w e w', m w = Raise e w' -> is_Exception e = true.

(** Whatever the computation raises satisfies [P]. *)
Definition raises_only {W A : Type} (P : exn -> Prop) (m : M W A) : Prop :=
  forall w e w', m w = Raise e w' -> P e.

(** The prompt of the first generation, for the idea typed. *)
Definition idea_prompt (suggestion : string) : string :=
  Terminal.CREATOR_SYS_PROMPT +:+ nl +:+ nl
  +:+ "Here is the user's suggestion: " +:+ suggestion +:+ nl +:+ nl
  +:+ "Please write a story based on this suggestion.".

(** The prompt of a revision, for the draft and the instructions typed. *)
Definition revise_prompt (content user_instr : string) : string :=
  Terminal.CREATOR_SYS_PROMPT +:+ nl +:+ nl
  +:+ "Here is the current draft between <draft> tags. Revise it per the user instructions."
  +:+ nl +:+ nl
  +:+ "<draft>" +:+ nl +:+ content +:+ nl +:+ "</draft>" +:+ nl +:+ nl
  +:+ "User instructions: " +:+ user_instr +:+ nl +:+ nl
  +:+ "Return only the revised draft.".

(** The prompt of a review, for the draft. *)
Definition review_prompt (content : string) : string :=
  Terminal.EDITOR_SYS_PROMPT +:+ nl +:+ nl
  +:+ "Here is the DRAFT between <draft> tags." +:+ nl +:+ nl
  +:+ "<draft>" +:+ nl +:+ content +:+ nl +:+ "</draft>" +:+ nl.

(** [R] relates the world before every run of the computation to the
    world it leaves, whether it returns or raises. *)
Definition keeps {W A : Type} (R : W -> W -> Prop) (m : M W A) : Prop :=
  forall w, R w (world_of (m w)).

(** No file is written. *)
Definition same_files (w w' : Terminal.World) : Prop :=
  Terminal.files w' = Terminal.files w.

(** No input is given back: what is left to read is not longer. *)
Definition input_shrinks (w w' : Terminal.World) : Prop :=
  (length (Terminal.stdin w') <= length (Terminal.stdin w))%nat.

(** Both: no file is written and no input is given back. *)
Definition quiet (w w' : Terminal.World) : Prop :=
  same_files w w' /\ input_shrinks w w'.

(** No line of [ls] ends the text of [read_multiline]. *)
Definition no_done (ls : list string) : Prop :=
  Forall (fun l => strip l <> "/done") ls.

(** What [creator_node] leaves alone. *)
Definition creator_frame (u : Terminal.Update) : Prop :=
  Terminal.u_suggestions u = None /\ Terminal.u_edited_version u = None.

(** The session key [context] is not written. *)
Definition same_context (w w' : Chat.World) : Prop :=
  Chat.context w' = Chat.context w.

(** A chat world for the examples: the given session values, the given
    value of [context], nothing sent yet. *)
Definition example_conversation (content rewrite : string)
  (c : Chat.context_value) : Chat.World :=
  Chat.mkWorld (Spec.example_chat_world content rewrite) c [].

(** A chat environment for the examples: the creator streams [chunks], the
    editor answers [e]. *)
Definition example_conversation_env (chunks : list string) (e : reply)
  : Chat.Env :=
  Chat.mkEnv (Spec.example_chat_env e) None (fun _ _ => (chunks, None)).

End Laws.

(** * Properties *)

(** ** The string primitives *)

Section PyFacts.
Import Py.

Lemma app_String (c : ascii) (s t : string) :
  String c s +:+ t = String c (s +:+ t).
Proof. reflexivity. Qed.

Lemma app_empty_l (s : string) : EmptyString +:+ s = s.
Proof. reflexivity. Qed.

Lemma app_empty_r (s : string) : s +:+ EmptyString = s.
Proof. induction s as [|c s IH]; [done|]. by rewrite app_String, IH. Qed.

Lemma app_assoc_str (a b c : string) : (a +:+ b) +:+ c = a +:+ b +:+ c.
Proof. induction a as [|x a IH]; [done|]. by rewrite !app_String, IH. Qed.

Lemma length_app_str (a b : string) :
  String.length (a +:+ b) = (String.length a + String.length b)%nat.
Proof. induction a as [|x a IH]; [done|]. rewrite app_String. simpl. lia. Qed.

Lemma len_app (a b : string) : len (a +:+ b) = len a + len b.
Proof. unfold len. rewrite length_app_str. lia. Qed.

Lemma len_nonneg (s : string) : 0 <= len s.
Proof. unfold len. lia. Qed.

Lemma length_lower (s : string) : String.length (lower s) = String.length s.
Proof. induction s as [|c s IH]; simpl; congruence. Qed.

Lemma lower_app (a b : string) : lower (a +:+ b) = lower a +:+ lower b.
Proof.
  induction a as [|x a IH]; [done|].
  rewrite app_String. simpl. by rewrite IH.
Qed.

(** A lowered text splits where its lowering splits. *)
Lemma lower_app_inv (t a b : string) :
  lower t = a +:+ b ->
  exists ta tb, t = ta +:+ tb /\ lower ta = a /\ lower tb = b.
Proof.
  revert t. induction a as [|x a IH]; intros t H.
  - exists EmptyString, t. by rewrite app_empty_l in H.
  - rewrite app_String in H. destruct t as [|c t]; [discriminate|].
    simpl in H. injection H as Hc Ht.
    destruct (IH _ Ht) as (ta & tb & -> & Ha & Hb).
    exists (String c ta), tb. rewrite app_String. simpl. by rewrite Hc, Ha.
Qed.

Lemma lower_char_isspace (c : ascii) : isspace (lower_char c) = isspace c.
Proof. by destruct c as [[] [] [] [] [] [] [] []]. Qed.

(** *** take and drop *)

Lemma drop_app_length (a b : string) : drop (String.length a) (a +:+ b) = b.
Proof. induction a as [|x a IH]; [by destruct b|]. by rewrite app_String. Qed.

Lemma take_app_length (a b : string) : take (String.length a) (a +:+ b) = a.
Proof.
  induction a as [|x a IH]; [by destruct b|].
  rewrite app_String. simpl. by rewrite IH.
Qed.

Lemma drop_add (n m : nat) (s : string) : drop (n + m) s = drop m (drop n s).
Proof.
  revert s. induction n as [|n IH]; intros s.
  - by destruct s.
  - destruct s as [|c s]; simpl; [by destruct m|]. apply IH.
Qed.

Lemma drop_all (s : string) (n : nat) :
  (String.length s <= n)%nat -> drop n s = EmptyString.
Proof.
  revert n. induction s as [|c s IH]; intros n H; [by destruct n|].
  destruct n as [|n]; simpl in *; [lia|]. apply IH. lia.
Qed.

Lemma take_all (s : string) (n : nat) :
  (String.length s <= n)%nat -> take n s = s.
Proof.
  revert n. induction s as [|c s IH]; intros n H; [by destruct n|].
  destruct n as [|n]; simpl in *; [lia|]. rewrite IH; [done|lia].
Qed.

Lemma take_drop_id (n : nat) (s : string) : take n s +:+ drop n s = s.
Proof.
  revert s. induction n as [|n IH]; intros s; [by destruct s|].
  destruct s as [|c s]; [done|]. simpl. by rewrite app_String, IH.
Qed.

(** *** Slices of a concatenation *)

Lemma clamp_inside (i n : Z) : 0 <= i <= n -> clamp i n = i.
Proof. intros H. unfold clamp. destruct (Z.ltb_spec i 0); lia. Qed.

Lemma slice_from_app (a b : string) : slice_from (a +:+ b) (len a) = b.
Proof.
  unfold slice_from. rewrite clamp_inside.
  - unfold len. rewrite Nat2Z.id. apply drop_app_length.
  - rewrite len_app. pose proof (len_nonneg a). pose proof (len_nonneg b). lia.
Qed.

Lemma slice_app (a b c : string) :
  slice (a +:+ b +:+ c) (len a) (len a + len b) = b.
Proof.
  pose proof (len_nonneg a). pose proof (len_nonneg b).
  pose proof (len_nonneg c).
  unfold slice. rewrite !clamp_inside by (rewrite !len_app; lia).
  replace (len a + len b - len a) with (len b) by lia.
  unfold len. rewrite !Nat2Z.id, drop_app_length. apply take_app_length.
Qed.

(** *** Prefixes and [find] *)

Lemma prefix_app (p t : string) : String.prefix p (p +:+ t) = true.
Proof.
  induction p as [|c p IH]; [by destruct t|].
  rewrite app_String. simpl. by destruct (ascii_dec c c).
Qed.

Lemma prefix_inv (p s : string) :
  String.prefix p s = true -> exists t, s = p +:+ t.
Proof.
  revert s. induction p as [|c p IH]; intros s H.
  - by exists s.
  - destruct s as [|d s]; [discriminate|]. simpl in H.
    destruct (ascii_dec c d) as [->|]; [|discriminate].
    destruct (IH _ H) as [t ->]. by exists t.
Qed.

Lemma find_nil (sub : string) :
  find EmptyString sub = if String.prefix sub EmptyString then 0 else -1.
Proof. reflexivity. Qed.

Lemma find_cons (c : ascii) (s sub : string) :
  find (String c s) sub =
  if String.prefix sub (String c s) then 0
  else if find s sub =? -1 then -1 else find s sub + 1.
Proof. reflexivity. Qed.

Lemma len_cons (c : ascii) (s : string) : len (String c s) = len s + 1.
Proof. unfold len. simpl String.length. lia. Qed.

Lemma find_range (s sub : string) : -1 <= find s sub <= len s.
Proof.
  induction s as [|c s IH].
  - rewrite find_nil. destruct (String.prefix sub EmptyString); unfold len;
      simpl; lia.
  - rewrite find_cons, len_cons. destruct (String.prefix sub (String c s)).
    + lia.
    + destruct (Z.eqb_spec (find s sub) (-1)); lia.
Qed.

(** [find] returns the position of an occurrence. *)
Lemma find_found (s sub : string) :
  find s sub <> -1 ->
  exists pre post, s = pre +:+ sub +:+ post /\ len pre = find s sub.
Proof.
  induction s as [|c s IH].
  - rewrite find_nil. destruct (String.prefix sub EmptyString) eqn:Hp; [|done].
    intros _. apply prefix_inv in Hp as [t Ht].
    by exists EmptyString, t.
  - rewrite find_cons. destruct (String.prefix sub (String c s)) eqn:Hp.
    + intros _. apply prefix_inv in Hp as [t Ht].
      by exists EmptyString, t.
    + destruct (Z.eqb_spec (find s sub) (-1)) as [|Hne]; [done|].
      intros _. destruct (IH Hne) as (pre & post & Hs & Hlen).
      exists (String c pre), post. split.
      * by rewrite app_String, <- Hs.
      * rewrite len_cons. lia.
Qed.

Lemma find_prefix (sub t : string) : find (sub +:+ t) sub = 0.
Proof.
  destruct (sub +:+ t) eqn:E.
  - rewrite find_nil, <- E. by rewrite prefix_app.
  - rewrite find_cons, <- E. by rewrite prefix_app.
Qed.

(** [find] returns the first occurrence: none starts further left. *)
Lemma find_first (sub pre post : string) :
  0 <= find (pre +:+ sub +:+ post) sub <= len pre.
Proof.
  induction pre as [|c pre IH].
  - rewrite app_empty_l, find_prefix. unfold len. simpl. lia.
  - rewrite app_String, find_cons, len_cons.
    destruct (String.prefix sub (String c (pre +:+ sub +:+ post))).
    + pose proof (len_nonneg pre). lia.
    + destruct (Z.eqb_spec (find (pre +:+ sub +:+ post) sub) (-1)); lia.
Qed.

(** [find] misses no occurrence. *)
Lemma find_complete (s sub : string) : occurs sub s -> find s sub <> -1.
Proof.
  intros (pre & post & ->). pose proof (find_first sub pre post). lia.
Qed.

Lemma find_absent_iff (s sub : string) : find s sub = -1 <-> ~ occurs sub s.
Proof.
  split.
  - intros H Hocc. by apply (find_complete _ _ Hocc).
  - intros H. destruct (Z.eq_dec (find s sub) (-1)) as [|Hne]; [done|].
    exfalso. apply H. destruct (find_found _ _ Hne) as (pre & post & ? & _).
    by exists pre, post.
Qed.

(** *** Stripping *)

Lemma lstrip_nonspace (c : ascii) (s : string) :
  isspace c = false -> lstrip (String c s) = String c s.
Proof. intros H. simpl. by rewrite H. Qed.

Lemma rstrip_nonspace (c : ascii) (s : string) :
  isspace c = false -> rstrip (String c s) = String c (rstrip s).
Proof. intros H. simpl. rewrite H. by destruct (rstrip s). Qed.

Lemma rstrip_app_kept (a b : string) :
  rstrip b <> EmptyString -> rstrip (a +:+ b) = a +:+ rstrip b.
Proof.
  intros Hb. induction a as [|c a IH]; [done|].
  rewrite !app_String. simpl. rewrite IH.
  destruct (a +:+ rstrip b) eqn:E; [|done].
  destruct a; [|discriminate]. by rewrite app_empty_l in E.
Qed.

Lemma rstrip_idem (s : string) : rstrip (rstrip s) = rstrip s.
Proof.
  induction s as [|c s IH]; [done|]. simpl.
  destruct (rstrip s) as [|d r] eqn:E.
  - destruct (isspace c) eqn:Hc; [done|]. simpl. by rewrite Hc.
  - change (rstrip (String c (String d r)))
      with (match rstrip (String d r) with
            | EmptyString => if isspace c then EmptyString else String c EmptyString
            | r' => String c r'
            end).
    by rewrite IH.
Qed.

Lemma lstrip_rstrip (s : string) : lstrip (rstrip s) = rstrip (lstrip s).
Proof.
  induction s as [|c s IH]; [done|].
  destruct (isspace c) eqn:Hc.
  - simpl. rewrite Hc, <- IH. destruct (rstrip s) as [|d r]; [done|].
    simpl. by rewrite Hc.
  - rewrite lstrip_nonspace, rstrip_nonspace by done.
    by rewrite lstrip_nonspace.
Qed.

Lemma strip_rstrip (s : string) : strip (rstrip s) = strip s.
Proof. unfold strip. by rewrite lstrip_rstrip, rstrip_idem. Qed.

(** A text that begins and ends with characters that are not white space
    keeps them, and what follows it is stripped on the right only. *)
Lemma strip_guarded (c d : ascii) (m body : string) :
  isspace c = false -> isspace d = false ->
  strip (String c (m +:+ String d body))
  = String c (m +:+ String d (rstrip body)).
Proof.
  intros Hc Hd. unfold strip.
  rewrite lstrip_nonspace, rstrip_nonspace by done. f_equal.
  rewrite rstrip_app_kept; by rewrite rstrip_nonspace.
Qed.

(** *** Two texts that are equal as concatenations *)

Lemma app_eq_split (a b c d : string) :
  a +:+ b = c +:+ d -> (String.length a <= String.length c)%nat ->
  exists e, c = a +:+ e /\ b = e +:+ d.
Proof.
  revert c. induction a as [|x a IH]; intros c H Hlen.
  - exists c. by rewrite app_empty_l in *.
  - destruct c as [|y c]; [simpl in Hlen; lia|].
    rewrite !app_String in H. injection H as -> H.
    destruct (IH c H) as (e & -> & ->); [simpl in Hlen; lia|].
    by exists e.
Qed.

End PyFacts.

(** ** The two markers *)

Section Markers.
Import Py.

(** An occurrence of one marker cannot begin inside an occurrence of the
    other: after the first character of either marker, the next place
    where a marker could begin is past its end. *)
Lemma rewritten_after_suggestions (pre post pre2 post2 : string) :
  pre +:+ "### suggestions" +:+ post = pre2 +:+ "### rewritten" +:+ post2 ->
  len pre < len pre2 -> len pre + 15 <= len pre2.
Proof.
  intros H Hlt.
  destruct (app_eq_split _ _ _ _ H) as (e & -> & He).
  { unfold len in Hlt. lia. }
  rewrite len_app in *.
  assert (Hd : drop (String.length e) ("### suggestions" +:+ post)
               = "### rewritten" +:+ post2)
    by (rewrite He; apply drop_app_length).
  unfold len in *. remember (String.length e) as n eqn:Hn. clear Hn He H.
  destruct (le_lt_dec 15 n) as [|Hsmall]; [lia|].
  exfalso.
  do 15 (destruct n as [|n]; [first [lia | cbv in Hd; discriminate Hd]|]).
  lia.
Qed.

Lemma suggestions_after_rewritten (pre post pre2 post2 : string) :
  pre +:+ "### suggestions" +:+ post = pre2 +:+ "### rewritten" +:+ post2 ->
  len pre2 < len pre -> len pre2 + 13 <= len pre.
Proof.
  intros H Hlt. symmetry in H.
  destruct (app_eq_split _ _ _ _ H) as (e & -> & He).
  { unfold len in Hlt. lia. }
  rewrite len_app in *.
  assert (Hd : drop (String.length e) ("### rewritten" +:+ post2)
               = "### suggestions" +:+ post)
    by (rewrite He; apply drop_app_length).
  unfold len in *. remember (String.length e) as n eqn:Hn. clear Hn He H.
  destruct (le_lt_dec 13 n) as [|Hsmall]; [lia|].
  exfalso.
  do 13 (destruct n as [|n]; [first [lia | cbv in Hd; discriminate Hd]|]).
  lia.
Qed.

(** How a text with both markers, SUGGESTIONS first, is built: [M] and [R]
    are the markers as the text spells them, at the positions [find]
    returns. *)
Lemma split_in_order (text : string) :
  let s := find (lower text) "### suggestions" in
  let r := find (lower text) "### rewritten" in
  s <> -1 -> r <> -1 -> s < r ->
  exists pre M mid R post,
    text = pre +:+ M +:+ mid +:+ R +:+ post
    /\ lower M = "### suggestions" /\ lower R = "### rewritten"
    /\ len pre = s /\ len pre + 15 + len mid = r.
Proof.
  intros s r Hs Hr Hlt.
  destruct (find_found _ _ Hs) as (p1 & q1 & E1 & L1).
  destruct (find_found _ _ Hr) as (p2 & q2 & E2 & L2).
  fold s in L1. fold r in L2.
  assert (Hap : len p1 + 15 <= len p2).
  { apply (rewritten_after_suggestions p1 q1 p2 q2); [congruence|lia]. }
  assert (E : (p1 +:+ "### suggestions") +:+ q1 = p2 +:+ "### rewritten" +:+ q2)
    by (rewrite app_assoc_str; congruence).
  destruct (app_eq_split _ _ _ _ E) as (e & -> & ->).
  { rewrite length_app_str. unfold len in Hap. simpl. lia. }
  rewrite !app_assoc_str in E2.
  destruct (lower_app_inv _ _ _ E2) as (pre & t1 & -> & Hpre & H1).
  destruct (lower_app_inv _ _ _ H1) as (M & t2 & -> & HM & H2).
  destruct (lower_app_inv _ _ _ H2) as (mid & t3 & -> & Hmid & H3).
  destruct (lower_app_inv _ _ _ H3) as (R & post & -> & HR & Hpost).
  exists pre, M, mid, R, post. repeat split; try done.
  - unfold len. rewrite <- length_lower, Hpre. exact L1.
  - rewrite !len_app in L2. unfold len in *.
    rewrite <- (length_lower pre), <- (length_lower mid), Hpre, Hmid.
    simpl in L2. lia.
Qed.

(** The same with REWRITTEN first. *)
Lemma split_reversed (text : string) :
  let s := find (lower text) "### suggestions" in
  let r := find (lower text) "### rewritten" in
  s <> -1 -> r <> -1 -> ~ s < r ->
  exists pre R mid M post,
    text = pre +:+ R +:+ mid +:+ M +:+ post
    /\ lower M = "### suggestions" /\ lower R = "### rewritten"
    /\ len pre = r /\ len pre + 13 + len mid = s.
Proof.
  intros s r Hs Hr Hlt.
  destruct (find_found _ _ Hs) as (p1 & q1 & E1 & L1).
  destruct (find_found _ _ Hr) as (p2 & q2 & E2 & L2).
  fold s in L1. fold r in L2.
  assert (Hne : len p1 <> len p2).
  { intros Heq. assert (E : p1 +:+ "### suggestions" +:+ q1
                            = p2 +:+ "### rewritten" +:+ q2) by congruence.
    destruct (app_eq_split _ _ _ _ E) as (e & -> & He).
    { unfold len in Heq. lia. }
    rewrite len_app in Heq. destruct e; [|unfold len in Heq; simpl in Heq; lia].
    cbv in He. discriminate He. }
  assert (Hap : len p2 + 13 <= len p1).
  { apply (suggestions_after_rewritten p1 q1 p2 q2); [congruence|lia]. }
  assert (E : (p2 +:+ "### rewritten") +:+ q2 = p1 +:+ "### suggestions" +:+ q1)
    by (rewrite app_assoc_str; congruence).
  destruct (app_eq_split _ _ _ _ E) as (e & -> & ->).
  { rewrite length_app_str. unfold len in Hap. simpl. lia. }
  rewrite !app_assoc_str in E1.
  destruct (lower_app_inv _ _ _ E1) as (pre & t1 & -> & Hpre & H1).
  destruct (lower_app_inv _ _ _ H1) as (R & t2 & -> & HR & H2).
  destruct (lower_app_inv _ _ _ H2) as (mid & t3 & -> & Hmid & H3).
  destruct (lower_app_inv _ _ _ H3) as (M & post & -> & HM & Hpost).
  exists pre, R, mid, M, post. repeat split; try done.
  - unfold len. rewrite <- length_lower, Hpre. exact L2.
  - rewrite !len_app in L1. unfold len in *.
    rewrite <- (length_lower pre), <- (length_lower mid), Hpre, Hmid.
    simpl in L1. lia.
Qed.

End Markers.

(** ** The response parser *)

Section Parser.
Import Py.

Lemma slice_mid (a b c : string) (i j : Z) :
  i = len a -> j = len a + len b -> slice (a +:+ b +:+ c) i j = b.
Proof. intros -> ->. apply slice_app. Qed.

Lemma slice_from_at (a b : string) (i : Z) :
  i = len a -> slice_from (a +:+ b) i = b.
Proof. intros ->. apply slice_from_app. Qed.

Lemma len_spelled (M m : string) : lower M = m -> len M = len m.
Proof. intros <-. unfold len. by rewrite length_lower. Qed.

(** What both parsers compute on a text with the markers in order:
    [mid] is the text between the markers and [post] the text after the
    second one. *)
Lemma parse_in_order (text : string) :
  let s := find (lower text) "### suggestions" in
  let r := find (lower text) "### rewritten" in
  s <> -1 -> r <> -1 -> s < r ->
  exists pre M mid R post,
    text = pre +:+ M +:+ mid +:+ R +:+ post
    /\ lower M = "### suggestions" /\ lower R = "### rewritten"
    /\ len pre = s
    /\ Chainlit.parse_editor_response text = (strip mid, strip post)
    /\ Terminal.parse_editor_response text
       = (Terminal.clean_headers ["### SUGGESTIONS"; "### Suggestions"]
            (strip (M +:+ mid)),
          Terminal.clean_headers ["### REWRITTEN"; "### Rewritten"]
            (strip post))
    /\ len pre + 15 + len mid = r.
Proof.
  intros s r Hs Hr Hlt.
  destruct (split_in_order text Hs Hr Hlt)
    as (pre & M & mid & R & post & Ht & HM & HR & Lpre & Lmid).
  fold s in Lpre. fold r in Lmid.
  exists pre, M, mid, R, post. split; [done|]. split; [done|].
  split; [done|]. split; [done|].
  cut (Chainlit.parse_editor_response text = (strip mid, strip post)
       /\ Terminal.parse_editor_response text
          = (Terminal.clean_headers ["### SUGGESTIONS"; "### Suggestions"]
               (strip (M +:+ mid)),
             Terminal.clean_headers ["### REWRITTEN"; "### Rewritten"]
               (strip post))).
  { intros [? ?]. by repeat split. }
  pose proof (len_spelled _ _ HM) as LM. pose proof (len_spelled _ _ HR) as LR.
  change (len "### suggestions") with 15 in LM.
  change (len "### rewritten") with 13 in LR.
  assert (Hmid : slice text (s + 15) r = mid).
  { rewrite Ht, <- (app_assoc_str pre M). apply slice_mid; rewrite len_app; lia. }
  assert (HMmid : slice text s r = M +:+ mid).
  { rewrite Ht, <- (app_assoc_str M mid). apply slice_mid;
      rewrite ?len_app; lia. }
  assert (Hpost : slice_from text (r + 13) = post).
  { rewrite Ht, <- !app_assoc_str.
    apply slice_from_at. rewrite !len_app. lia. }
  unfold Chainlit.parse_editor_response, Terminal.parse_editor_response.
  fold s r.
  change (len "### suggestions") with 15. change (len "### rewritten") with 13.
  change (len "### REWRITTEN") with 13.
  destruct (Z.eqb_spec s (-1)); [done|]. destruct (Z.eqb_spec r (-1)); [done|].
  destruct (Z.ltb_spec s r); [|lia]. simpl orb. cbv iota.
  by rewrite Hmid, HMmid, Hpost.
Qed.

(** The same with the markers in the other order: [mid] follows
    REWRITTEN and [post] follows SUGGESTIONS. *)
Lemma parse_reversed (text : string) :
  let s := find (lower text) "### suggestions" in
  let r := find (lower text) "### rewritten" in
  s <> -1 -> r <> -1 -> ~ s < r ->
  exists pre R mid M post,
    text = pre +:+ R +:+ mid +:+ M +:+ post
    /\ lower M = "### suggestions" /\ lower R = "### rewritten"
    /\ len pre = r
    /\ Chainlit.parse_editor_response text = (strip post, strip mid)
    /\ Terminal.parse_editor_response text
       = (Terminal.clean_headers ["### SUGGESTIONS"; "### Suggestions"]
            (strip post),
          Terminal.clean_headers ["### REWRITTEN"; "### Rewritten"]
            (strip (R +:+ mid)))
    /\ len pre + 13 + len mid = s.
Proof.
  intros s r Hs Hr Hlt.
  destruct (split_reversed text Hs Hr Hlt)
    as (pre & R & mid & M & post & Ht & HM & HR & Lpre & Lmid).
  fold s in Lmid. fold r in Lpre.
  exists pre, R, mid, M, post. split; [done|]. split; [done|].
  split; [done|]. split; [done|].
  cut (Chainlit.parse_editor_response text = (strip post, strip mid)
       /\ Terminal.parse_editor_response text
          = (Terminal.clean_headers ["### SUGGESTIONS"; "### Suggestions"]
               (strip post),
             Terminal.clean_headers ["### REWRITTEN"; "### Rewritten"]
               (strip (R +:+ mid)))).
  { intros [? ?]. by repeat split. }
  pose proof (len_spelled _ _ HM) as LM. pose proof (len_spelled _ _ HR) as LR.
  change (len "### suggestions") with 15 in LM.
  change (len "### rewritten") with 13 in LR.
  assert (Hmid : slice text (r + 13) s = mid).
  { rewrite Ht, <- (app_assoc_str pre R). apply slice_mid; rewrite len_app; lia. }
  assert (HRmid : slice text r s = R +:+ mid).
  { rewrite Ht, <- (app_assoc_str R mid). apply slice_mid;
      rewrite ?len_app; lia. }
  assert (Hpost : slice_from text (s + 15) = post).
  { rewrite Ht, <- !app_assoc_str.
    apply slice_from_at. rewrite !len_app. lia. }
  unfold Chainlit.parse_editor_response, Terminal.parse_editor_response.
  fold s r.
  change (len "### suggestions") with 15. change (len "### rewritten") with 13.
  change (len "### SUGGESTIONS") with 15.
  destruct (Z.eqb_spec s (-1)); [done|]. destruct (Z.eqb_spec r (-1)); [done|].
  destruct (Z.ltb_spec s r); [lia|]. simpl orb. cbv iota.
  by rewrite Hmid, HRmid, Hpost.
Qed.

End Parser.

(** ** The two parsers compared *)

Section ParserClaims.
Import Py Spec.

Lemma clean_headers_none (hdrs : list string) (x : string) :
  has_header hdrs x = false -> Terminal.clean_headers hdrs x = x.
Proof.
  unfold has_header, Terminal.clean_headers.
  induction hdrs as [|h hdrs IH]; [done|].
  simpl. intros H. apply orb_false_elim in H as [Hh Hrest].
  rewrite Hh. by apply IH.
Qed.

Lemma strip_upper_suggestions (mid : string) :
  strip ("### SUGGESTIONS" +:+ mid) = "### SUGGESTIONS" +:+ rstrip mid.
Proof.
  change ("### SUGGESTIONS" +:+ mid)
    with (String "#" ("## SUGGESTION" +:+ String "S" mid)).
  by rewrite strip_guarded.
Qed.

Lemma strip_title_suggestions (mid : string) :
  strip ("### Suggestions" +:+ mid) = "### Suggestions" +:+ rstrip mid.
Proof.
  change ("### Suggestions" +:+ mid)
    with (String "#" ("## Suggestion" +:+ String "s" mid)).
  by rewrite strip_guarded.
Qed.

Lemma strip_upper_rewritten (mid : string) :
  strip ("### REWRITTEN" +:+ mid) = "### REWRITTEN" +:+ rstrip mid.
Proof.
  change ("### REWRITTEN" +:+ mid)
    with (String "#" ("## REWRITTE" +:+ String "N" mid)).
  by rewrite strip_guarded.
Qed.

Lemma strip_title_rewritten (mid : string) :
  strip ("### Rewritten" +:+ mid) = "### Rewritten" +:+ rstrip mid.
Proof.
  change ("### Rewritten" +:+ mid)
    with (String "#" ("## Rewritte" +:+ String "n" mid)).
  by rewrite strip_guarded.
Qed.

(** A section that still carries its marker, written in a spelling the
    loop knows, is cleaned to the stripped text behind the marker. *)
Lemma clean_marked_suggestions (M mid : string) :
  existsb (String.eqb M) SUGGESTIONS_headers = true ->
  has_header SUGGESTIONS_headers (strip mid) = false ->
  Terminal.clean_headers SUGGESTIONS_headers (strip (M +:+ mid)) = strip mid.
Proof.
  intros HM Hno. unfold has_header in Hno. simpl in HM, Hno.
  apply orb_false_elim in Hno as [H1 Hno].
  apply orb_false_elim in Hno as [H2 _].
  unfold Terminal.clean_headers, SUGGESTIONS_headers. cbn [fold_left].
  destruct (String.eqb_spec M "### SUGGESTIONS") as [->|_].
  - rewrite strip_upper_suggestions. unfold startswith in *.
    rewrite prefix_app, slice_from_app, strip_rstrip. by rewrite H2.
  - destruct (String.eqb_spec M "### Suggestions") as [->|_]; [|done].
    rewrite strip_title_suggestions. unfold startswith in *.
    change (String.prefix "### SUGGESTIONS" ("### Suggestions" +:+ rstrip mid))
      with false. cbv iota.
    by rewrite prefix_app, slice_from_app, strip_rstrip.
Qed.

Lemma clean_marked_rewritten (R mid : string) :
  existsb (String.eqb R) REWRITTEN_headers = true ->
  has_header REWRITTEN_headers (strip mid) = false ->
  Terminal.clean_headers REWRITTEN_headers (strip (R +:+ mid)) = strip mid.
Proof.
  intros HR Hno. unfold has_header in Hno. simpl in HR, Hno.
  apply orb_false_elim in Hno as [H1 Hno].
  apply orb_false_elim in Hno as [H2 _].
  unfold Terminal.clean_headers, REWRITTEN_headers. cbn [fold_left].
  destruct (String.eqb_spec R "### REWRITTEN") as [->|_].
  - rewrite strip_upper_rewritten. unfold startswith in *.
    rewrite prefix_app, slice_from_app, strip_rstrip. by rewrite H2.
  - destruct (String.eqb_spec R "### Rewritten") as [->|_]; [|done].
    rewrite strip_title_rewritten. unfold startswith in *.
    change (String.prefix "### REWRITTEN" ("### Rewritten" +:+ rstrip mid))
      with false. cbv iota.
    by rewrite prefix_app, slice_from_app, strip_rstrip.
Qed.

Lemma parse_fallback (text : string) :
  find (lower text) "### suggestions" = -1
  \/ find (lower text) "### rewritten" = -1 ->
  Terminal.parse_editor_response text = (strip text, EmptyString)
  /\ Chainlit.parse_editor_response text = (strip text, EmptyString).
Proof.
  intros H. unfold Terminal.parse_editor_response,
    Chainlit.parse_editor_response.
  destruct H as [-> | ->]; [done|].
  by rewrite orb_true_r.
Qed.

(** C2. A text in which one of the two markers does not occur, whatever
    the case of its letters, is returned whole: both parsers give the
    stripped text as suggestions and the empty string as rewrite. *)
Theorem parse_without_marker (text : string) :
  ~ occurs "### suggestions" (lower text)
  \/ ~ occurs "### rewritten" (lower text) ->
  Terminal.parse_editor_response text = (strip text, EmptyString)
  /\ Chainlit.parse_editor_response text = (strip text, EmptyString).
Proof.
  intros H. apply parse_fallback.
  destruct H as [H | H]; [left | right]; by apply find_absent_iff.
Qed.

Lemma parse_without_marker_witness :
  (~ occurs "### suggestions" (lower "  no markers ### REWRITTEN  ")
   \/ ~ occurs "### rewritten" (lower "  no markers ### REWRITTEN  "))
  /\ Terminal.parse_editor_response "  no markers ### REWRITTEN  "
     = ("no markers ### REWRITTEN", EmptyString)
  /\ Chainlit.parse_editor_response "  no markers ### REWRITTEN  "
     = ("no markers ### REWRITTEN", EmptyString).
Proof.
  assert (H : ~ occurs "### suggestions" (lower "  no markers ### REWRITTEN  ")
              \/ ~ occurs "### rewritten" (lower "  no markers ### REWRITTEN  ")).
  { left. apply find_absent_iff. vm_compute. reflexivity. }
  split; [exact H|]. exact (parse_without_marker _ H).
Defined.

(** C1. The terminal parser on a text whose markers are in order and
    written in lower case: the SUGGESTIONS marker stays in the first
    section, because the cleaning loop knows two spellings only. *)
Theorem terminal_parse_keeps_lowercase_marker :
  Terminal.parse_editor_response
    ("### suggestions" +:+ nl +:+ "foo" +:+ nl +:+ "### rewritten" +:+ nl
     +:+ "bar")
  = ("### suggestions" +:+ nl +:+ "foo", "bar").
Proof. vm_compute. reflexivity. Qed.

(** The chat parser on the same text returns the text between and after
    the markers. *)
Lemma chainlit_parse_lowercase_marker :
  Chainlit.parse_editor_response
    ("### suggestions" +:+ nl +:+ "foo" +:+ nl +:+ "### rewritten" +:+ nl
     +:+ "bar")
  = ("foo", "bar").
Proof. vm_compute. reflexivity. Qed.

(** C7. The terminal parser on a text whose markers are in the reverse
    order and written in lower case: the REWRITTEN marker stays in the
    rewrite. *)
Theorem terminal_parse_reversed_keeps_lowercase_marker :
  Terminal.parse_editor_response
    ("### rewritten" +:+ nl +:+ "bar" +:+ nl +:+ "### suggestions" +:+ nl
     +:+ "foo")
  = ("foo", "### rewritten" +:+ nl +:+ "bar").
Proof. vm_compute. reflexivity. Qed.

Lemma chainlit_parse_reversed_lowercase_marker :
  Chainlit.parse_editor_response
    ("### rewritten" +:+ nl +:+ "bar" +:+ nl +:+ "### suggestions" +:+ nl
     +:+ "foo")
  = ("foo", "bar").
Proof. vm_compute. reflexivity. Qed.

(** The chat parser meets both claims on every text: with the markers in
    order it returns the stripped text between them and the stripped text
    after the second; in the reverse order each field still gets the text
    after its own marker. *)
Lemma chainlit_parse_sections (text : string) :
  let s := find (lower text) "### suggestions" in
  let r := find (lower text) "### rewritten" in
  s <> -1 -> r <> -1 ->
  exists pre A mid B post,
    text = pre +:+ A +:+ mid +:+ B +:+ post
    /\ ((s < r /\ lower A = "### suggestions" /\ lower B = "### rewritten"
         /\ Chainlit.parse_editor_response text = (strip mid, strip post))
        \/ (r < s /\ lower A = "### rewritten" /\ lower B = "### suggestions"
            /\ Chainlit.parse_editor_response text = (strip post, strip mid))).
Proof.
  intros s r Hs Hr. destruct (Z.lt_ge_cases s r) as [Hlt | Hge].
  - destruct (parse_in_order text Hs Hr Hlt)
      as (pre & M & mid & R & post & Ht & HM & HR & _ & Hc & _).
    exists pre, M, mid, R, post. split; [done|]. left. by fold s r.
  - assert (Hn : ~ s < r) by lia.
    destruct (parse_reversed text Hs Hr Hn)
      as (pre & R & mid & M & post & Ht & HM & HR & Lpre & Hc & _).
    exists pre, R, mid, M, post. split; [done|]. right.
    split; [|done].
    destruct (split_reversed text Hs Hr Hn)
      as (p0 & R0 & m0 & M0 & q0 & _ & _ & _ & L1 & L2).
    fold s in L2. fold r in L1.
    pose proof (len_nonneg m0). pose proof (len_nonneg p0). lia.
Qed.

(** A marker as the text spells it begins and ends with a character that
    is not white space, so stripping keeps it. *)
Lemma strip_spelled_suggestions (M mid : string) :
  lower M = "### suggestions" -> strip (M +:+ mid) = M +:+ rstrip mid.
Proof.
  intros H.
  destruct M as [|c M]; [discriminate|]. simpl in H. injection H as Hc H.
  assert (Hlast : exists m d, M = m +:+ String d EmptyString
                              /\ isspace d = false).
  { do 13 (destruct M as [|? M]; [discriminate|]; simpl in H;
           injection H as _ H).
    destruct M as [|d M]; [discriminate|]. simpl in H. injection H as Hd H.
    destruct M; [|discriminate].
    eexists (String _ (String _ (String _ (String _ (String _ (String _
              (String _ (String _ (String _ (String _ (String _ (String _
              (String _ EmptyString))))))))))))), d.
    split; [reflexivity|].
    rewrite <- lower_char_isspace, Hd. reflexivity. }
  destruct Hlast as (m & d & -> & Hd).
  assert (Hc' : isspace c = false)
    by (rewrite <- lower_char_isspace, Hc; reflexivity).
  rewrite !app_String, !app_assoc_str, !app_String, !app_empty_l.
  by apply strip_guarded.
Qed.

Lemma strip_spelled_rewritten (R mid : string) :
  lower R = "### rewritten" -> strip (R +:+ mid) = R +:+ rstrip mid.
Proof.
  intros H.
  destruct R as [|c R]; [discriminate|]. simpl in H. injection H as Hc H.
  assert (Hlast : exists m d, R = m +:+ String d EmptyString
                              /\ isspace d = false).
  { do 11 (destruct R as [|? R]; [discriminate|]; simpl in H;
           injection H as _ H).
    destruct R as [|d R]; [discriminate|]. simpl in H. injection H as Hd H.
    destruct R; [|discriminate].
    eexists (String _ (String _ (String _ (String _ (String _ (String _
              (String _ (String _ (String _ (String _ (String _
              EmptyString))))))))))), d.
    split; [reflexivity|].
    rewrite <- lower_char_isspace, Hd. reflexivity. }
  destruct Hlast as (m & d & -> & Hd).
  assert (Hc' : isspace c = false)
    by (rewrite <- lower_char_isspace, Hc; reflexivity).
  rewrite !app_String, !app_assoc_str, !app_String, !app_empty_l.
  by apply strip_guarded.
Qed.

(** A text that begins with a marker in some spelling begins with a header
    of the cleaning loop only when the spelling is that header. *)
Lemma startswith_spelled (M x hdr : string) :
  String.length M = String.length hdr -> M <> hdr ->
  startswith (M +:+ x) hdr = false.
Proof.
  intros Hlen Hne. unfold startswith.
  destruct (String.prefix hdr (M +:+ x)) eqn:Hp; [|done].
  exfalso. apply Hne. apply prefix_inv in Hp as [t Ht].
  destruct (app_eq_split _ _ _ _ Ht) as (e & -> & _); [lia|].
  rewrite length_app_str in Hlen. destruct e; [|simpl in Hlen; lia].
  by rewrite app_empty_r.
Qed.

(** The extent of the defect behind C1: whenever the markers are in order
    and the SUGGESTIONS marker is written in a spelling other than the
    two of the cleaning loop, the terminal parser leaves the marker in
    front of the suggestions. *)
Lemma terminal_parse_marker_survives (text : string) :
  let s := find (lower text) "### suggestions" in
  let r := find (lower text) "### rewritten" in
  s <> -1 -> r <> -1 -> s < r ->
  existsb (String.eqb (slice text s (s + 15))) SUGGESTIONS_headers = false ->
  fst (Terminal.parse_editor_response text)
  = slice text s (s + 15) +:+ rstrip (slice text (s + 15) r).
Proof.
  intros s r Hs Hr Hlt Hspell.
  destruct (parse_in_order text Hs Hr Hlt)
    as (pre & M & mid & R & post & Ht & HM & HR & Lpre & _ & -> & Lmid).
  fold s in Lpre. fold r in Lmid. cbn [fst].
  pose proof (len_spelled _ _ HM) as LM.
  change (len "### suggestions") with 15 in LM.
  assert (HsM : slice text s (s + 15) = M).
  { rewrite Ht. apply slice_mid; [done|lia]. }
  assert (Hmid : slice text (s + 15) r = mid).
  { rewrite Ht, <- (app_assoc_str pre M).
    apply slice_mid; rewrite len_app; lia. }
  rewrite HsM, Hmid in *. rewrite strip_spelled_suggestions by exact HM.
  unfold SUGGESTIONS_headers in Hspell. simpl in Hspell.
  apply orb_false_elim in Hspell as [H1 H2].
  apply orb_false_elim in H2 as [H2 _].
  apply String.eqb_neq in H1, H2.
  unfold Terminal.clean_headers. cbn [fold_left].
  rewrite !startswith_spelled; try done; unfold len in LM; simpl; lia.
Qed.

(** The same for C7, with the markers in the reverse order and the
    REWRITTEN marker in another spelling: it stays in front of the
    rewrite. *)
Lemma terminal_parse_reversed_marker_survives (text : string) :
  let s := find (lower text) "### suggestions" in
  let r := find (lower text) "### rewritten" in
  s <> -1 -> r <> -1 -> r < s ->
  existsb (String.eqb (slice text r (r + 13))) REWRITTEN_headers = false ->
  snd (Terminal.parse_editor_response text)
  = slice text r (r + 13) +:+ rstrip (slice text (r + 13) s).
Proof.
  intros s r Hs Hr Hlt Hspell.
  assert (Hn : ~ s < r) by lia.
  destruct (parse_reversed text Hs Hr Hn)
    as (pre & R & mid & M & post & Ht & HM & HR & Lpre & _ & -> & Lmid).
  fold r in Lpre. fold s in Lmid. cbn [snd].
  pose proof (len_spelled _ _ HR) as LR.
  change (len "### rewritten") with 13 in LR.
  assert (HrR : slice text r (r + 13) = R).
  { rewrite Ht. apply slice_mid; [done|lia]. }
  assert (Hmid : slice text (r + 13) s = mid).
  { rewrite Ht, <- (app_assoc_str pre R).
    apply slice_mid; rewrite len_app; lia. }
  rewrite HrR, Hmid in *. rewrite strip_spelled_rewritten by exact HR.
  unfold REWRITTEN_headers in Hspell. simpl in Hspell.
  apply orb_false_elim in Hspell as [H1 H2].
  apply orb_false_elim in H2 as [H2 _].
  apply String.eqb_neq in H1, H2.
  unfold Terminal.clean_headers. cbn [fold_left].
  rewrite !startswith_spelled; try done; unfold len in LR; simpl; lia.
Qed.

(** C8, as stated, fails: a rewrite that begins with a second header is
    cleaned by the terminal parser and kept by the chat parser. *)
Lemma parsers_differ_on_repeated_header :
  Terminal.parse_editor_response
    "### SUGGESTIONS a ### REWRITTEN ### REWRITTEN b"
  <> Chainlit.parse_editor_response
       "### SUGGESTIONS a ### REWRITTEN ### REWRITTEN b".
Proof. vm_compute. discriminate. Qed.

(** C8, amended. The two parsers return the same pair on every text of
    one-byte characters (U+0000..U+00FF) that is in [agree_domain]: a
    marker is missing, or the first marker is written ["### SUGGESTIONS"]
    or ["### Suggestions"] (["### REWRITTEN"] or ["### Rewritten"] when
    that one comes first) and no section begins with a further header.
    Texts with other characters are left out: where lower-casing changes
    the length of the text the two parsers cut at shifted positions, each
    in its own way. *)
Theorem parsers_agree_on_domain (text : string) :
  agree_domain text = true ->
  Terminal.parse_editor_response text = Chainlit.parse_editor_response text.
Proof.
  unfold agree_domain.
  set (s := find (lower text) "### suggestions").
  set (r := find (lower text) "### rewritten").
  destruct (Z.eqb_spec s (-1)) as [Hs | Hs].
  { intros _. destruct (parse_fallback text) as [-> ->]; [by left|done]. }
  destruct (Z.eqb_spec r (-1)) as [Hr | Hr].
  { intros _. destruct (parse_fallback text) as [-> ->]; [by right|done]. }
  simpl orb. cbv iota.
  destruct (Z.ltb_spec s r) as [Hlt | Hge].
  - destruct (parse_in_order text Hs Hr Hlt)
      as (pre & M & mid & R & post & Ht & HM & HR & Lpre & Hc & Hterm & _).
    fold s in Lpre. rewrite Hc, Hterm. cbn [fst snd].
    assert (HsM : slice text s (s + 15) = M).
    { rewrite Ht. apply slice_mid; [done|].
      rewrite (len_spelled _ _ HM). change (len "### suggestions") with 15.
      lia. }
    rewrite HsM. intros H.
    apply andb_prop in H as [H H3]. apply andb_prop in H as [H1 H2].
    apply negb_true_iff in H2, H3.
    f_equal.
    + by apply clean_marked_suggestions.
    + by apply clean_headers_none.
  - assert (Hn : ~ s < r) by lia.
    destruct (parse_reversed text Hs Hr Hn)
      as (pre & R & mid & M & post & Ht & HM & HR & Lpre & Hc & Hterm & _).
    fold r in Lpre. rewrite Hc, Hterm. cbn [fst snd].
    assert (HrR : slice text r (r + 13) = R).
    { rewrite Ht. apply slice_mid; [done|].
      rewrite (len_spelled _ _ HR). change (len "### rewritten") with 13.
      lia. }
    rewrite HrR. intros H.
    apply andb_prop in H as [H H3]. apply andb_prop in H as [H1 H2].
    apply negb_true_iff in H2, H3.
    f_equal.
    + by apply clean_headers_none.
    + by apply clean_marked_rewritten.
Qed.

Lemma parsers_agree_on_domain_witness :
  agree_domain ("intro" +:+ nl +:+ "### Suggestions" +:+ nl
                +:+ "- tighten opening" +:+ nl +:+ nl +:+ "### rewritten"
                +:+ nl +:+ "D1-improved") = true
  /\ Terminal.parse_editor_response
       ("intro" +:+ nl +:+ "### Suggestions" +:+ nl
        +:+ "- tighten opening" +:+ nl +:+ nl +:+ "### rewritten"
        +:+ nl +:+ "D1-improved")
     = Chainlit.parse_editor_response
         ("intro" +:+ nl +:+ "### Suggestions" +:+ nl
          +:+ "- tighten opening" +:+ nl +:+ nl +:+ "### rewritten"
          +:+ nl +:+ "D1-improved").
Proof.
  split; [vm_compute; reflexivity|].
  apply parsers_agree_on_domain. vm_compute. reflexivity.
Defined.

End ParserClaims.

(** ** The terminal front end *)

Section TerminalFacts.
Import Py Eff Spec Terminal.

Lemma bind_Ok {W A B : Type} (m : M W A) (f : A -> M W B) (w w' : W) (a : A) :
  m w = Ok a w' -> (m ≫= f) w = f a w'.
Proof. intros H. unfold mbind, M_bind. by rewrite H. Qed.

Lemma bind_Raise {W A B : Type} (m : M W A) (f : A -> M W B) (w w' : W)
  (e : exn) :
  m w = Raise e w' -> (m ≫= f) w = Raise e w'.
Proof. intros H. unfold mbind, M_bind. by rewrite H. Qed.

Lemma ret_Ok {W A : Type} (a : A) (w : W) : (mret a : M W A) w = Ok a w.
Proof. reflexivity. Qed.

Lemma try_except_Ok {W A : Type} (body : M W A) (h : exn -> M W A) (w w' : W)
  (a : A) :
  body w = Ok a w' -> try_except body h w = Ok a w'.
Proof. intros H. unfold try_except. by rewrite H. Qed.

Lemma try_except_Raise {W A : Type} (body : M W A) (h : exn -> M W A)
  (w w' : W) (e : exn) :
  body w = Raise e w' -> is_Exception e = true ->
  try_except body h w = h e w'.
Proof. intros H He. unfold try_except. by rewrite H, He. Qed.

Lemma say_say (a b : list string) (w : World) :
  say b (say a w) = say (a ++ b) w.
Proof. unfold say. simpl. by rewrite app_assoc. Qed.

Lemma say_nil (w : World) : say [] w = w.
Proof. destruct w. unfold say. simpl. by rewrite app_nil_r. Qed.

Lemma print_say (s : string) (w : World) :
  print s w = Ok tt (say [s +:+ nl] w).
Proof. reflexivity. Qed.

(** *** Computations that only print *)

Lemma only_prints_print (s : string) : only_prints (print s).
Proof. by exists [s +:+ nl]. Qed.

Lemma only_prints_ret : only_prints (mret tt).
Proof. exists []. intros w. by rewrite say_nil. Qed.

Lemma only_prints_seq (m k : M World unit) :
  only_prints m -> only_prints k -> only_prints (m;; k).
Proof.
  intros [a Ha] [b Hb]. exists (a ++ b). intros w.
  rewrite (bind_Ok _ _ _ _ _ (Ha w)). by rewrite Hb, say_say.
Qed.

Lemma only_prints_if (c : bool) (m k : M World unit) :
  only_prints m -> only_prints k -> only_prints (if c then m else k).
Proof. by destruct c. Qed.

Lemma only_prints_divider (title : option string) :
  only_prints (print_divider title).
Proof.
  destruct title as [t|]; simpl; [|apply only_prints_print].
  destruct (truthy t); apply only_prints_print.
Qed.

Lemma only_prints_lines (ls : list string) : only_prints (print_lines ls).
Proof.
  induction ls as [|l ls IH]; simpl; [apply only_prints_ret|].
  apply only_prints_seq; [apply only_prints_print | exact IH].
Qed.

Lemma only_prints_show_diff (E : Env) (a b : string) :
  only_prints (show_diff E a b).
Proof.
  unfold show_diff.
  apply only_prints_seq; [apply only_prints_divider | apply only_prints_lines].
Qed.

Lemma only_prints_menu (sg ev : string) : only_prints (present_menu sg ev).
Proof.
  unfold present_menu.
  repeat first
    [ apply only_prints_seq | apply only_prints_if | apply only_prints_divider
    | apply only_prints_print | apply only_prints_ret ].
Qed.

(** *** The clients *)

Lemma ensure_creator_ok (E : Env) (w : World) :
  creator_ready E w ->
  ensure_creator_llm E w
  = Ok tt (mkWorld (stdin w) (stdout w) true (EDITOR_LLM w) (clock w)
             (files w)).
Proof.
  intros [H | H]; unfold ensure_creator_llm.
  - rewrite H. destruct w; simpl in *. by rewrite H.
  - destruct (CREATOR_LLM w) eqn:Hc.
    + destruct w; simpl in *. by rewrite Hc.
    + unfold make_creator_llm. by rewrite H.
Qed.

Lemma ensure_editor_ok (E : Env) (w : World) :
  editor_ready E w ->
  ensure_editor_llm E w
  = Ok tt (mkWorld (stdin w) (stdout w) (CREATOR_LLM w) true (clock w)
             (files w)).
Proof.
  intros [H | H]; unfold ensure_editor_llm.
  - rewrite H. destruct w; simpl in *. by rewrite H.
  - destruct (EDITOR_LLM w) eqn:Hc.
    + destruct w; simpl in *. by rewrite Hc.
    + unfold make_editor_llm. by rewrite H.
Qed.

(** *** Reading *)

Lemma read_multiline_eq (prompt : string) (w : World) :
  read_multiline prompt w
  = Ok (text_read (stdin w))
      (mkWorld (snd (read_lines [] (stdin w)))
         (stdout w ++ [nl; prompt +:+ nl]) (CREATOR_LLM w) (EDITOR_LLM w)
         (clock w) (files w)).
Proof.
  unfold read_multiline, text_read.
  rewrite (bind_Ok _ _ _ _ _ (print_say _ w)).
  rewrite (bind_Ok _ _ _ _ _ (print_say _ _)).
  unfold read_until_done. simpl.
  destruct (read_lines [] (stdin w)) as [lines rest]. simpl.
  by rewrite <- app_assoc.
Qed.

Lemma input_eq (prompt : string) (w : World) (line : string)
  (rest : list string) :
  stdin w = line :: rest ->
  input prompt w
  = Ok line (mkWorld rest (stdout w ++ [prompt]) (CREATOR_LLM w)
               (EDITOR_LLM w) (clock w) (files w)).
Proof.
  intros H. unfold input.
  rewrite (bind_Ok _ _ _ _ _ (eq_refl : write prompt w = Ok tt (say [prompt] w))).
  unfold input_line. simpl. by rewrite H.
Qed.

Lemma input_eof (prompt : string) (w : World) :
  stdin w = [] -> input prompt w = Raise EOFError (say [prompt] w).
Proof.
  intros H. unfold input.
  rewrite (bind_Ok _ _ _ _ _ (eq_refl : write prompt w = Ok tt (say [prompt] w))).
  unfold input_line. simpl. by rewrite H.
Qed.

(** When the menu is shown, [creator_node] prints, reads one line and
    dispatches on it. *)
Lemma creator_node_menu (E : Env) (st : DocState) (w : World)
  (line : string) (rest : list string) :
  creator_ready E w -> menu_turn st = true -> stdin w = line :: rest ->
  exists out,
    creator_node E st w
    = dispatch_choice E st (strip line)
        (mkWorld rest (stdout w ++ out) true (EDITOR_LLM w) (clock w)
           (files w)).
Proof.
  intros Hready Hmenu Hin. unfold creator_node.
  rewrite (bind_Ok _ _ _ _ _ (ensure_creator_ok E w Hready)).
  unfold menu_turn in Hmenu. apply negb_true_iff in Hmenu. rewrite Hmenu.
  destruct (only_prints_menu (suggestions st) (edited_version st)) as [o Ho].
  rewrite (bind_Ok _ _ _ _ _ (Ho _)).
  exists (o ++ ["Enter 1/2/3/4/5: "]).
  erewrite bind_Ok; [|apply input_eq; simpl; exact Hin].
  simpl. by rewrite <- app_assoc.
Qed.

(** *** What the nodes may return *)

Lemma ensures_ret {A : Type} (P : A -> Prop) (a : A) :
  P a -> ensures P (mret a).
Proof. intros H w a' w' [= <- _]. exact H. Qed.

Lemma ensures_bind {A B : Type} (P : B -> Prop) (m : M World A)
  (f : A -> M World B) :
  (forall a, ensures P (f a)) -> ensures P (m ≫= f).
Proof.
  intros H w b w'. unfold mbind, M_bind.
  destruct (m w) as [a w1 | e w1]; [|done]. apply H.
Qed.

Lemma ensures_try {A : Type} (P : A -> Prop) (body : M World A)
  (handler : exn -> M World A) :
  ensures P body -> (forall e, ensures P (handler e)) ->
  ensures P (try_except body handler).
Proof.
  intros Hb Hh w a w'. unfold try_except.
  destruct (body w) as [a1 w1 | e w1] eqn:E.
  - intros [= <- <-]. by eapply Hb.
  - destruct (is_Exception e); [apply Hh | done].
Qed.

Lemma ensures_if {A : Type} (P : A -> Prop) (c : bool) (m k : M World A) :
  ensures P m -> ensures P k -> ensures P (if c then m else k).
Proof. by destruct c. Qed.

Ltac ensures_step :=
  first
    [ apply ensures_ret
    | apply ensures_try; [|intros ?]
    | apply ensures_if
    | apply ensures_bind; intros ? ].

Lemma welcome_turn_update (E : Env) (st : DocState) :
  ensures (creator_update st) (welcome_turn E (iteration st)).
Proof.
  unfold welcome_turn. repeat ensures_step;
    unfold creator_update; simpl; auto.
Qed.

Lemma dispatch_choice_update (E : Env) (st : DocState) (choice : string) :
  ensures (creator_update st) (dispatch_choice E st choice).
Proof.
  unfold dispatch_choice. repeat ensures_step;
    unfold creator_update; simpl; auto.
Qed.

Lemma creator_node_update (E : Env) (st : DocState) :
  ensures (creator_update st) (creator_node E st).
Proof.
  unfold creator_node. apply ensures_bind. intros _. apply ensures_if.
  - apply welcome_turn_update.
  - apply ensures_bind. intros _. apply ensures_bind. intros line.
    apply dispatch_choice_update.
Qed.

Lemma editor_node_update (E : Env) (st : DocState) :
  ensures editor_update (editor_node E st).
Proof.
  unfold editor_node. apply ensures_bind. intros _. apply ensures_if.
  - by apply ensures_ret.
  - apply ensures_bind. intros _. apply ensures_try.
    + apply ensures_bind. intros resp.
      destruct (parse_editor_response resp). by apply ensures_ret.
    + intros e. apply ensures_bind. intros _. by apply ensures_ret.
Qed.

(** *** The loop counter *)

Lemma creator_step_iteration (E : Env) (st : DocState) (w w' : World)
  (u : Update) :
  approved st = false -> creator_node E st w = Ok u w' ->
  (route_after_creator (merge st u) = "editor"
   /\ iteration (merge st u) = iteration st + 1)
  \/ (route_after_creator (merge st u) = "end"
      /\ iteration (merge st u) = iteration st
      /\ content (merge st u) = content st).
Proof.
  intros Hap H. unfold route_after_creator.
  destruct (creator_node_update E st w u w' H)
    as [(Ha & Hi & Hc) | (Ha & Hi)]; unfold merge; simpl;
    rewrite Ha, Hi; simpl.
  - right. by rewrite Hc.
  - left. by rewrite Hap.
Qed.

Lemma editor_step_iteration (E : Env) (st : DocState) (w w' : World)
  (u : Update) :
  editor_node E st w = Ok u w' ->
  iteration (merge st u) = iteration st
  /\ approved (merge st u) = approved st
  /\ content (merge st u) = content st.
Proof.
  intros H. destruct (editor_node_update E st w u w' H) as (Hc & Ha & Hi).
  unfold merge. simpl. by rewrite Hc, Ha, Hi.
Qed.

(** The graph under a limit of one: the creator node runs, then the
    runtime raises. *)
Lemma run_graph_1 (E : Env) (st : DocState) (w : World) :
  run_graph E 1 st w
  = match creator_node E st w with
    | Ok _ w1 => Raise GraphRecursionError w1
    | Raise e w1 => Raise e w1
    end.
Proof. reflexivity. Qed.

(** The graph under a limit of two or more. *)
Lemma run_graph_SS (E : Env) (limit : nat) (st : DocState) :
  run_graph E (S (S limit)) st
  = (u ← creator_node E st;
     if String.eqb (route_after_creator (merge st u)) "end"
     then mret (merge st u)
     else
       u2 ← editor_node E (merge st u);
       run_graph E limit (merge (merge st u) u2)).
Proof. reflexivity. Qed.

(** The runs of [run_graph] are executions in the sense of [reaches]. *)
Lemma run_graph_reaches (E : Env) (limit : nat) :
  forall (st0 : DocState) (w0 : World) (k c : nat) (st : DocState)
         (w : World) (st' : DocState) (w' : World),
    reaches E k c st0 w0 st w -> approved st = false ->
    run_graph E limit st w = Ok st' w' ->
    exists k' c', reaches E k' c' st0 w0 st' w'.
Proof.
  induction limit as [limit IH] using lt_wf_ind.
  intros st0 w0 k c st w st' w' Hreach Hap Hrun.
  destruct limit as [|[|limit]]; [discriminate| |].
  { rewrite run_graph_1 in Hrun. destruct (creator_node E st w); discriminate. }
  rewrite run_graph_SS in Hrun. unfold mbind, M_bind in Hrun.
  destruct (creator_node E st w) as [u w1 | e w1] eqn:Hc; [|discriminate].
  destruct (creator_step_iteration E st w w1 u Hap Hc)
    as [(Hroute & _) | (Hroute & _)]; rewrite Hroute in Hrun.
  - change (String.eqb "editor" "end") with false in Hrun.
    cbv beta iota in Hrun.
    destruct (editor_node E (merge st u) w1) as [u2 w2 | e w2] eqn:He;
      [|discriminate].
    assert (Hap1 : approved (merge st u) = false).
    { unfold route_after_creator in Hroute.
      by destruct (approved (merge st u)). }
    destruct (editor_step_iteration E _ _ _ _ He) as (_ & Hap2 & _).
    assert (Hnext : exists c1, reaches E (S k) c1 st0 w0 (merge st u) w1).
    { destruct (completes_turn u) eqn:Hdone.
      - exists (S c). by eapply reaches_creator.
      - exists c. by eapply reaches_noop. }
    destruct Hnext as [c1 Hnext].
    eapply (IH limit);
      [ lia
      | eapply reaches_editor; [exact Hnext | exact Hap1 | exact He]
      | congruence
      | exact Hrun ].
  - change (String.eqb "end" "end") with true in Hrun. cbv iota in Hrun.
    injection Hrun as <- <-. exists k, c. eapply reaches_finish; eauto.
Qed.

Lemma reaches_iteration (E : Env) (k c : nat)
  (st0 : DocState) (w0 : World) (st : DocState) (w : World) :
  reaches E k c st0 w0 st w ->
  iteration st = iteration st0 + Z.of_nat k
  /\ iteration st0 <= iteration st
  /\ (c <= k)%nat.
Proof.
  induction 1 as [st w
                 | k c st0 w0 st w u w' Hr (IH1 & IH2 & IH3) Hap Hc Hroute Hd
                 | k c st0 w0 st w u w' Hr (IH1 & IH2 & IH3) Hap Hc Hroute Hd
                 | k c st0 w0 st w u w' Hr (IH1 & IH2 & IH3) Hap Hc Hroute
                 | k c st0 w0 st w u w' Hr (IH1 & IH2 & IH3) Hap He].
  - lia.
  - destruct (creator_step_iteration E st w w' u Hap Hc)
      as [(_ & Hi) | (Hend & _)]; [lia | congruence].
  - destruct (creator_step_iteration E st w w' u Hap Hc)
      as [(_ & Hi) | (Hend & _)]; [lia | congruence].
  - destruct (creator_step_iteration E st w w' u Hap Hc)
      as [(Hed & _) | (_ & Hi & _)]; [congruence | lia].
  - destruct (editor_step_iteration E st w w' u He) as (Hi & _). lia.
Qed.

(** C9, as stated, fails: the loop counter also counts turns that
    complete nothing.  After the first draft and its review the human
    types a choice that is none of the five, which the specification has
    as a no-op; of the two [creator_node] executions only the first
    completed a Creator turn, the content is still the first draft, and
    the counter is two. *)
Lemma unrecognized_choice_is_counted :
  let E := example_env (Content "D1") (Content "fine") in
  exists st w,
    reaches E 2 1 initial_state
      (example_world ["a lighthouse keeper"; "/done"; "9"]) st w
    /\ content st = "D1"
    /\ iteration st = 2.
Proof.
  intros E. eexists _, _. split.
  - eapply reaches_noop.
    + eapply reaches_editor.
      * eapply reaches_creator.
        -- apply reaches_start.
        -- reflexivity.
        -- lazy. reflexivity.
        -- reflexivity.
        -- reflexivity.
      * reflexivity.
      * lazy. reflexivity.
    + reflexivity.
    + lazy. reflexivity.
    + reflexivity.
    + reflexivity.
  - split; reflexivity.
Qed.

(** C9, amended. Along every execution of the graph the loop counter
    equals its first value plus the number of [creator_node] executions
    after which the run went on, whatever the choice did: an execution
    that completes a Creator turn adds one, and so does one that completes
    nothing (a refused accept, an empty edit, blank instructions, a failed
    revision, the diff, an unrecognized choice).  The execution that ends
    the session and every [editor_node] execution add nothing.  So no
    transition decreases the counter, and it is at least the number of
    Creator turns completed. *)
Theorem iteration_counts_creator_executions (E : Env) (k c : nat)
  (st0 : DocState) (w0 : World) (st : DocState) (w : World) :
  reaches E k c st0 w0 st w ->
  iteration st = iteration st0 + Z.of_nat k
  /\ iteration st0 <= iteration st
  /\ (c <= k)%nat.
Proof. apply reaches_iteration. Qed.

Lemma iteration_counts_creator_executions_witness :
  exists st w,
    reaches (example_env (Content "Story") (Content "fine")) 2 1
      initial_state
      (example_world ["a lighthouse keeper"; "/done"; "4"]) st w
    /\ iteration st = iteration initial_state + Z.of_nat 2
    /\ iteration initial_state <= iteration st
    /\ (1 <= 2)%nat.
Proof.
  assert (H : exists st w,
             reaches (example_env (Content "Story") (Content "fine")) 2 1
               initial_state
               (example_world ["a lighthouse keeper"; "/done"; "4"]) st w).
  { eexists _, _. eapply reaches_noop.
    - eapply reaches_editor.
      + eapply reaches_creator.
        * apply reaches_start.
        * reflexivity.
        * lazy. reflexivity.
        * reflexivity.
        * reflexivity.
      + reflexivity.
      + lazy. reflexivity.
    - reflexivity.
    - lazy. reflexivity.
    - reflexivity.
    - reflexivity. }
  destruct H as (st & w & H). exists st, w. split; [exact H|].
  exact (iteration_counts_creator_executions _ _ _ _ _ _ _ H).
Defined.

(** When [main] gets a final state from the graph, its loop counter is
    the number of [creator_node] executions after which the run went
    on. *)
Lemma invoke_counts_creator_executions (E : Env) (w : World)
  (st' : DocState) (w' : World) :
  invoke E initial_state w = Ok st' w' ->
  exists k c,
    reaches E k c initial_state w st' w' /\ iteration st' = Z.of_nat k.
Proof.
  intros H. unfold invoke in H.
  destruct (run_graph_reaches E _ _ _ _ _ _ _ _ _
              (reaches_start E initial_state w) eq_refl H) as (k & c & Hk).
  exists k, c. split; [done|].
  by destruct (reaches_iteration _ _ _ _ _ _ _ Hk) as [-> _].
Qed.

(** *** The choices *)

Lemma last_3 (l : list string) (a b c : string) :
  last (l ++ [a; b; c]) = Some c.
Proof. change [a; b; c] with ([a; b] ++ [c]). by rewrite app_assoc, last_snoc. Qed.

(** Choice 2 with no text typed. *)
Lemma dispatch_edit_empty (E : Env) (st : DocState) (w : World) :
  text_read (stdin w) = EmptyString ->
  dispatch_choice E st "2" w
  = Ok (mkUpdate None None None None (Some (iteration st + 1)))
      (mkWorld (snd (read_lines [] (stdin w)))
         (stdout w ++ [nl; "Edit your draft. Type /done when finished:" +:+ nl;
                       "(No changes made.)" +:+ nl])
         (CREATOR_LLM w) (EDITOR_LLM w) (clock w) (files w)).
Proof.
  intros H. unfold dispatch_choice.
  change (String.eqb "2" "1") with false.
  change (String.eqb "2" "2") with true. cbv iota.
  rewrite (bind_Ok _ _ _ _ _ (read_multiline_eq _ w)).
  rewrite H. cbn [truthy].
  rewrite (bind_Ok _ _ _ _ _ (print_say _ _)).
  unfold say. simpl. by rewrite <- app_assoc.
Qed.

(** C10. In the terminal front end, when the menu is shown, the human
    chooses 2 and the text typed up to [/done] is empty, [creator_node]
    returns: it has printed ["(No changes made.)"], the content and every
    other field but the loop counter are as before, and the graph goes on
    to the editor node. *)
Theorem manual_edit_without_text (E : Env) (st : DocState) (w : World)
  (line : string) (rest : list string) :
  creator_ready E w -> menu_turn st = true -> approved st = false ->
  stdin w = line :: rest -> strip line = "2" ->
  text_read rest = EmptyString ->
  exists u w',
    creator_node E st w = Ok u w'
    /\ content (merge st u) = content st
    /\ merge st u = next_iteration st
    /\ last (stdout w') = Some ("(No changes made.)" +:+ nl)
    /\ route_after_creator (merge st u) = "editor".
Proof.
  intros Hready Hmenu Hap Hin Hline Htext.
  destruct (creator_node_menu E st w line rest Hready Hmenu Hin) as [out ->].
  rewrite Hline, dispatch_edit_empty by exact Htext.
  eexists _, _. split; [reflexivity|]. cbn [stdout].
  repeat split.
  - apply last_3.
  - unfold route_after_creator. simpl. by rewrite Hap.
Qed.

Lemma manual_edit_without_text_witness :
  let E := example_env (Content "Story") (Content "fine") in
  let st := mkDocState "Draft" "Rewrite" "- tighten" false 1 in
  let w := example_world ["2"; "/done"] in
  exists u w',
    creator_node E st w = Ok u w'
    /\ content (merge st u) = "Draft"
    /\ merge st u = next_iteration st
    /\ last (stdout w') = Some ("(No changes made.)" +:+ nl)
    /\ route_after_creator (merge st u) = "editor".
Proof.
  intros E st w.
  apply (manual_edit_without_text E st w "2" ["/done"]).
  - right. reflexivity.
  - reflexivity.
  - reflexivity.
  - reflexivity.
  - vm_compute. reflexivity.
  - vm_compute. reflexivity.
Defined.

Lemma last_2 (l : list string) (a b : string) : last (l ++ [a; b]) = Some b.
Proof. change [a; b] with ([a] ++ [b]). by rewrite app_assoc, last_snoc. Qed.

Lemma llm_invoke_fails (oracle : nat -> string -> reply) (p msg : string)
  (w : World) :
  oracle (clock w) p = Fails msg ->
  llm_invoke oracle p w
  = Raise (Exception msg)
      (mkWorld (stdin w) (stdout w) (CREATOR_LLM w) (EDITOR_LLM w)
         (S (clock w)) (files w)).
Proof. intros H. unfold llm_invoke. by rewrite H. Qed.

(** Choice 1 without a rewrite. *)
Lemma dispatch_accept_empty (E : Env) (st : DocState) (w : World) :
  truthy (edited_version st) = false ->
  dispatch_choice E st "1" w
  = Ok (mkUpdate None None None None (Some (iteration st + 1)))
      (say ["No rewritten version available to accept." +:+ nl] w).
Proof.
  intros H. unfold dispatch_choice.
  change (String.eqb "1" "1") with true. cbv iota. by rewrite H.
Qed.

(** Choice 3 when the model call fails. *)
Lemma dispatch_revise_fails (E : Env) (st : DocState) (w : World)
  (msg : string) :
  truthy (strip (text_read (stdin w))) = true ->
  (forall p, creator_invoke E (clock w) p = Fails msg) ->
  exists out,
    dispatch_choice E st "3" w
    = Ok (mkUpdate None None None None (Some (iteration st + 1)))
        (mkWorld (snd (read_lines [] (stdin w)))
           (stdout w ++ out ++ ["Error during AI revision: " +:+ msg +:+ nl])
           (CREATOR_LLM w) (EDITOR_LLM w) (S (clock w)) (files w)).
Proof.
  intros Hinstr Hfail. unfold dispatch_choice.
  change (String.eqb "3" "1") with false.
  change (String.eqb "3" "2") with false.
  change (String.eqb "3" "3") with true. cbv iota.
  rewrite (bind_Ok _ _ _ _ _ (read_multiline_eq _ w)).
  rewrite Hinstr. cbn [negb].
  erewrite try_except_Raise;
    [ | erewrite bind_Raise;
          [reflexivity | apply llm_invoke_fails; simpl; apply Hfail]
      | reflexivity ].
  rewrite (bind_Ok _ _ _ _ _ (print_say _ _)).
  eexists [_; _]. unfold say. simpl. by rewrite <- app_assoc.
Qed.

(** Choice 4. *)
Lemma dispatch_show_diff (E : Env) (st : DocState) (w : World) :
  exists out,
    dispatch_choice E st "4" w
    = Ok (mkUpdate None None None None (Some (iteration st + 1))) (say out w).
Proof.
  unfold dispatch_choice.
  change (String.eqb "4" "1") with false.
  change (String.eqb "4" "2") with false.
  change (String.eqb "4" "3") with false.
  change (String.eqb "4" "4") with true. cbv iota.
  assert (Hp : only_prints
                 (if truthy (edited_version st)
                  then show_diff E (content st) (edited_version st)
                  else print "No editor version to diff against.")).
  { apply only_prints_if;
      [apply only_prints_show_diff | apply only_prints_print]. }
  destruct Hp as [out Hout]. exists out.
  by rewrite (bind_Ok _ _ _ _ _ (Hout w)).
Qed.

(** The editor node when the model call fails. *)
Lemma editor_node_fails (E : Env) (st : DocState) (w : World) (msg : string) :
  editor_ready E w -> truthy (strip (content st)) = true ->
  (forall p, editor_invoke E (clock w) p = Fails msg) ->
  exists out,
    editor_node E st w
    = Ok (mkUpdate None (Some EmptyString)
            (Some "(Editor call failed. You can continue editing manually.)")
            None None)
        (mkWorld (stdin w)
           (stdout w ++ out ++ ["Error during editing call: " +:+ msg +:+ nl])
           (CREATOR_LLM w) true (S (clock w)) (files w)).
Proof.
  intros Hready Hc Hfail. unfold editor_node.
  rewrite (bind_Ok _ _ _ _ _ (ensure_editor_ok E w Hready)).
  rewrite Hc. cbn [negb].
  destruct (only_prints_divider
              (Some ("EDITOR REVIEW — Iteration "
                     +:+ str_of_int (iteration st)))) as [out Hout].
  rewrite (bind_Ok _ _ _ _ _ (Hout _)).
  erewrite try_except_Raise;
    [ | erewrite bind_Raise;
          [reflexivity | apply llm_invoke_fails; simpl; apply Hfail]
      | reflexivity ].
  rewrite (bind_Ok _ _ _ _ _ (print_say _ _)).
  exists out. unfold say. simpl. by rewrite <- app_assoc.
Qed.

(** The first turn when the model call fails. *)
Lemma welcome_turn_fails (E : Env) (it : Z) (w : World) (msg : string) :
  truthy (text_read (stdin w)) = true ->
  (forall p, creator_invoke E (clock w) p = Fails msg) ->
  exists out,
    welcome_turn E it w
    = Ok (mkUpdate None None None (Some true) None)
        (mkWorld (snd (read_lines [] (stdin w)))
           (stdout w ++ out
            ++ ["Error during initial story generation: " +:+ msg +:+ nl])
           (CREATOR_LLM w) (EDITOR_LLM w) (S (clock w)) (files w)).
Proof.
  intros Htext Hfail. unfold welcome_turn.
  destruct (only_prints_divider (Some "WELCOME — Content Creator"))
    as [out Hout].
  rewrite (bind_Ok _ _ _ _ _ (Hout _)).
  rewrite (bind_Ok _ _ _ _ _ (read_multiline_eq _ _)).
  cbn [stdin say]. rewrite Htext. cbn [negb].
  erewrite try_except_Raise;
    [ | erewrite bind_Raise;
          [reflexivity | apply llm_invoke_fails; simpl; apply Hfail]
      | reflexivity ].
  rewrite (bind_Ok _ _ _ _ _ (print_say _ _)).
  eexists (out ++ [_; _]). unfold say. simpl. by rewrite <- !app_assoc.
Qed.

(** *** Saving *)

Lemma endswith_app (x p : string) : endswith (x +:+ p) p = true.
Proof.
  unfold endswith. rewrite length_app_str.
  replace (String.length x + String.length p - String.length p)%nat
    with (String.length x) by lia.
  rewrite drop_app_length, String.eqb_refl.
  apply andb_true_intro. split; [|done]. apply Nat.leb_le. lia.
Qed.

(** The default name carries the suffix already. *)
Lemma draft_name_md (t : struct_time) :
  endswith (lower (strftime_draft t)) ".md" = true.
Proof.
  unfold strftime_draft. rewrite !lower_app, <- !app_assoc_str.
  change (lower ".md") with ".md". apply endswith_app.
Qed.

Lemma truthy_nonempty (x : string) : x <> EmptyString -> truthy x = true.
Proof. by destruct x. Qed.

(** The name [main] computes is the one [chosen_name] describes. *)
Lemma chosen_name_computed (E : Env) (line fname : string) :
  chosen_name E line fname ->
  (let f := if truthy (strip line) then strip line
            else strftime_draft (localtime E) in
   if negb (endswith (lower f) ".md") then f +:+ ".md" else f) = fname.
Proof.
  intros [Hblank | Hgiven Hmd | Hgiven Hmd]; cbv zeta.
  - rewrite Hblank. cbn [truthy]. by rewrite draft_name_md.
  - rewrite (truthy_nonempty _ Hgiven). by rewrite Hmd.
  - rewrite (truthy_nonempty _ Hgiven). by rewrite Hmd.
Qed.

Lemma save_written (E : Env) (st : DocState) (w : World)
  (line : string) (rest : list string) (fname : string) :
  truthy (strip (content st)) = true ->
  stdin w = line :: rest -> chosen_name E line fname ->
  open_error E fname = None ->
  exists out,
    save_to_markdown E st w
    = Ok tt (mkWorld rest
               (stdout w ++ out ++ ["Saved ✅  " +:+ abspath E fname +:+ nl])
               (CREATOR_LLM w) (EDITOR_LLM w) (clock w)
               (<[fname := strip (content st) +:+ nl]> (files w))).
Proof.
  intros Hc Hin Hname Hopen. unfold save_to_markdown. cbv zeta.
  rewrite Hc. cbn [negb].
  destruct (only_prints_divider (Some "SAVE TO MARKDOWN")) as [out Hout].
  rewrite (bind_Ok _ _ _ _ _ (Hout w)).
  erewrite bind_Ok; [|apply input_eq; simpl; exact Hin].
  pose proof (chosen_name_computed E line fname Hname) as Hf.
  cbv zeta in Hf. rewrite Hf.
  erewrite try_except_Ok.
  2:{ erewrite bind_Ok; [|unfold write_file; rewrite Hopen; reflexivity].
      apply print_say. }
  eexists (out ++ [_]). unfold say. simpl. by rewrite <- !app_assoc.
Qed.

Lemma save_skipped (E : Env) (st : DocState) (w : World) :
  truthy (strip (content st)) = false ->
  save_to_markdown E st w
  = Ok tt (say [(nl +:+ "Nothing to save. Exiting.") +:+ nl] w).
Proof. intros Hc. unfold save_to_markdown. cbv zeta. by rewrite Hc. Qed.

End TerminalFacts.

(** ** The chat front end *)

Section ChainlitFacts.
Import Py Eff Spec Chainlit.

Lemma shows_shows (a b : list ui_event) (w : World) :
  shows b (shows a w) = shows (a ++ b) w.
Proof. unfold shows. simpl. by rewrite app_assoc. Qed.

Lemma send_shows (c : string) (w : World) :
  send c w = Ok tt (shows [Message c []] w).
Proof. reflexivity. Qed.

Lemma emit_shows (ev : ui_event) (w : World) :
  emit ev w = Ok tt (shows [ev] w).
Proof. reflexivity. Qed.

Lemma session_get_eq (key : string) (w : World) :
  session_get key w = Ok (default EmptyString (session w !! key)) w.
Proof. reflexivity. Qed.

(** [display_editor_results] only sends messages; when there is a rewrite
    the last one carries the buttons. *)
Lemma display_editor_results_shows (w : World) :
  exists evs,
    display_editor_results w = Ok tt (shows evs w)
    /\ (truthy (session_rewrite w) = true -> last evs = Some menu_message).
Proof.
  unfold display_editor_results.
  rewrite (bind_Ok _ _ _ _ _ (session_get_eq _ w)).
  rewrite (bind_Ok _ _ _ _ _ (session_get_eq _ w)).
  fold (session_rewrite w).
  destruct (truthy (session_rewrite w)) eqn:Hev.
  - rewrite andb_false_r.
    rewrite (bind_Ok _ _ _ _ _ (send_shows _ _)).
    rewrite (bind_Ok _ _ _ _ _ (send_shows _ _)).
    rewrite emit_shows, !shows_shows.
    eexists. split; [reflexivity|]. intros _. reflexivity.
  - rewrite andb_true_r.
    destruct (truthy (default EmptyString (session w !! "suggestions"))).
    + cbn [negb].
      rewrite (bind_Ok _ _ _ _ _ (send_shows _ _)).
      rewrite (bind_Ok _ _ _ _ _ (ret_Ok tt _)).
      rewrite emit_shows, !shows_shows.
      eexists. split; [reflexivity|]. done.
    + cbn [negb]. rewrite send_shows. eexists. split; [reflexivity|]. done.
Qed.

(** The Show-diff button. *)
Lemma on_diff_shows (E : Env) (w : World) :
  exists evs,
    on_diff E w = Ok tt (shows evs w)
    /\ (truthy (session_rewrite w) = true ->
        head evs
        = Some (Message
                  ("**Diff:**" +:+ nl +:+ "```diff" +:+ nl
                   +:+ show_diff E (session_content w) (session_rewrite w)
                   +:+ nl +:+ "```") [])
        /\ last evs = Some menu_message)
    /\ (truthy (session_rewrite w) = false ->
        evs = [Message "No editor version to diff against." []]).
Proof.
  unfold on_diff.
  rewrite (bind_Ok _ _ _ _ _ (session_get_eq _ w)).
  rewrite (bind_Ok _ _ _ _ _ (session_get_eq _ w)).
  fold (session_rewrite w) (session_content w).
  destruct (truthy (session_rewrite w)) eqn:Hev; cbn [negb].
  - rewrite (bind_Ok _ _ _ _ _ (send_shows _ _)).
    destruct (display_editor_results_shows
                (shows [Message
                          ("**Diff:**" +:+ nl +:+ "```diff" +:+ nl
                           +:+ show_diff E (session_content w)
                                 (session_rewrite w)
                           +:+ nl +:+ "```") []] w))
      as (evs & -> & Hlast).
    rewrite shows_shows. eexists. split; [reflexivity|].
    split; [|done]. intros _. split; [reflexivity|].
    specialize (Hlast Hev). destruct evs as [|ev evs]; [discriminate|].
    exact Hlast.
  - rewrite send_shows. eexists. split; [reflexivity|]. split; [done|].
    done.
Qed.

(** The Accept button without a rewrite. *)
Lemma on_accept_empty (E : Env) (w : World) :
  truthy (session_rewrite w) = false ->
  on_accept E w
  = Ok tt (shows [Message "No rewritten version available to accept." []] w).
Proof.
  intros H. unfold on_accept, session_get_opt, mbind, M_bind.
  unfold session_rewrite in H.
  destruct (session w !! "edited_version") as [ev|]; [|done].
  simpl in H. by rewrite H.
Qed.

(** The Finish button. *)
Lemma on_finish_saves (E : Env) (w : World) :
  truthy (session_content w) = true ->
  open_error E (strftime_draft (localtime E)) = None ->
  exists evs,
    on_finish E w
    = Ok tt (mkWorld (session w) (sent w ++ evs) (clock w)
               (<[strftime_draft (localtime E) := session_content w +:+ nl]>
                  (files w))).
Proof.
  intros Hc Hopen. unfold on_finish.
  rewrite (bind_Ok _ _ _ _ _ (session_get_eq _ w)).
  fold (session_content w). rewrite Hc. cbn [negb].
  rewrite (bind_Ok _ _ _ _ _ (send_shows _ _)).
  erewrite try_except_Ok.
  2:{ erewrite bind_Ok; [|unfold write_file; rewrite Hopen; reflexivity].
      apply send_shows. }
  eexists [_; _]. unfold shows. simpl. by rewrite <- app_assoc.
Qed.

Lemma on_finish_skips (E : Env) (w : World) :
  truthy (session_content w) = false ->
  on_finish E w = Ok tt (shows [Message "Nothing to save!" []] w).
Proof.
  intros Hc. unfold on_finish.
  rewrite (bind_Ok _ _ _ _ _ (session_get_eq _ w)).
  fold (session_content w). by rewrite Hc.
Qed.

End ChainlitFacts.

(** ** The turn controller and the save step *)

Section ControllerClaims.
Import Py Eff Spec Terminal.

(** *** Failures of a role call *)

(** C3, as stated, fails: after a failed review the suggestions and the
    rewrite are not the old ones, and after a failed revision the loop
    counter has advanced. *)
Lemma role_failure_changes_state :
  let E := example_env (Fails "quota") (Fails "quota") in
  let st := mkDocState "Draft" "Rewrite" "- tighten" false 1 in
  (exists u w',
      editor_node E st (example_world []) = Ok u w'
      /\ suggestions (merge st u)
         = "(Editor call failed. You can continue editing manually.)"
      /\ edited_version (merge st u) = EmptyString
      /\ merge st u <> st)
  /\ (exists u w',
         creator_node E st (example_world ["3"; "shorter"; "/done"]) = Ok u w'
         /\ iteration (merge st u) = 2
         /\ merge st u <> st).
Proof.
  intros E st. split.
  - eexists _, _. split; [lazy; reflexivity|].
    split; [reflexivity|]. split; [reflexivity|]. discriminate.
  - eexists _, _. split; [lazy; reflexivity|].
    split; [reflexivity|]. discriminate.
Qed.

(** C3, amended. A failed role call is caught and reported, and the node
    returns.  After a failed revision the state is the old one with the
    loop counter advanced by one.  After a failed review the suggestions
    are the fixed notice and the rewrite is empty, the other fields are
    the old ones.  After a failed first generation the session is approved
    with the content still empty, and the graph ends. *)
Theorem role_call_failures :
  (forall E st w line rest msg,
      creator_ready E w -> menu_turn st = true ->
      stdin w = line :: rest -> strip line = "3" ->
      truthy (strip (text_read rest)) = true ->
      (forall p, creator_invoke E (clock w) p = Fails msg) ->
      exists u w',
        creator_node E st w = Ok u w'
        /\ merge st u = next_iteration st
        /\ last (stdout w')
           = Some ("Error during AI revision: " +:+ msg +:+ nl))
  /\ (forall E st w msg,
         editor_ready E w -> truthy (strip (content st)) = true ->
         (forall p, editor_invoke E (clock w) p = Fails msg) ->
         exists u w',
           editor_node E st w = Ok u w'
           /\ merge st u
              = mkDocState (content st) EmptyString
                  "(Editor call failed. You can continue editing manually.)"
                  (approved st) (iteration st)
           /\ last (stdout w')
              = Some ("Error during editing call: " +:+ msg +:+ nl))
  /\ (forall E st w msg,
         creator_ready E w -> menu_turn st = false ->
         truthy (text_read (stdin w)) = true ->
         (forall p, creator_invoke E (clock w) p = Fails msg) ->
         exists u w',
           creator_node E st w = Ok u w'
           /\ merge st u
              = mkDocState EmptyString (edited_version st) (suggestions st)
                  true (iteration st)
           /\ route_after_creator (merge st u) = "end"
           /\ last (stdout w')
              = Some ("Error during initial story generation: " +:+ msg
                      +:+ nl)).
Proof.
  split; [|split].
  - intros E st w line rest msg Hready Hmenu Hin Hline Hinstr Hfail.
    destruct (creator_node_menu E st w line rest Hready Hmenu Hin) as [o ->].
    rewrite Hline.
    destruct (dispatch_revise_fails E st
                (mkWorld rest (stdout w ++ o) true (EDITOR_LLM w) (clock w)
                   (files w)) msg Hinstr Hfail) as [out ->].
    eexists _, _. split; [reflexivity|]. split; [reflexivity|].
    cbn [stdout]. by rewrite !app_assoc, last_snoc.
  - intros E st w msg Hready Hc Hfail.
    destruct (editor_node_fails E st w msg Hready Hc Hfail) as [out ->].
    eexists _, _. split; [reflexivity|]. split; [reflexivity|].
    cbn [stdout]. by rewrite !app_assoc, last_snoc.
  - intros E st w msg Hready Hmenu Htext Hfail. unfold creator_node.
    rewrite (bind_Ok _ _ _ _ _ (ensure_creator_ok E w Hready)).
    unfold menu_turn in Hmenu. apply negb_false_iff in Hmenu. rewrite Hmenu.
    destruct (welcome_turn_fails E (iteration st)
                (mkWorld (stdin w) (stdout w) true (EDITOR_LLM w) (clock w)
                   (files w)) msg Htext Hfail) as [out ->].
    apply andb_prop in Hmenu as [_ Hcontent].
    apply negb_true_iff in Hcontent.
    eexists _, _. split; [reflexivity|].
    unfold merge. simpl.
    destruct (content st); [|discriminate].
    split; [reflexivity|]. split; [reflexivity|].
    by rewrite !app_assoc, last_snoc.
Qed.

Lemma role_call_failures_witness :
  let E := example_env (Fails "quota") (Fails "quota") in
  let st := mkDocState "Draft" "Rewrite" "- tighten" false 1 in
  (exists u w',
      creator_node E st (example_world ["3"; "shorter"; "/done"]) = Ok u w'
      /\ merge st u = mkDocState "Draft" "Rewrite" "- tighten" false 2
      /\ last (stdout w')
         = Some ("Error during AI revision: " +:+ "quota" +:+ nl))
  /\ (exists u w',
         editor_node E st (example_world []) = Ok u w'
         /\ merge st u
            = mkDocState "Draft" EmptyString
                "(Editor call failed. You can continue editing manually.)"
                false 1
         /\ last (stdout w')
            = Some ("Error during editing call: " +:+ "quota" +:+ nl))
  /\ (exists u w',
         creator_node E initial_state
           (example_world ["a lighthouse keeper"; "/done"]) = Ok u w'
         /\ merge initial_state u
            = mkDocState EmptyString EmptyString EmptyString true 0
         /\ route_after_creator (merge initial_state u) = "end"
         /\ last (stdout w')
            = Some ("Error during initial story generation: " +:+ "quota"
                    +:+ nl)).
Proof.
  intros E st. destruct role_call_failures as (H1 & H2 & H3).
  split; [|split].
  - apply (H1 E st (example_world ["3"; "shorter"; "/done"]) "3"
             ["shorter"; "/done"] "quota").
    + right. reflexivity.
    + reflexivity.
    + reflexivity.
    + vm_compute. reflexivity.
    + vm_compute. reflexivity.
    + intros p. reflexivity.
  - apply (H2 E st (example_world []) "quota").
    + right. reflexivity.
    + vm_compute. reflexivity.
    + intros p. reflexivity.
  - apply (H3 E initial_state
             (example_world ["a lighthouse keeper"; "/done"]) "quota").
    + right. reflexivity.
    + reflexivity.
    + vm_compute. reflexivity.
    + intros p. reflexivity.
Defined.

(** *** Show diff *)

(** C4, as stated, fails: in the terminal front end the loop counter is
    not the same after the diff has been shown. *)
Lemma show_diff_advances_iteration :
  let E := example_env (Content "Story") (Content "fine") in
  let st := mkDocState "Draft" "Rewrite" "- tighten" false 1 in
  exists u w',
    creator_node E st (example_world ["4"]) = Ok u w'
    /\ iteration (merge st u) = 2
    /\ merge st u <> st.
Proof.
  intros E st. eexists _, _. split; [lazy; reflexivity|].
  split; [reflexivity|]. discriminate.
Qed.

(** C4, amended. Showing the diff changes neither the content nor the
    suggestions, the rewrite or the approval.  In the terminal front end
    [creator_node] returns the old state with the loop counter advanced by
    one.  In the chat front end [on_diff] changes nothing but the chat:
    when there is a rewrite it sends the diff of the content and the
    rewrite first and the message with the five buttons last. *)
Theorem show_diff_frame :
  (forall E st w line rest,
      creator_ready E w -> menu_turn st = true ->
      stdin w = line :: rest -> strip line = "4" ->
      exists u w',
        creator_node E st w = Ok u w' /\ merge st u = next_iteration st)
  /\ (forall E w,
         exists evs,
           Chainlit.on_diff E w = Ok tt (shows evs w)
           /\ (truthy (session_rewrite w) = true ->
               head evs
               = Some (Chainlit.Message
                         ("**Diff:**" +:+ nl +:+ "```diff" +:+ nl
                          +:+ Chainlit.show_diff E (session_content w)
                                (session_rewrite w)
                          +:+ nl +:+ "```") [])
               /\ last evs = Some menu_message)).
Proof.
  split.
  - intros E st w line rest Hready Hmenu Hin Hline.
    destruct (creator_node_menu E st w line rest Hready Hmenu Hin) as [o ->].
    rewrite Hline.
    destruct (dispatch_show_diff E st
                (mkWorld rest (stdout w ++ o) true (EDITOR_LLM w) (clock w)
                   (files w))) as [out ->].
    eexists _, _. split; reflexivity.
  - intros E w. destruct (on_diff_shows E w) as (evs & H & Hyes & _).
    exists evs. by split.
Qed.

Lemma show_diff_frame_witness :
  let E := example_env (Content "Story") (Content "fine") in
  let st := mkDocState "Draft" "Rewrite" "- tighten" false 1 in
  (exists u w',
      creator_node E st (example_world ["4"]) = Ok u w'
      /\ merge st u = mkDocState "Draft" "Rewrite" "- tighten" false 2)
  /\ (exists evs,
         Chainlit.on_diff (example_chat_env (Content "fine"))
           (example_chat_world "Draft" "Rewrite")
         = Ok tt (shows evs (example_chat_world "Draft" "Rewrite"))
         /\ last evs = Some menu_message).
Proof.
  intros E st. destruct show_diff_frame as (H1 & H2). split.
  - apply (H1 E st (example_world ["4"]) "4" []).
    + right. reflexivity.
    + reflexivity.
    + reflexivity.
    + vm_compute. reflexivity.
  - destruct (H2 (example_chat_env (Content "fine"))
                (example_chat_world "Draft" "Rewrite")) as (evs & H & Hl).
    exists evs. split; [exact H|]. apply Hl. vm_compute. reflexivity.
Defined.

(** *** Accept without a rewrite *)

(** C5, as stated, fails: in the terminal front end the graph goes to the
    editor node after the refused choice, the model is called and the
    suggestions and the rewrite are replaced before the menu is shown
    again. *)
Lemma empty_accept_reaches_editor :
  let E :=
    example_env (Content "Story")
      (Content ("### SUGGESTIONS" +:+ nl +:+ "new" +:+ nl
                +:+ "### REWRITTEN" +:+ nl +:+ "R2")) in
  let st := mkDocState "Draft" EmptyString "old" false 1 in
  (exists u w',
      creator_node E st (example_world ["1"]) = Ok u w'
      /\ route_after_creator (merge st u) = "editor")
  /\ (exists w',
         run_graph E 4 st (example_world ["1"; "5"])
         = Ok (mkDocState "Draft" "R2" "new" true 2) w'
         /\ clock w' = 1%nat).
Proof.
  intros E st. split.
  - eexists _, _. split; [lazy; reflexivity|]. reflexivity.
  - eexists. split; [lazy; reflexivity|]. reflexivity.
Qed.

(** C5, amended. Accepting when there is no rewrite raises nothing and is
    reported, and the content stays.  In the terminal front end
    [creator_node] returns the old state with the loop counter advanced by
    one.  In the chat front end [on_accept] sends the report and does
    nothing else: no review is started. *)
Theorem accept_without_rewrite :
  (forall E st w line rest,
      creator_ready E w -> menu_turn st = true ->
      stdin w = line :: rest -> strip line = "1" ->
      truthy (edited_version st) = false ->
      exists u w',
        creator_node E st w = Ok u w'
        /\ content (merge st u) = content st
        /\ merge st u = next_iteration st
        /\ last (stdout w')
           = Some ("No rewritten version available to accept." +:+ nl))
  /\ (forall E w,
         truthy (session_rewrite w) = false ->
         Chainlit.on_accept E w
         = Ok tt
             (shows
                [Chainlit.Message "No rewritten version available to accept."
                   []] w)).
Proof.
  split.
  - intros E st w line rest Hready Hmenu Hin Hline Hev.
    destruct (creator_node_menu E st w line rest Hready Hmenu Hin) as [o ->].
    rewrite Hline, dispatch_accept_empty by exact Hev.
    eexists _, _. split; [reflexivity|]. split; [reflexivity|].
    split; [reflexivity|]. cbn [say stdout]. apply last_snoc.
  - intros E w H. by apply on_accept_empty.
Qed.

Lemma accept_without_rewrite_witness :
  let E := example_env (Content "Story") (Content "fine") in
  let st := mkDocState "Draft" EmptyString "old" false 1 in
  (exists u w',
      creator_node E st (example_world ["1"]) = Ok u w'
      /\ content (merge st u) = "Draft"
      /\ merge st u = mkDocState "Draft" EmptyString "old" false 2
      /\ last (stdout w')
         = Some ("No rewritten version available to accept." +:+ nl))
  /\ Chainlit.on_accept (example_chat_env (Content "fine"))
       (example_chat_world "Draft" EmptyString)
     = Ok tt
         (shows
            [Chainlit.Message "No rewritten version available to accept." []]
            (example_chat_world "Draft" EmptyString)).
Proof.
  intros E st. destruct accept_without_rewrite as (H1 & H2). split.
  - apply (H1 E st (example_world ["1"]) "1" []).
    + right. reflexivity.
    + reflexivity.
    + reflexivity.
    + vm_compute. reflexivity.
    + reflexivity.
  - apply H2. vm_compute. reflexivity.
Defined.

(** *** Saving *)

(** C6, as stated, fails: the terminal front end writes the stripped
    content, so a content that ends in a line feed is not written as it
    is. *)
Lemma saved_text_is_stripped :
  let E := example_env (Content "Story") (Content "fine") in
  let st := mkDocState ("Story" +:+ nl) EmptyString EmptyString true 1 in
  exists w',
    save_to_markdown E st (example_world [EmptyString]) = Ok tt w'
    /\ files w' !! "draft_2025-03-09_0705.md" = Some ("Story" +:+ nl)
    /\ "Story" +:+ nl <> content st +:+ nl.
Proof.
  intros E st. eexists. split; [lazy; reflexivity|].
  split; [vm_compute; reflexivity|]. vm_compute. discriminate.
Qed.

(** C6, amended. The terminal front end saves the stripped content and
    one line feed when the stripped content is not empty, under the name
    [chosen_name] describes: the default [draft_<date>_<time>.md] for a
    blank answer, the name typed when it ends in [.md] in whatever case,
    and that name with [.md] appended otherwise; when the stripped content
    is empty it writes no file and asks for no name.  The chat front end
    saves the content as it is and one line feed under the default name
    when the content is not empty, and writes no file otherwise. *)
Theorem save_step :
  (forall E st w line rest fname,
      truthy (strip (content st)) = true ->
      stdin w = line :: rest -> chosen_name E line fname ->
      open_error E fname = None ->
      exists w',
        save_to_markdown E st w = Ok tt w'
        /\ files w' = <[fname := strip (content st) +:+ nl]> (files w))
  /\ (forall E st w,
         truthy (strip (content st)) = false ->
         exists w',
           save_to_markdown E st w = Ok tt w'
           /\ files w' = files w /\ stdin w' = stdin w)
  /\ (forall E w,
         truthy (session_content w) = true ->
         Chainlit.open_error E (strftime_draft (Chainlit.localtime E)) = None ->
         exists w',
           Chainlit.on_finish E w = Ok tt w'
           /\ Chainlit.files w'
              = <[strftime_draft (Chainlit.localtime E)
                  := session_content w +:+ nl]> (Chainlit.files w))
  /\ (forall E w,
         truthy (session_content w) = false ->
         exists w',
           Chainlit.on_finish E w = Ok tt w'
           /\ Chainlit.files w' = Chainlit.files w).
Proof.
  split; [|split; [|split]].
  - intros E st w line rest fname Hc Hin Hname Hopen.
    destruct (save_written E st w line rest fname Hc Hin Hname Hopen)
      as [out ->].
    eexists. split; reflexivity.
  - intros E st w Hc. rewrite save_skipped by exact Hc.
    eexists. repeat split; reflexivity.
  - intros E w Hc Hopen.
    destruct (on_finish_saves E w Hc Hopen) as [evs ->].
    eexists. split; reflexivity.
  - intros E w Hc. rewrite on_finish_skips by exact Hc.
    eexists. split; reflexivity.
Qed.

Lemma save_step_witness :
  let E := example_env (Content "Story") (Content "fine") in
  let st := mkDocState ("Final text" +:+ nl) EmptyString EmptyString true 1 in
  (exists w',
      save_to_markdown E st (example_world ["story"]) = Ok tt w'
      /\ files w' = <["story.md" := "Final text" +:+ nl]> ∅)
  /\ (exists w',
         save_to_markdown E (mkDocState " " EmptyString EmptyString true 1)
           (example_world ["story"]) = Ok tt w'
         /\ files w' = ∅ /\ stdin w' = ["story"])
  /\ (exists w',
         Chainlit.on_finish (example_chat_env (Content "fine"))
           (example_chat_world "Final text" EmptyString) = Ok tt w'
         /\ Chainlit.files w'
            = <["draft_2025-03-09_0705.md" := "Final text" +:+ nl]> ∅)
  /\ (exists w',
         Chainlit.on_finish (example_chat_env (Content "fine"))
           (example_chat_world EmptyString EmptyString) = Ok tt w'
         /\ Chainlit.files w' = ∅).
Proof.
  intros E st. destruct save_step as (H1 & H2 & H3 & H4).
  split; [|split; [|split]].
  - apply (H1 E st (example_world ["story"]) "story" [] "story.md").
    + vm_compute. reflexivity.
    + reflexivity.
    + apply (name_completed E "story"); [discriminate | reflexivity].
    + reflexivity.
  - apply (H2 E (mkDocState " " EmptyString EmptyString true 1)
             (example_world ["story"])).
    vm_compute. reflexivity.
  - apply (H3 (example_chat_env (Content "fine"))
             (example_chat_world "Final text" EmptyString)).
    + vm_compute. reflexivity.
    + reflexivity.
  - apply (H4 (example_chat_env (Content "fine"))
             (example_chat_world EmptyString EmptyString)).
    vm_compute. reflexivity.
Defined.

End ControllerClaims.

(** * Further properties *)

(** ** Reading a text from the terminal *)

Section ReadingFacts.
Import Py Eff Spec Laws Terminal.

Lemma read_lines_until_done (acc ls : list string) (d : string)
  (rest : list string) :
  no_done ls -> strip d = "/done" ->
  read_lines acc (ls ++ d :: rest) = (acc ++ ls, rest).
Proof.
  intros Hls Hd. revert acc.
  induction Hls as [|l ls Hl _ IH]; intros acc; simpl.
  - rewrite Hd. simpl. by rewrite app_nil_r.
  - apply String.eqb_neq in Hl. rewrite Hl, IH. by rewrite <- app_assoc.
Qed.

Lemma read_lines_to_eof (acc ls : list string) :
  no_done ls -> read_lines acc ls = (acc ++ ls, []).
Proof.
  intros Hls. revert acc.
  induction Hls as [|l ls Hl _ IH]; intros acc; simpl.
  - by rewrite app_nil_r.
  - apply String.eqb_neq in Hl. rewrite Hl, IH. by rewrite <- app_assoc.
Qed.

(** X1. [read_multiline] returns the lines typed before the first line
    that strips to [/done], joined by line feeds and stripped; that line is
    consumed and the lines after it are left for the next read. *)
Theorem read_multiline_until_done (prompt : string) (w : World)
  (ls : list string) (d : string) (rest : list string) :
  stdin w = ls ++ d :: rest -> no_done ls -> strip d = "/done" ->
  read_multiline prompt w
  = Ok (strip (join nl ls))
      (mkWorld rest (stdout w ++ [nl; prompt +:+ nl]) (CREATOR_LLM w)
         (EDITOR_LLM w) (clock w) (files w)).
Proof.
  intros Hin Hls Hd. rewrite read_multiline_eq. unfold text_read.
  by rewrite Hin, read_lines_until_done.
Qed.

Lemma read_multiline_until_done_witness :
  read_multiline "Edit:" (example_world ["  one "; "two"; " /done "; "1"])
  = Ok ("one " +:+ nl +:+ "two")
      (mkWorld ["1"] [nl; "Edit:" +:+ nl] false false 0 ∅).
Proof.
  apply (read_multiline_until_done "Edit:"
           (example_world ["  one "; "two"; " /done "; "1"])
           ["  one "; "two"] " /done " ["1"]).
  - reflexivity.
  - repeat constructor; vm_compute; discriminate.
  - vm_compute. reflexivity.
Defined.

(** X2. At the end of the input [read_multiline] does not raise: the text
    is what was typed so far, and nothing is left to read. *)
Theorem read_multiline_at_eof (prompt : string) (w : World) :
  no_done (stdin w) ->
  read_multiline prompt w
  = Ok (strip (join nl (stdin w)))
      (mkWorld [] (stdout w ++ [nl; prompt +:+ nl]) (CREATOR_LLM w)
         (EDITOR_LLM w) (clock w) (files w)).
Proof.
  intros Hls. rewrite read_multiline_eq. unfold text_read.
  by rewrite read_lines_to_eof.
Qed.

Lemma read_multiline_at_eof_witness :
  read_multiline "Edit:" (example_world ["one"; "two"])
  = Ok ("one" +:+ nl +:+ "two")
      (mkWorld [] [nl; "Edit:" +:+ nl] false false 0 ∅).
Proof.
  apply (read_multiline_at_eof "Edit:" (example_world ["one"; "two"])).
  repeat constructor; vm_compute; discriminate.
Defined.

End ReadingFacts.

(** ** What the parsers return *)

Section ParserFacts.
Import Py Eff Spec Laws.

Lemma lstrip_idem (s : string) : lstrip (lstrip s) = lstrip s.
Proof.
  induction s as [|c s IH]; [done|]. simpl.
  destruct (isspace c) eqn:Hc; [done|]. simpl. by rewrite Hc.
Qed.

Lemma strip_idem (s : string) : strip (strip s) = strip s.
Proof.
  unfold strip. by rewrite lstrip_rstrip, lstrip_idem, rstrip_idem.
Qed.

Lemma clean_headers_stripped (hdrs : list string) (x : string) :
  strip x = x ->
  strip (Terminal.clean_headers hdrs x) = Terminal.clean_headers hdrs x.
Proof.
  unfold Terminal.clean_headers. revert x.
  induction hdrs as [|h hdrs IH]; intros x Hx; [done|]. simpl.
  apply IH. destruct (startswith x h); [apply strip_idem | done].
Qed.

(** X3. Neither parser returns a field with white space at its ends:
    stripping a returned field changes nothing, on every text. *)
Theorem parsed_fields_stripped (text : string) :
  strip (fst (Terminal.parse_editor_response text))
  = fst (Terminal.parse_editor_response text)
  /\ strip (snd (Terminal.parse_editor_response text))
     = snd (Terminal.parse_editor_response text)
  /\ strip (fst (Chainlit.parse_editor_response text))
     = fst (Chainlit.parse_editor_response text)
  /\ strip (snd (Chainlit.parse_editor_response text))
     = snd (Chainlit.parse_editor_response text).
Proof.
  unfold Terminal.parse_editor_response, Chainlit.parse_editor_response.
  destruct ((find (lower text) "### suggestions" =? -1)
            || (find (lower text) "### rewritten" =? -1)).
  - cbn [fst snd]. by rewrite strip_idem.
  - destruct (find (lower text) "### suggestions"
              <? find (lower text) "### rewritten"); cbn [fst snd];
      repeat split;
      first [apply clean_headers_stripped; apply strip_idem | apply strip_idem].
Qed.

(** X4. On every text of one-byte characters (U+0000..U+00FF) in which
    both markers occur, the chat parser cuts the text at the first
    occurrence of each marker: with [pre] the text before the earlier
    marker, [mid] the text between the two and [post] the text after the
    later one, the field of the earlier marker is [mid] stripped and the
    field of the later marker is [post] stripped.  On such a text
    lower-casing keeps every position, which the parser relies on; a text
    with a character whose lower-case form is longer, such as U+0130, is
    cut at shifted positions and is not covered. *)
Theorem chainlit_parse_both_markers (text : string) :
  occurs "### suggestions" (lower text) ->
  occurs "### rewritten" (lower text) ->
  let s := find (lower text) "### suggestions" in
  let r := find (lower text) "### rewritten" in
  exists pre A mid B post,
    text = pre +:+ A +:+ mid +:+ B +:+ post
    /\ len pre = Z.min s r
    /\ len (pre +:+ A +:+ mid) = Z.max s r
    /\ ((s < r /\ lower A = "### suggestions" /\ lower B = "### rewritten"
         /\ Chainlit.parse_editor_response text = (strip mid, strip post))
        \/ (r < s /\ lower A = "### rewritten" /\ lower B = "### suggestions"
            /\ Chainlit.parse_editor_response text
               = (strip post, strip mid))).
Proof.
  intros Hos Hor s r.
  assert (Hs : s <> -1) by (by apply find_complete).
  assert (Hr : r <> -1) by (by apply find_complete).
  destruct (Z.lt_ge_cases s r) as [Hlt | Hge].
  - destruct (parse_in_order text Hs Hr Hlt)
      as (pre & M & mid & R & post & Ht & HM & HR & Lpre & Hc & _ & Lmid).
    fold s in Lpre. fold r in Lmid.
    exists pre, M, mid, R, post. split; [done|].
    pose proof (len_spelled _ _ HM) as LM.
    change (len "### suggestions") with 15 in LM.
    split; [lia|]. split; [rewrite !len_app; lia|]. left. by fold s r.
  - assert (Hn : ~ s < r) by lia.
    destruct (parse_reversed text Hs Hr Hn)
      as (pre & R & mid & M & post & Ht & HM & HR & Lpre & Hc & _ & Lmid).
    fold r in Lpre. fold s in Lmid.
    exists pre, R, mid, M, post. split; [done|].
    pose proof (len_spelled _ _ HR) as LR.
    change (len "### rewritten") with 13 in LR.
    pose proof (len_nonneg mid). pose proof (len_nonneg pre).
    split; [lia|]. split; [rewrite !len_app; lia|]. right.
    split; [lia|]. by fold s r.
Qed.

Lemma chainlit_parse_both_markers_witness :
  exists pre A mid B post,
    "x ### Rewritten b ### suggestions  a "
    = pre +:+ A +:+ mid +:+ B +:+ post
    /\ lower A = "### rewritten" /\ lower B = "### suggestions"
    /\ Chainlit.parse_editor_response "x ### Rewritten b ### suggestions  a "
       = (strip post, strip mid).
Proof.
  destruct (chainlit_parse_both_markers
              "x ### Rewritten b ### suggestions  a ")
    as (pre & A & mid & B & post & Ht & _ & _ & H).
  - exists "x ### rewritten b ", "  a ". reflexivity.
  - exists "x ", " b ### suggestions  a ". reflexivity.
  - exists pre, A, mid, B, post. split; [exact Ht|].
    destruct H as [(Hlt & _) | (_ & HA & HB & Hp)].
    + exfalso. vm_compute in Hlt. discriminate Hlt.
    + by repeat split.
Defined.

End ParserFacts.

(** ** Laws of the effects *)

Section LawFacts.
Import Py Eff Spec Laws.
Context {W : Type}.

Lemma returns_ret {A : Type} (a : A) : returns (mret a : M W A).
Proof. intros w. by exists a, w. Qed.

Lemma returns_bind {A B : Type} (m : M W A) (f : A -> M W B) :
  returns m -> (forall a, returns (f a)) -> returns (m ≫= f).
Proof.
  intros Hm Hf w. destruct (Hm w) as (a & w1 & H).
  rewrite (bind_Ok _ _ _ _ _ H). apply Hf.
Qed.

Lemma returns_if {A : Type} (c : bool) (m k : M W A) :
  returns m -> returns k -> returns (if c then m else k).
Proof. by destruct c. Qed.

Lemma returns_try {A : Type} (body : M W A) (h : exn -> M W A) :
  catchable body -> (forall e, returns (h e)) -> returns (try_except body h).
Proof.
  intros Hb Hh w. unfold try_except.
  destruct (body w) as [a w1 | e w1] eqn:E; [by exists a, w1|].
  rewrite (Hb _ _ _ E). apply Hh.
Qed.

Lemma returns_catchable {A : Type} (m : M W A) : returns m -> catchable m.
Proof. intros H w e w' E. destruct (H w) as (a & w1 & H1). congruence. Qed.

Lemma catchable_bind {A B : Type} (m : M W A) (f : A -> M W B) :
  catchable m -> (forall a, catchable (f a)) -> catchable (m ≫= f).
Proof.
  intros Hm Hf w e w'. unfold mbind, M_bind.
  destruct (m w) as [a w1 | e1 w1] eqn:E.
  - apply Hf.
  - intros [= <- <-]. by eapply Hm.
Qed.

Lemma raises_only_ret {A : Type} (P : exn -> Prop) (a : A) :
  raises_only P (mret a : M W A).
Proof. intros w e w' H. discriminate H. Qed.

Lemma raises_only_returns {A : Type} (P : exn -> Prop) (m : M W A) :
  returns m -> raises_only P m.
Proof. intros H w e w' E. destruct (H w) as (a & w1 & H1). congruence. Qed.

Lemma raises_only_bind {A B : Type} (P : exn -> Prop) (m : M W A)
  (f : A -> M W B) :
  raises_only P m -> (forall a, raises_only P (f a)) ->
  raises_only P (m ≫= f).
Proof.
  intros Hm Hf w e w'. unfold mbind, M_bind.
  destruct (m w) as [a w1 | e1 w1] eqn:E.
  - apply Hf.
  - intros [= <- <-]. by eapply Hm.
Qed.

Lemma raises_only_if {A : Type} (P : exn -> Prop) (c : bool) (m k : M W A) :
  raises_only P m -> raises_only P k -> raises_only P (if c then m else k).
Proof. by destruct c. Qed.

Lemma raises_only_try {A : Type} (P : exn -> Prop) (body : M W A)
  (h : exn -> M W A) :
  catchable body -> (forall e, raises_only P (h e)) ->
  raises_only P (try_except body h).
Proof.
  intros Hb Hh w e w'. unfold try_except.
  destruct (body w) as [a w1 | e1 w1] eqn:E; [done|].
  rewrite (Hb _ _ _ E). apply Hh.
Qed.

Section Keeps.
Context (R : W -> W -> Prop).
Hypothesis R_refl : forall w, R w w.
Hypothesis R_trans : forall a b c, R a b -> R b c -> R a c.

Lemma keeps_ret {A : Type} (a : A) : keeps R (mret a : M W A).
Proof. intros w. apply R_refl. Qed.

Lemma keeps_raise {A : Type} (e : exn) : keeps R (raise e : M W A).
Proof. intros w. apply R_refl. Qed.

Lemma keeps_bind {A B : Type} (m : M W A) (f : A -> M W B) :
  keeps R m -> (forall a, keeps R (f a)) -> keeps R (m ≫= f).
Proof.
  intros Hm Hf w. specialize (Hm w). unfold mbind, M_bind.
  destruct (m w) as [a w1 | e w1]; simpl in *; [|done].
  eapply R_trans; [exact Hm | apply Hf].
Qed.

Lemma keeps_if {A : Type} (c : bool) (m k : M W A) :
  keeps R m -> keeps R k -> keeps R (if c then m else k).
Proof. by destruct c. Qed.

Lemma keeps_try {A : Type} (body : M W A) (h : exn -> M W A) :
  keeps R body -> (forall e, keeps R (h e)) -> keeps R (try_except body h).
Proof.
  intros Hb Hh w. specialize (Hb w). unfold try_except.
  destruct (body w) as [a w1 | e w1]; simpl in *; [done|].
  destruct (is_Exception e); [|done].
  eapply R_trans; [exact Hb | apply Hh].
Qed.

End Keeps.

End LawFacts.

(** ** Laws of the two nodes *)

Section NodeLaws.
Import Py Eff Spec Laws Terminal.

Lemma quiet_refl (w : World) : quiet w w.
Proof. split; [reflexivity | unfold input_shrinks; lia]. Qed.

Lemma quiet_trans (a b c : World) : quiet a b -> quiet b c -> quiet a c.
Proof.
  unfold quiet, same_files, input_shrinks. intros [H1 H2] [H3 H4].
  split; [congruence | lia].
Qed.

Lemma read_lines_rest_length (acc inp : list string) :
  (length (snd (read_lines acc inp)) <= length inp)%nat.
Proof.
  revert acc. induction inp as [|l inp IH]; intros acc; simpl; [lia|].
  destruct (String.eqb (strip l) "/done"); simpl; [lia|].
  specialize (IH (acc ++ [l])). lia.
Qed.

(** A text that is not empty has cost at least one line of input. *)
Lemma text_read_consumes (inp : list string) :
  truthy (text_read inp) = true ->
  (length (snd (read_lines [] inp)) < length inp)%nat.
Proof.
  unfold text_read. destruct inp as [|l inp]; simpl; [discriminate|].
  destruct (String.eqb (strip l) "/done"); simpl; [discriminate|].
  intros _. pose proof (read_lines_rest_length [l] inp). simpl in *. lia.
Qed.

(** *** Nothing but the terminal and the clock is touched *)

Ltac quiet_solve :=
  split; [reflexivity | unfold input_shrinks; simpl; lia].

Lemma keeps_only_prints (m : M World unit) : only_prints m -> keeps quiet m.
Proof. intros [out H] w. rewrite H. quiet_solve. Qed.

Lemma keeps_print (s : string) : keeps quiet (print s).
Proof. apply keeps_only_prints, only_prints_print. Qed.

Lemma keeps_input (prompt : string) : keeps quiet (input prompt).
Proof.
  intros w. unfold input, write, input_line, mbind, M_bind. simpl.
  destruct (stdin w) as [|l rest] eqn:E; simpl.
  - quiet_solve.
  - split; [reflexivity|]. unfold input_shrinks. simpl. rewrite E. simpl. lia.
Qed.

Lemma keeps_llm_invoke (oracle : nat -> string -> reply) (p : string) :
  keeps quiet (llm_invoke oracle p).
Proof.
  intros w. unfold llm_invoke. destruct (oracle (clock w) p); quiet_solve.
Qed.

Lemma keeps_read_multiline (p : string) : keeps quiet (read_multiline p).
Proof.
  intros w. rewrite read_multiline_eq. split; [reflexivity|].
  unfold input_shrinks. simpl. apply read_lines_rest_length.
Qed.

Lemma keeps_ensure_creator (E : Env) : keeps quiet (ensure_creator_llm E).
Proof.
  intros w. unfold ensure_creator_llm, make_creator_llm.
  destruct (CREATOR_LLM w); [apply quiet_refl|].
  destruct (creator_client E); quiet_solve.
Qed.

Lemma keeps_ensure_editor (E : Env) : keeps quiet (ensure_editor_llm E).
Proof.
  intros w. unfold ensure_editor_llm, make_editor_llm.
  destruct (EDITOR_LLM w); [apply quiet_refl|].
  destruct (editor_client E); quiet_solve.
Qed.

Ltac keeps_step :=
  first
    [ apply keeps_print
    | apply keeps_read_multiline
    | apply keeps_llm_invoke
    | apply keeps_input
    | apply keeps_only_prints;
        first [ apply only_prints_divider | apply only_prints_show_diff
              | apply only_prints_menu ]
    | apply (keeps_ret quiet quiet_refl)
    | apply (keeps_try quiet quiet_trans); [|intros ?]
    | apply (keeps_if quiet)
    | apply (keeps_bind quiet quiet_trans); [|intros ?] ].

Lemma keeps_welcome_turn (E : Env) (it : Z) : keeps quiet (welcome_turn E it).
Proof. unfold welcome_turn. repeat keeps_step. Qed.

Lemma keeps_dispatch_choice (E : Env) (st : DocState) (choice : string) :
  keeps quiet (dispatch_choice E st choice).
Proof. unfold dispatch_choice. repeat keeps_step. Qed.

Lemma keeps_creator_node (E : Env) (st : DocState) :
  keeps quiet (creator_node E st).
Proof.
  unfold creator_node.
  apply (keeps_bind quiet quiet_trans); [apply keeps_ensure_creator|].
  intros _. apply (keeps_if quiet).
  - apply keeps_welcome_turn.
  - apply (keeps_bind quiet quiet_trans);
      [apply keeps_only_prints, only_prints_menu|].
    intros _. apply (keeps_bind quiet quiet_trans); [apply keeps_input|].
    intros line. apply keeps_dispatch_choice.
Qed.

Lemma keeps_editor_node (E : Env) (st : DocState) :
  keeps quiet (editor_node E st).
Proof.
  unfold editor_node.
  apply (keeps_bind quiet quiet_trans); [apply keeps_ensure_editor|].
  intros _. apply (keeps_if quiet); [apply (keeps_ret quiet quiet_refl)|].
  apply (keeps_bind quiet quiet_trans);
    [apply keeps_only_prints, only_prints_divider|].
  intros _. apply (keeps_try quiet quiet_trans).
  - apply (keeps_bind quiet quiet_trans); [apply keeps_llm_invoke|].
    intros resp. destruct (parse_editor_response resp).
    apply (keeps_ret quiet quiet_refl).
  - intros e. repeat keeps_step.
Qed.

Lemma keeps_run_graph (E : Env) (limit : nat) :
  forall st, keeps quiet (run_graph E limit st).
Proof.
  induction limit as [limit IH] using lt_wf_ind. intros st.
  destruct limit as [|limit]; simpl; [apply (keeps_raise quiet quiet_refl)|].
  apply (keeps_bind quiet quiet_trans); [apply keeps_creator_node|].
  intros u. destruct limit as [|limit]; [apply (keeps_raise quiet quiet_refl)|].
  apply (keeps_if quiet); [apply (keeps_ret quiet quiet_refl)|].
  apply (keeps_bind quiet quiet_trans); [apply keeps_editor_node|].
  intros u2. apply IH. lia.
Qed.

(** X5. Running the graph writes no file and gives no input back, however
    the run ends: the files after [run_graph] are the files before it,
    also when it raises. *)
Theorem graph_writes_no_file (E : Env) (limit : nat) (st : DocState)
  (w : World) :
  files (world_of (run_graph E limit st w)) = files w
  /\ (length (stdin (world_of (run_graph E limit st w)))
      <= length (stdin w))%nat.
Proof. exact (keeps_run_graph E limit st w). Qed.

(** *** What the nodes return and raise *)

Lemma returns_only_prints (m : M World unit) : only_prints m -> returns m.
Proof. intros [out H] w. rewrite H. by eexists _, _. Qed.

Lemma returns_print (s : string) : returns (print s).
Proof. apply returns_only_prints, only_prints_print. Qed.

Lemma returns_read_multiline (p : string) : returns (read_multiline p).
Proof. intros w. rewrite read_multiline_eq. by eexists _, _. Qed.

Lemma catchable_llm_invoke (oracle : nat -> string -> reply) (p : string) :
  catchable (llm_invoke oracle p).
Proof.
  intros w e w'. unfold llm_invoke.
  destruct (oracle (clock w) p); [done|]. by intros [= <- _].
Qed.

Ltac returns_step :=
  first
    [ apply returns_print
    | apply returns_read_multiline
    | apply returns_only_prints;
        first [ apply only_prints_divider | apply only_prints_show_diff
              | apply only_prints_menu ]
    | apply returns_ret
    | apply returns_if
    | apply returns_try;
        [ apply catchable_bind;
            [apply catchable_llm_invoke | intros ?; apply returns_catchable]
        | intros ? ]
    | apply returns_bind; [|intros ?] ].

Lemma returns_welcome_turn (E : Env) (it : Z) : returns (welcome_turn E it).
Proof. unfold welcome_turn. repeat returns_step. Qed.

Lemma returns_dispatch_choice (E : Env) (st : DocState) (choice : string) :
  returns (dispatch_choice E st choice).
Proof. unfold dispatch_choice. repeat returns_step. Qed.

Lemma raises_only_ensure_creator (E : Env) :
  raises_only (fun e => e = SystemExit 1) (ensure_creator_llm E).
Proof.
  intros w e w'. unfold ensure_creator_llm, make_creator_llm.
  destruct (CREATOR_LLM w); [done|].
  destruct (creator_client E); [|done]. simpl. by intros [= <- _].
Qed.

Lemma raises_only_ensure_editor (E : Env) :
  raises_only (fun e => e = SystemExit 1) (ensure_editor_llm E).
Proof.
  intros w e w'. unfold ensure_editor_llm, make_editor_llm.
  destruct (EDITOR_LLM w); [done|].
  destruct (editor_client E); [|done]. simpl. by intros [= <- _].
Qed.

Lemma raises_only_input (prompt : string) :
  raises_only (fun e => e = EOFError) (input prompt).
Proof.
  intros w e w'. unfold input, write, input_line, mbind, M_bind. simpl.
  destruct (stdin w); [|done]. by intros [= <- _].
Qed.

Lemma raises_only_weaken {A : Type} (P Q : exn -> Prop) (m : M World A) :
  (forall e, P e -> Q e) -> raises_only P m -> raises_only Q m.
Proof. intros HPQ H w e w' E. apply HPQ. by eapply H. Qed.

Lemma returns_editor_body (E : Env) (st : DocState) :
  returns
    (if negb (truthy (strip (content st))) then mret no_update
     else
       print_divider
         (Some ("EDITOR REVIEW — Iteration " +:+ str_of_int (iteration st)));;
       try_except
         (resp ← llm_invoke (editor_invoke E)
                   (EDITOR_SYS_PROMPT +:+ nl +:+ nl
                    +:+ "Here is the DRAFT between <draft> tags." +:+ nl +:+ nl
                    +:+ "<draft>" +:+ nl +:+ strip (content st) +:+ nl
                    +:+ "</draft>" +:+ nl);
          let '(suggestions, rewritten) := parse_editor_response resp in
          mret (mkUpdate None (Some rewritten) (Some suggestions) None None))
         (fun e =>
            print ("Error during editing call: " +:+ str_of_exn e);;
            mret (mkUpdate None (Some EmptyString)
                    (Some "(Editor call failed. You can continue editing manually.)")
                    None None))).
Proof.
  apply returns_if; [apply returns_ret|].
  apply returns_bind; [apply returns_only_prints, only_prints_divider|].
  intros _. apply returns_try.
  - apply catchable_bind; [apply catchable_llm_invoke|].
    intros resp. apply returns_catchable.
    destruct (parse_editor_response resp). apply returns_ret.
  - intros e. repeat returns_step.
Qed.

Lemma nodes_raise_only_creator (E : Env) (st : DocState) :
  raises_only (fun e => e = EOFError \/ e = SystemExit 1) (creator_node E st).
Proof.
  unfold creator_node. apply raises_only_bind.
  { eapply raises_only_weaken; [|apply raises_only_ensure_creator].
    intros e. by right. }
  intros _. apply raises_only_if.
  - apply raises_only_returns, returns_welcome_turn.
  - apply raises_only_bind;
      [apply raises_only_returns, returns_only_prints, only_prints_menu|].
    intros _. apply raises_only_bind.
    { eapply raises_only_weaken; [|apply raises_only_input].
      intros e. by left. }
    intros line. apply raises_only_returns, returns_dispatch_choice.
Qed.

Lemma nodes_raise_only_editor (E : Env) (st : DocState) :
  raises_only (fun e => e = SystemExit 1) (editor_node E st).
Proof.
  unfold editor_node. apply raises_only_bind;
    [apply raises_only_ensure_editor|].
  intros _. apply raises_only_returns, returns_editor_body.
Qed.

(** X6. A node raises nothing but what the code lets through: the creator
    node raises only [EOFError] (the end of the input at the choice prompt)
    or [SystemExit(1)] (no client), the editor node only [SystemExit(1)].
    No failure of a model call leaves a node. *)
Theorem nodes_raise_only (E : Env) (st : DocState) :
  raises_only (fun e => e = EOFError \/ e = SystemExit 1) (creator_node E st)
  /\ raises_only (fun e => e = SystemExit 1) (editor_node E st).
Proof.
  split; [apply nodes_raise_only_creator | apply nodes_raise_only_editor].
Qed.

(** X7. With its client at hand the editor node always returns; so does
    the creator node, unless the menu is due and the input is at its
    end. *)
Theorem nodes_return :
  (forall E st w,
      creator_ready E w -> (menu_turn st = true -> stdin w <> []) ->
      exists u w', creator_node E st w = Ok u w')
  /\ (forall E st w,
         editor_ready E w -> exists u w', editor_node E st w = Ok u w').
Proof.
  split.
  - intros E st w Hready Hin.
    destruct (menu_turn st) eqn:Hmenu.
    + destruct (stdin w) as [|line rest] eqn:Hs; [by destruct Hin|].
      destruct (creator_node_menu E st w line rest Hready Hmenu Hs) as [o ->].
      apply returns_dispatch_choice.
    + unfold creator_node.
      rewrite (bind_Ok _ _ _ _ _ (ensure_creator_ok E w Hready)).
      unfold menu_turn in Hmenu. apply negb_false_iff in Hmenu.
      rewrite Hmenu. apply returns_welcome_turn.
  - intros E st w Hready. unfold editor_node.
    rewrite (bind_Ok _ _ _ _ _ (ensure_editor_ok E w Hready)).
    apply returns_editor_body.
Qed.

Lemma nodes_return_witness :
  (exists u w',
      creator_node (example_env (Fails "quota") (Fails "quota"))
        (mkDocState "Draft" "Rewrite" "- tighten" false 1)
        (example_world ["3"; "shorter"]) = Ok u w')
  /\ (exists u w',
         editor_node (example_env (Fails "quota") (Fails "quota"))
           (mkDocState "Draft" "Rewrite" "- tighten" false 1)
           (example_world []) = Ok u w').
Proof.
  destruct nodes_return as (H1 & H2). split.
  - apply H1; [right; reflexivity | discriminate].
  - apply H2. right. reflexivity.
Defined.

(** X8. At the end of the input the menu cannot be answered: the creator
    node raises [EOFError] after the prompt, and neither a file nor the
    clock has changed. *)
Theorem menu_at_end_of_input (E : Env) (st : DocState) (w : World) :
  creator_ready E w -> menu_turn st = true -> stdin w = [] ->
  exists w',
    creator_node E st w = Raise EOFError w'
    /\ last (stdout w') = Some "Enter 1/2/3/4/5: "
    /\ files w' = files w /\ clock w' = clock w.
Proof.
  intros Hready Hmenu Hin. unfold creator_node.
  rewrite (bind_Ok _ _ _ _ _ (ensure_creator_ok E w Hready)).
  unfold menu_turn in Hmenu. apply negb_true_iff in Hmenu. rewrite Hmenu.
  destruct (only_prints_menu (suggestions st) (edited_version st)) as [o Ho].
  rewrite (bind_Ok _ _ _ _ _ (Ho _)).
  erewrite bind_Raise; [|apply input_eof; simpl; exact Hin].
  eexists. split; [reflexivity|]. simpl.
  split; [first [apply last_snoc | by rewrite app_assoc, last_snoc] | done].
Qed.

Lemma menu_at_end_of_input_witness :
  exists w',
    creator_node (example_env (Content "Story") (Content "fine"))
      (mkDocState "Draft" "Rewrite" "- tighten" false 1) (example_world [])
    = Raise EOFError w'
    /\ last (stdout w') = Some "Enter 1/2/3/4/5: "
    /\ files w' = ∅ /\ clock w' = 0%nat.
Proof.
  apply (menu_at_end_of_input (example_env (Content "Story") (Content "fine"))
           (mkDocState "Draft" "Rewrite" "- tighten" false 1)
           (example_world [])).
  - right. reflexivity.
  - reflexivity.
  - reflexivity.
Defined.

(** *** The frame of a node *)

Ltac ensures_step' :=
  first
    [ apply ensures_ret
    | apply ensures_try; [|intros ?]
    | apply ensures_if
    | apply ensures_bind; intros ? ].

Lemma creator_node_frame (E : Env) (st : DocState) :
  ensures creator_frame (creator_node E st).
Proof.
  unfold creator_node, welcome_turn, dispatch_choice.
  repeat ensures_step'; by split.
Qed.

(** X9. The creator node leaves the suggestions and the rewrite as they
    are, whatever the human chooses; the editor node leaves the content,
    the approval and the loop counter as they are. *)
Theorem nodes_frame :
  (forall E st w u w',
      creator_node E st w = Ok u w' ->
      suggestions (merge st u) = suggestions st
      /\ edited_version (merge st u) = edited_version st)
  /\ (forall E st w u w',
         editor_node E st w = Ok u w' ->
         content (merge st u) = content st
         /\ approved (merge st u) = approved st
         /\ iteration (merge st u) = iteration st).
Proof.
  split.
  - intros E st w u w' H.
    destruct (creator_node_frame E st w u w' H) as [Hs He].
    unfold merge. simpl. by rewrite Hs, He.
  - intros E st w u w' H.
    destruct (editor_step_iteration E st w w' u H) as (Hi & Ha & Hc).
    by repeat split.
Qed.

Lemma nodes_frame_witness :
  let E := example_env (Content "Revised") (Content "fine") in
  let st := mkDocState "Draft" "Rewrite" "- tighten" false 1 in
  (exists u w',
      creator_node E st (example_world ["3"; "shorter"; "/done"]) = Ok u w'
      /\ suggestions (merge st u) = "- tighten"
      /\ edited_version (merge st u) = "Rewrite")
  /\ (exists u w',
         editor_node E st (example_world []) = Ok u w'
         /\ content (merge st u) = "Draft"
         /\ approved (merge st u) = false
         /\ iteration (merge st u) = 1).
Proof.
  intros E st. destruct nodes_frame as (H1 & H2). split.
  - destruct (creator_node E st (example_world ["3"; "shorter"; "/done"]))
      as [u w' | e w'] eqn:Hrun; [|vm_compute in Hrun; discriminate Hrun].
    exists u, w'. split; [reflexivity|]. exact (H1 E st _ u w' Hrun).
  - destruct (editor_node E st (example_world []))
      as [u w' | e w'] eqn:Hrun; [|vm_compute in Hrun; discriminate Hrun].
    exists u, w'. split; [reflexivity|]. exact (H2 E st _ u w' Hrun).
Defined.

(** *** The runs of the graph *)

Lemma route_end_approved (st : DocState) :
  String.eqb (route_after_creator st) "end" = approved st.
Proof. unfold route_after_creator. by destruct (approved st). Qed.

(** X10. The graph returns only when the session is approved: every state
    [run_graph] returns has its approval set. *)
Theorem run_graph_returns_approved (E : Env) (limit : nat) :
  forall (st : DocState) (w : World) (st' : DocState) (w' : World),
    run_graph E limit st w = Ok st' w' -> approved st' = true.
Proof.
  induction limit as [limit IH] using lt_wf_ind.
  intros st w st' w' Hrun.
  destruct limit as [|[|limit]]; [discriminate| |].
  { rewrite run_graph_1 in Hrun. destruct (creator_node E st w); discriminate. }
  rewrite run_graph_SS in Hrun. unfold mbind, M_bind in Hrun.
  destruct (creator_node E st w) as [u w1 | e w1]; [|discriminate].
  rewrite route_end_approved in Hrun.
  destruct (approved (merge st u)) eqn:Hap.
  - by injection Hrun as <- <-.
  - destruct (editor_node E (merge st u) w1) as [u2 w2 | e w2];
      [|discriminate].
    eapply (IH limit); [lia | exact Hrun].
Qed.

Lemma run_graph_returns_approved_witness :
  exists st' w',
    run_graph (example_env (Content "Story") (Content "fine")) 25
      initial_state (example_world ["a lighthouse keeper"; "/done"; "5"])
    = Ok st' w'
    /\ approved st' = true.
Proof.
  destruct (run_graph (example_env (Content "Story") (Content "fine")) 25
              initial_state
              (example_world ["a lighthouse keeper"; "/done"; "5"]))
    as [st' w' | e w'] eqn:Hrun; [|vm_compute in Hrun; discriminate Hrun].
  exists st', w'. split; [reflexivity|].
  exact (run_graph_returns_approved _ _ _ _ _ _ Hrun).
Defined.

Lemma keeps_Ok {A : Type} (m : M World A) (w w' : World) (a : A) :
  keeps quiet m -> m w = Ok a w' ->
  files w' = files w /\ (length (stdin w') <= length (stdin w))%nat.
Proof. intros Hk H. specialize (Hk w). rewrite H in Hk. exact Hk. Qed.

Lemma ensure_creator_inv (E : Env) (w w1 : World) (a : unit) :
  ensure_creator_llm E w = Ok a w1 -> creator_ready E w.
Proof.
  unfold ensure_creator_llm, make_creator_llm, creator_ready.
  destruct (CREATOR_LLM w); [by left|].
  destruct (creator_client E); [discriminate|]. by right.
Qed.

(** A first turn after which the run goes on has read at least one
    line. *)
Lemma welcome_continue_consumes (E : Env) (it : Z) (w w' : World)
  (u : Update) :
  welcome_turn E it w = Ok u w' -> u_approved u <> Some true ->
  (length (stdin w') < length (stdin w))%nat.
Proof.
  unfold welcome_turn. intros H Hgo.
  destruct (only_prints_divider (Some "WELCOME — Content Creator"))
    as [out Hout].
  rewrite (bind_Ok _ _ _ _ _ (Hout w)) in H.
  rewrite (bind_Ok _ _ _ _ _ (read_multiline_eq _ _)) in H.
  cbn [stdin say] in H.
  destruct (truthy (text_read (stdin w))) eqn:Htext; cbn [negb] in H.
  - pose proof (text_read_consumes _ Htext) as Hlt.
    match type of H with
    | ?T ?w2 = Ok _ _ =>
        assert (Hk : keeps quiet T) by (repeat keeps_step);
        destruct (keeps_Ok T w2 w' u Hk H) as [_ Hle]
    end.
    simpl in Hle. lia.
  - rewrite (bind_Ok _ _ _ _ _ (print_say _ _)) in H.
    injection H as <- _. by destruct Hgo.
Qed.

(** A creator turn after which the run goes on has read at least one
    line. *)
Lemma creator_continue_consumes (E : Env) (st : DocState) (w w' : World)
  (u : Update) :
  creator_node E st w = Ok u w' ->
  route_after_creator (merge st u) = "editor" ->
  (length (stdin w') < length (stdin w))%nat.
Proof.
  intros H Hroute.
  assert (Hready : creator_ready E w).
  { unfold creator_node, mbind, M_bind in H.
    destruct (ensure_creator_llm E w) as [a w1 | e w1] eqn:He; [|discriminate].
    by eapply ensure_creator_inv. }
  destruct (menu_turn st) eqn:Hmenu.
  - destruct (stdin w) as [|line rest] eqn:Hs.
    + exfalso. unfold creator_node in H.
      rewrite (bind_Ok _ _ _ _ _ (ensure_creator_ok E w Hready)) in H.
      unfold menu_turn in Hmenu. apply negb_true_iff in Hmenu.
      rewrite Hmenu in H.
      destruct (only_prints_menu (suggestions st) (edited_version st))
        as [o Ho].
      rewrite (bind_Ok _ _ _ _ _ (Ho _)) in H.
      erewrite bind_Raise in H; [discriminate|].
      apply input_eof. simpl. exact Hs.
    + destruct (creator_node_menu E st w line rest Hready Hmenu Hs)
        as [o Ho].
      rewrite Ho in H.
      destruct (keeps_Ok _ _ _ _ (keeps_dispatch_choice E st (strip line)) H)
        as [_ Hle].
      simpl in *. lia.
  - unfold creator_node in H.
    rewrite (bind_Ok _ _ _ _ _ (ensure_creator_ok E w Hready)) in H.
    unfold menu_turn in Hmenu. apply negb_false_iff in Hmenu.
    rewrite Hmenu in H.
    apply welcome_continue_consumes in H; [exact H|].
    intros Hap. unfold route_after_creator, merge in Hroute. simpl in Hroute.
    rewrite Hap in Hroute. discriminate.
Qed.

(** X11. Every round of the graph costs a line of input, so a run on an
    input of [n] lines executes at most [2n + 1] nodes: under a recursion
    limit of [2n + 2] or more it never ends by [GraphRecursionError]. *)
Theorem run_graph_within_limit (E : Env) (limit : nat) :
  forall (st : DocState) (w w' : World),
    (2 * length (stdin w) + 2 <= limit)%nat ->
    run_graph E limit st w <> Raise GraphRecursionError w'.
Proof.
  induction limit as [limit IH] using lt_wf_ind.
  intros st w w' Hlim Hrun.
  destruct limit as [|[|limit]]; [lia|lia|].
  rewrite run_graph_SS in Hrun. unfold mbind, M_bind in Hrun.
  destruct (creator_node E st w) as [u w1 | e w1] eqn:Hc.
  - rewrite route_end_approved in Hrun.
    destruct (approved (merge st u)) eqn:Hap; [discriminate|].
    assert (Hroute : route_after_creator (merge st u) = "editor")
      by (unfold route_after_creator; by rewrite Hap).
    pose proof (creator_continue_consumes E st w w1 u Hc Hroute) as Hlt.
    destruct (editor_node E (merge st u) w1) as [u2 w2 | e w2] eqn:He.
    + destruct (keeps_Ok _ _ _ _ (keeps_editor_node E (merge st u)) He)
        as [_ Hle].
      eapply (IH limit); [lia | | exact Hrun]. lia.
    + injection Hrun as -> _.
      discriminate (nodes_raise_only_editor E (merge st u) _ _ _ He).
  - injection Hrun as -> _.
    destruct (nodes_raise_only_creator E st _ _ _ Hc); discriminate.
Qed.

Lemma run_graph_within_limit_witness :
  (2 * length (stdin (example_world ["a lighthouse keeper"; "/done"; "9"]))
   + 2 <= 8)%nat
  /\ run_graph (example_env (Content "Story") (Content "fine")) 8
       initial_state (example_world ["a lighthouse keeper"; "/done"; "9"])
     <> Raise GraphRecursionError
          (world_of
             (run_graph (example_env (Content "Story") (Content "fine")) 8
                initial_state
                (example_world ["a lighthouse keeper"; "/done"; "9"]))).
Proof.
  split; [simpl; lia|].
  apply (run_graph_within_limit
           (example_env (Content "Story") (Content "fine")) 8 initial_state
           (example_world ["a lighthouse keeper"; "/done"; "9"])).
  simpl. lia.
Defined.

End NodeLaws.

(** ** The choices of the menu *)

Section ChoiceFacts.
Import Py Eff Spec Laws Terminal.

Lemma llm_invoke_replies (oracle : nat -> string -> reply) (p text : string)
  (w : World) :
  oracle (clock w) p = Content text ->
  llm_invoke oracle p w
  = Ok text
      (mkWorld (stdin w) (stdout w) (CREATOR_LLM w) (EDITOR_LLM w)
         (S (clock w)) (files w)).
Proof. intros H. unfold llm_invoke. by rewrite H. Qed.

(** X12. Choice 1 with a rewrite at hand: the rewrite becomes the content
    and the loop counter advances; the model is not called and only the
    line of the choice is read. *)
Theorem accept_rewrite (E : Env) (st : DocState) (w : World)
  (line : string) (rest : list string) :
  creator_ready E w -> menu_turn st = true ->
  stdin w = line :: rest -> strip line = "1" ->
  truthy (edited_version st) = true ->
  exists u w',
    creator_node E st w = Ok u w'
    /\ merge st u
       = mkDocState (edited_version st) (edited_version st) (suggestions st)
           (approved st) (iteration st + 1)
    /\ stdin w' = rest /\ clock w' = clock w.
Proof.
  intros Hready Hmenu Hin Hline Hev.
  destruct (creator_node_menu E st w line rest Hready Hmenu Hin) as [o ->].
  rewrite Hline. unfold dispatch_choice.
  change (String.eqb "1" "1") with true. cbv iota. rewrite Hev.
  rewrite (bind_Ok _ _ _ _ _ (print_say _ _)).
  eexists _, _. split; [reflexivity|]. by repeat split.
Qed.

Lemma accept_rewrite_witness :
  let E := example_env (Content "Story") (Content "fine") in
  let st := mkDocState "D1" "D1-improved" "- tighten opening" false 1 in
  exists u w',
    creator_node E st (example_world [" 1 "; "5"]) = Ok u w'
    /\ merge st u
       = mkDocState "D1-improved" "D1-improved" "- tighten opening" false 2
    /\ stdin w' = ["5"] /\ clock w' = 0%nat.
Proof.
  intros E st.
  apply (accept_rewrite E st (example_world [" 1 "; "5"]) " 1 " ["5"]).
  - right. reflexivity.
  - reflexivity.
  - reflexivity.
  - vm_compute. reflexivity.
  - reflexivity.
Defined.

(** X13. Choice 2 with a text typed: the stripped text becomes the
    content and the loop counter advances; the model is not called. *)
Theorem manual_edit_with_text (E : Env) (st : DocState) (w : World)
  (line : string) (rest : list string) :
  creator_ready E w -> menu_turn st = true ->
  stdin w = line :: rest -> strip line = "2" ->
  truthy (text_read rest) = true ->
  exists u w',
    creator_node E st w = Ok u w'
    /\ merge st u
       = mkDocState (text_read rest) (edited_version st) (suggestions st)
           (approved st) (iteration st + 1)
    /\ stdin w' = snd (read_lines [] rest) /\ clock w' = clock w.
Proof.
  intros Hready Hmenu Hin Hline Htext.
  destruct (creator_node_menu E st w line rest Hready Hmenu Hin) as [o ->].
  rewrite Hline. unfold dispatch_choice.
  change (String.eqb "2" "1") with false.
  change (String.eqb "2" "2") with true. cbv iota.
  rewrite (bind_Ok _ _ _ _ _ (read_multiline_eq _ _)).
  cbn [stdin]. rewrite Htext.
  eexists _, _. split; [reflexivity|]. by repeat split.
Qed.

Lemma manual_edit_with_text_witness :
  let E := example_env (Content "Story") (Content "fine") in
  let st := mkDocState "Draft" "Rewrite" "- tighten" false 1 in
  exists u w',
    creator_node E st (example_world ["2"; "New full draft."; "/done"])
    = Ok u w'
    /\ merge st u
       = mkDocState "New full draft." "Rewrite" "- tighten" false 2
    /\ stdin w' = [] /\ clock w' = 0%nat.
Proof.
  intros E st.
  apply (manual_edit_with_text E st
           (example_world ["2"; "New full draft."; "/done"]) "2"
           ["New full draft."; "/done"]).
  - right. reflexivity.
  - reflexivity.
  - reflexivity.
  - vm_compute. reflexivity.
  - vm_compute. reflexivity.
Defined.

(** X14. Choice 3 with instructions typed: the model is called once, with
    the prompt that carries the current content between the draft tags and
    the instructions; its answer becomes the content and the loop counter
    advances. *)
Theorem revise_with_instructions (E : Env) (st : DocState) (w : World)
  (line : string) (rest : list string) (revised : string) :
  creator_ready E w -> menu_turn st = true ->
  stdin w = line :: rest -> strip line = "3" ->
  truthy (strip (text_read rest)) = true ->
  creator_invoke E (clock w) (revise_prompt (content st) (text_read rest))
  = Content revised ->
  exists u w',
    creator_node E st w = Ok u w'
    /\ merge st u
       = mkDocState revised (edited_version st) (suggestions st)
           (approved st) (iteration st + 1)
    /\ clock w' = S (clock w).
Proof.
  intros Hready Hmenu Hin Hline Hinstr Hreply.
  destruct (creator_node_menu E st w line rest Hready Hmenu Hin) as [o ->].
  rewrite Hline. unfold dispatch_choice.
  change (String.eqb "3" "1") with false.
  change (String.eqb "3" "2") with false.
  change (String.eqb "3" "3") with true. cbv iota.
  rewrite (bind_Ok _ _ _ _ _ (read_multiline_eq _ _)).
  cbn [stdin]. rewrite Hinstr. cbn [negb].
  erewrite try_except_Ok.
  2:{ erewrite bind_Ok; [|apply llm_invoke_replies; exact Hreply].
      rewrite (bind_Ok _ _ _ _ _ (print_say _ _)). reflexivity. }
  eexists _, _. split; [reflexivity|]. by split.
Qed.

Lemma revise_with_instructions_witness :
  let E := example_env (Content "Shorter draft") (Content "fine") in
  let st := mkDocState "Draft" "Rewrite" "- tighten" false 1 in
  exists u w',
    creator_node E st (example_world ["3"; "shorter"; "/done"]) = Ok u w'
    /\ merge st u = mkDocState "Shorter draft" "Rewrite" "- tighten" false 2
    /\ clock w' = 1%nat.
Proof.
  intros E st.
  apply (revise_with_instructions E st
           (example_world ["3"; "shorter"; "/done"]) "3"
           ["shorter"; "/done"] "Shorter draft").
  - right. reflexivity.
  - reflexivity.
  - reflexivity.
  - vm_compute. reflexivity.
  - vm_compute. reflexivity.
  - reflexivity.
Defined.

(** X15. Choice 5 ends the run at once: under a recursion limit of two
    or more the graph returns the state with the approval set and nothing
    else changed, without a model call and without reading further.  Under
    a limit of one the same turn uses the last execution allowed and the
    run ends by [GraphRecursionError] instead. *)
Theorem finish_ends_run (E : Env) (limit : nat) (st : DocState) (w : World)
  (line : string) (rest : list string) :
  creator_ready E w -> menu_turn st = true ->
  stdin w = line :: rest -> strip line = "5" ->
  exists w',
    run_graph E (S (S limit)) st w
    = Ok (mkDocState (content st) (edited_version st) (suggestions st) true
            (iteration st)) w'
    /\ run_graph E 1 st w = Raise GraphRecursionError w'
    /\ stdin w' = rest /\ clock w' = clock w /\ files w' = files w.
Proof.
  intros Hready Hmenu Hin Hline.
  destruct (creator_node_menu E st w line rest Hready Hmenu Hin) as [o Ho].
  assert (Hc : creator_node E st w
               = Ok (mkUpdate None None None (Some true) None)
                   (mkWorld rest (stdout w ++ o) true (EDITOR_LLM w)
                      (clock w) (files w))).
  { rewrite Ho, Hline. unfold dispatch_choice.
    change (String.eqb "5" "1") with false.
    change (String.eqb "5" "2") with false.
    change (String.eqb "5" "3") with false.
    change (String.eqb "5" "4") with false.
    change (String.eqb "5" "5") with true. cbv iota. reflexivity. }
  eexists. split; [|split].
  - rewrite run_graph_SS, (bind_Ok _ _ _ _ _ Hc). reflexivity.
  - rewrite run_graph_1, Hc. reflexivity.
  - by repeat split.
Qed.

Lemma finish_ends_run_witness :
  let E := example_env (Content "Story") (Content "fine") in
  let st := mkDocState "Draft" "Rewrite" "- tighten" false 3 in
  exists w',
    run_graph E 2 st (example_world ["5"; "name"])
    = Ok (mkDocState "Draft" "Rewrite" "- tighten" true 3) w'
    /\ run_graph E 1 st (example_world ["5"; "name"])
       = Raise GraphRecursionError w'
    /\ stdin w' = ["name"] /\ clock w' = 0%nat /\ files w' = ∅.
Proof.
  intros E st.
  apply (finish_ends_run E 0 st (example_world ["5"; "name"]) "5" ["name"]).
  - right. reflexivity.
  - reflexivity.
  - reflexivity.
  - vm_compute. reflexivity.
Defined.

(** X16. A choice that is none of the five, and choice 3 without
    instructions, change nothing but the loop counter, which advances; the
    model is not called. *)
Theorem choice_without_effect (E : Env) (st : DocState) (w : World)
  (line : string) (rest : list string) :
  creator_ready E w -> menu_turn st = true ->
  stdin w = line :: rest ->
  (strip line = "3" /\ truthy (strip (text_read rest)) = false)
  \/ (strip line <> "1" /\ strip line <> "2" /\ strip line <> "3"
      /\ strip line <> "4" /\ strip line <> "5") ->
  exists u w',
    creator_node E st w = Ok u w'
    /\ merge st u = next_iteration st /\ clock w' = clock w.
Proof.
  intros Hready Hmenu Hin Hcase.
  destruct (creator_node_menu E st w line rest Hready Hmenu Hin) as [o ->].
  unfold dispatch_choice.
  destruct Hcase as [[Hline Hinstr] | (H1 & H2 & H3 & H4 & H5)].
  - rewrite Hline.
    change (String.eqb "3" "1") with false.
    change (String.eqb "3" "2") with false.
    change (String.eqb "3" "3") with true. cbv iota.
    rewrite (bind_Ok _ _ _ _ _ (read_multiline_eq _ _)).
    cbn [stdin]. rewrite Hinstr. cbn [negb].
    rewrite (bind_Ok _ _ _ _ _ (print_say _ _)).
    eexists _, _. split; [reflexivity|]. by split.
  - apply String.eqb_neq in H1, H2, H3, H4, H5.
    rewrite H1, H2, H3, H4, H5.
    rewrite (bind_Ok _ _ _ _ _ (print_say _ _)).
    eexists _, _. split; [reflexivity|]. by split.
Qed.

Lemma choice_without_effect_witness :
  let E := example_env (Content "Story") (Content "fine") in
  let st := mkDocState "Draft" "Rewrite" "- tighten" false 1 in
  exists u w',
    creator_node E st (example_world ["six"]) = Ok u w'
    /\ merge st u = mkDocState "Draft" "Rewrite" "- tighten" false 2
    /\ clock w' = 0%nat.
Proof.
  intros E st.
  apply (choice_without_effect E st (example_world ["six"]) "six" []).
  - right. reflexivity.
  - reflexivity.
  - reflexivity.
  - right. repeat split; vm_compute; discriminate.
Defined.

End ChoiceFacts.

(** ** The first turn, the review and the end of the session *)

Section SessionFacts.
Import Py Eff Spec Laws Terminal.

(** X17. The first turn with an idea typed: the model is called once with
    the prompt that carries the idea, its answer becomes the content, the
    loop counter becomes one, and the graph goes on to the editor. *)
Theorem first_generation (E : Env) (st : DocState) (w : World)
  (story : string) :
  creator_ready E w -> menu_turn st = false -> approved st = false ->
  truthy (text_read (stdin w)) = true ->
  creator_invoke E (clock w) (idea_prompt (text_read (stdin w)))
  = Content story ->
  exists u w',
    creator_node E st w = Ok u w'
    /\ merge st u
       = mkDocState story (edited_version st) (suggestions st) false 1
    /\ route_after_creator (merge st u) = "editor"
    /\ clock w' = S (clock w).
Proof.
  intros Hready Hmenu Hap Htext Hreply. unfold creator_node.
  rewrite (bind_Ok _ _ _ _ _ (ensure_creator_ok E w Hready)).
  unfold menu_turn in Hmenu. apply negb_false_iff in Hmenu. rewrite Hmenu.
  apply andb_prop in Hmenu as [Hit _]. apply Z.eqb_eq in Hit.
  unfold welcome_turn.
  destruct (only_prints_divider (Some "WELCOME — Content Creator"))
    as [out Hout].
  rewrite (bind_Ok _ _ _ _ _ (Hout _)).
  rewrite (bind_Ok _ _ _ _ _ (read_multiline_eq _ _)).
  cbn [stdin say]. rewrite Htext. cbn [negb].
  erewrite try_except_Ok.
  2:{ erewrite bind_Ok; [|apply llm_invoke_replies; exact Hreply].
      rewrite (bind_Ok _ _ _ _ _ (print_say _ _)). reflexivity. }
  eexists _, _. split; [reflexivity|].
  unfold merge, route_after_creator. simpl. rewrite Hit, Hap. by repeat split.
Qed.

Lemma first_generation_witness :
  let E := example_env (Content "D1") (Content "fine") in
  exists u w',
    creator_node E initial_state
      (example_world ["a lighthouse keeper"; "/done"]) = Ok u w'
    /\ merge initial_state u
       = mkDocState "D1" EmptyString EmptyString false 1
    /\ route_after_creator (merge initial_state u) = "editor"
    /\ clock w' = 1%nat.
Proof.
  intros E.
  apply (first_generation E initial_state
           (example_world ["a lighthouse keeper"; "/done"]) "D1").
  - right. reflexivity.
  - reflexivity.
  - reflexivity.
  - vm_compute. reflexivity.
  - reflexivity.
Defined.

(** The first turn when no idea is typed. *)
Lemma welcome_turn_no_idea (E : Env) (it : Z) (w : World) :
  text_read (stdin w) = EmptyString ->
  exists out,
    welcome_turn E it w
    = Ok (mkUpdate None None None (Some true) None)
        (mkWorld (snd (read_lines [] (stdin w))) (stdout w ++ out)
           (CREATOR_LLM w) (EDITOR_LLM w) (clock w) (files w)).
Proof.
  intros Htext. unfold welcome_turn.
  destruct (only_prints_divider (Some "WELCOME — Content Creator"))
    as [out Hout].
  rewrite (bind_Ok _ _ _ _ _ (Hout _)).
  rewrite (bind_Ok _ _ _ _ _ (read_multiline_eq _ _)).
  cbn [stdin say]. rewrite Htext. cbn [truthy negb].
  rewrite (bind_Ok _ _ _ _ _ (print_say _ _)).
  eexists (out ++ [_; _; _]). unfold say. simpl. by rewrite <- !app_assoc.
Qed.

(** X18. Without an idea the program ends by itself: when the first text
    read is empty and the recursion limit is two or more (the runtime's
    own is 25), [main] returns after ["Nothing to save. Exiting."],
    without a model call and without a file. *)
Theorem main_without_idea (E : Env) (w : World) :
  creator_ready E w -> (1 < recursion_limit E)%nat ->
  text_read (stdin w) = EmptyString ->
  exists w',
    main E w = Ok tt w'
    /\ last (stdout w') = Some ((nl +:+ "Nothing to save. Exiting.") +:+ nl)
    /\ clock w' = clock w /\ files w' = files w.
Proof.
  intros Hready Hlim Htext. unfold main.
  assert (Hwarn : only_prints
                    (if api_key_missing E
                     then print "WARNING: GOOGLE_API_KEY is not set. Set it to use Gemini."
                     else mret tt)).
  { apply only_prints_if; [apply only_prints_print | apply only_prints_ret]. }
  destruct Hwarn as [o1 Ho1]. rewrite (bind_Ok _ _ _ _ _ (Ho1 w)).
  unfold invoke. destruct (recursion_limit E) as [|[|limit]]; [lia|lia|].
  assert (Hready' : creator_ready E (say o1 w)).
  { destruct Hready as [H | H]; [left | right]; done. }
  destruct (welcome_turn_no_idea E (iteration initial_state)
              (mkWorld (stdin w) (stdout (say o1 w)) true
                 (EDITOR_LLM (say o1 w)) (clock (say o1 w))
                 (files (say o1 w))) Htext) as [out Hout].
  erewrite bind_Ok.
  2:{ rewrite run_graph_SS. erewrite bind_Ok.
      2:{ unfold creator_node.
          rewrite (bind_Ok _ _ _ _ _ (ensure_creator_ok E _ Hready')).
          change ((iteration initial_state =? 0)
                  && negb (truthy (content initial_state))) with true.
          cbv iota. exact Hout. }
      reflexivity. }
  rewrite save_skipped by reflexivity.
  eexists. split; [reflexivity|]. cbn [say stdout clock files].
  split; [apply last_snoc | done].
Qed.

Lemma main_without_idea_witness :
  exists w',
    main (example_env (Content "Story") (Content "fine"))
      (example_world ["/done"; "5"]) = Ok tt w'
    /\ last (stdout w') = Some ((nl +:+ "Nothing to save. Exiting.") +:+ nl)
    /\ clock w' = 0%nat /\ files w' = ∅.
Proof.
  apply (main_without_idea (example_env (Content "Story") (Content "fine"))
           (example_world ["/done"; "5"])).
  - right. reflexivity.
  - simpl. lia.
  - vm_compute. reflexivity.
Defined.

(** X19. When the creator client cannot be made, [main] ends by
    [SystemExit(1)] after the two lines of the error, before anything is
    read: no input is consumed, no model is called, no file is written. *)
Theorem main_without_client (E : Env) (w : World) (e : string) :
  CREATOR_LLM w = false -> creator_client E = Some e ->
  (0 < recursion_limit E)%nat ->
  exists w',
    main E w = Raise (SystemExit 1) w'
    /\ last (stdout w')
       = Some ("Ensure GOOGLE_API_KEY is set and packages are installed."
               +:+ nl)
    /\ stdin w' = stdin w /\ clock w' = clock w /\ files w' = files w.
Proof.
  intros Hnone Hclient Hlim. unfold main.
  assert (Hwarn : only_prints
                    (if api_key_missing E
                     then print "WARNING: GOOGLE_API_KEY is not set. Set it to use Gemini."
                     else mret tt)).
  { apply only_prints_if; [apply only_prints_print | apply only_prints_ret]. }
  destruct Hwarn as [o1 Ho1]. rewrite (bind_Ok _ _ _ _ _ (Ho1 w)).
  unfold invoke. destruct (recursion_limit E) as [|limit]; [lia|].
  erewrite bind_Raise.
  2:{ simpl. erewrite bind_Raise; [reflexivity|].
      unfold creator_node. erewrite bind_Raise; [reflexivity|].
      unfold ensure_creator_llm, make_creator_llm. cbn [say CREATOR_LLM].
      rewrite Hnone, Hclient.
      rewrite (bind_Ok _ _ _ _ _ (print_say _ _)).
      rewrite (bind_Ok _ _ _ _ _ (print_say _ _)). reflexivity. }
  eexists. split; [reflexivity|]. cbn [say stdout stdin clock files].
  split; [|done].
  first [apply last_snoc | rewrite !app_assoc; apply last_snoc].
Qed.

Lemma main_without_client_witness :
  exists w',
    main (mkEnv (Some "no key") None (fun _ _ => Content "Story")
            (fun _ _ => Content "fine") (fun _ _ => []) 25 None
            (mkTime 2025 3 9 7 5) (fun _ => None) (fun f => f))
      (example_world ["idea"; "/done"]) = Raise (SystemExit 1) w'
    /\ last (stdout w')
       = Some ("Ensure GOOGLE_API_KEY is set and packages are installed."
               +:+ nl)
    /\ stdin w' = ["idea"; "/done"] /\ clock w' = 0%nat /\ files w' = ∅.
Proof.
  apply (main_without_client
           (mkEnv (Some "no key") None (fun _ _ => Content "Story")
              (fun _ _ => Content "fine") (fun _ _ => []) 25 None
              (mkTime 2025 3 9 7 5) (fun _ => None) (fun f => f))
           (example_world ["idea"; "/done"]) "no key").
  - reflexivity.
  - reflexivity.
  - simpl. lia.
Defined.

(** X20. The editor node does nothing on a blank draft: when the content
    is empty or white space only it returns no key, so the state stays as
    it is, and the model is not called. *)
Theorem review_of_blank_draft (E : Env) (st : DocState) (w : World) :
  editor_ready E w -> truthy (strip (content st)) = false ->
  exists u w',
    editor_node E st w = Ok u w'
    /\ merge st u = st /\ clock w' = clock w /\ stdout w' = stdout w.
Proof.
  intros Hready Hc. unfold editor_node.
  rewrite (bind_Ok _ _ _ _ _ (ensure_editor_ok E w Hready)).
  rewrite Hc. cbn [negb].
  eexists _, _. split; [reflexivity|]. split; [by destruct st|]. done.
Qed.

Lemma review_of_blank_draft_witness :
  let E := example_env (Content "Story") (Content "fine") in
  let st := mkDocState "   " "Rewrite" "- tighten" false 1 in
  exists u w',
    editor_node E st (example_world []) = Ok u w'
    /\ merge st u = st /\ clock w' = 0%nat /\ stdout w' = [].
Proof.
  intros E st. apply (review_of_blank_draft E st (example_world [])).
  - right. reflexivity.
  - vm_compute. reflexivity.
Defined.

(** X21. A review that succeeds: the model is called once with the prompt
    that carries the stripped content, and the two fields of the parsed
    answer become the suggestions and the rewrite; the other fields
    stay. *)
Theorem review_stores_parsed_answer (E : Env) (st : DocState) (w : World)
  (resp : string) :
  editor_ready E w -> truthy (strip (content st)) = true ->
  editor_invoke E (clock w) (review_prompt (strip (content st)))
  = Content resp ->
  exists u w',
    editor_node E st w = Ok u w'
    /\ merge st u
       = mkDocState (content st) (snd (parse_editor_response resp))
           (fst (parse_editor_response resp)) (approved st) (iteration st)
    /\ clock w' = S (clock w).
Proof.
  intros Hready Hc Hreply. unfold editor_node.
  rewrite (bind_Ok _ _ _ _ _ (ensure_editor_ok E w Hready)).
  rewrite Hc. cbn [negb].
  destruct (only_prints_divider
              (Some ("EDITOR REVIEW — Iteration "
                     +:+ str_of_int (iteration st)))) as [out Hout].
  rewrite (bind_Ok _ _ _ _ _ (Hout _)).
  destruct (parse_editor_response resp) as [sg rw] eqn:Hp.
  erewrite try_except_Ok.
  2:{ erewrite bind_Ok; [|apply llm_invoke_replies; exact Hreply].
      rewrite Hp. reflexivity. }
  eexists _, _. split; [reflexivity|]. by split.
Qed.

Lemma review_stores_parsed_answer_witness :
  let E :=
    example_env (Content "Story")
      (Content ("### SUGGESTIONS" +:+ nl +:+ "- tighten opening" +:+ nl +:+ nl
                +:+ "### REWRITTEN" +:+ nl +:+ "D1-improved")) in
  let st := mkDocState "D1" EmptyString EmptyString false 1 in
  exists u w',
    editor_node E st (example_world []) = Ok u w'
    /\ merge st u = mkDocState "D1" "D1-improved" "- tighten opening" false 1
    /\ clock w' = 1%nat.
Proof.
  intros E st.
  destruct (review_stores_parsed_answer E st (example_world [])
              ("### SUGGESTIONS" +:+ nl +:+ "- tighten opening" +:+ nl +:+ nl
               +:+ "### REWRITTEN" +:+ nl +:+ "D1-improved"))
    as (u & w' & H1 & H2 & H3).
  - right. reflexivity.
  - vm_compute. reflexivity.
  - reflexivity.
  - exists u, w'. split; [exact H1|]. split; [|exact H3].
    rewrite H2. vm_compute. reflexivity.
Defined.

(** *** Saving *)

Lemma chosen_name_exists (E : Env) (line : string) :
  exists fname, chosen_name E line fname.
Proof.
  destruct (strip line) as [|c t] eqn:Hs.
  - eexists. by apply name_default.
  - destruct (endswith (lower (strip line)) ".md") eqn:Hmd.
    + eexists. apply name_as_given; [by rewrite Hs | done].
    + eexists. apply name_completed; [by rewrite Hs | done].
Qed.

Lemma chosen_name_md (E : Env) (line fname : string) :
  chosen_name E line fname -> endswith (lower fname) ".md" = true.
Proof.
  intros [Hblank | Hgiven Hmd | Hgiven Hmd].
  - apply draft_name_md.
  - exact Hmd.
  - rewrite lower_app. change (lower ".md") with ".md". apply endswith_app.
Qed.

(** The save step when the file cannot be opened. *)
Lemma save_failed (E : Env) (st : DocState) (w : World)
  (line : string) (rest : list string) (fname msg : string) :
  truthy (strip (content st)) = true ->
  stdin w = line :: rest -> chosen_name E line fname ->
  open_error E fname = Some msg ->
  exists out,
    save_to_markdown E st w
    = Ok tt (mkWorld rest (out ++ ["Failed to save: " +:+ msg +:+ nl])
               (CREATOR_LLM w) (EDITOR_LLM w) (clock w) (files w)).
Proof.
  intros Hc Hin Hname Hopen. unfold save_to_markdown. cbv zeta.
  rewrite Hc. cbn [negb].
  destruct (only_prints_divider (Some "SAVE TO MARKDOWN")) as [out Hout].
  rewrite (bind_Ok _ _ _ _ _ (Hout w)).
  erewrite bind_Ok; [|apply input_eq; simpl; exact Hin].
  pose proof (chosen_name_computed E line fname Hname) as Hf.
  cbv zeta in Hf. rewrite Hf.
  erewrite try_except_Raise;
    [ | erewrite bind_Raise;
          [reflexivity | unfold write_file; rewrite Hopen; reflexivity]
      | reflexivity ].
  rewrite print_say.
  eexists. cbn [say stdin stdout CREATOR_LLM EDITOR_LLM clock files].
  reflexivity.
Qed.

(** X22. When the file cannot be opened the save is given up: the error
    is reported, [save_to_markdown] returns, and no file has been
    written. *)
Theorem save_failure_reported (E : Env) (st : DocState) (w : World)
  (line : string) (rest : list string) (fname msg : string) :
  truthy (strip (content st)) = true ->
  stdin w = line :: rest -> chosen_name E line fname ->
  open_error E fname = Some msg ->
  exists w',
    save_to_markdown E st w = Ok tt w'
    /\ last (stdout w') = Some ("Failed to save: " +:+ msg +:+ nl)
    /\ files w' = files w.
Proof.
  intros Hc Hin Hname Hopen.
  destruct (save_failed E st w line rest fname msg Hc Hin Hname Hopen)
    as [out Hrun].
  eexists. split; [exact Hrun|]. cbn [stdout files].
  split; [apply last_snoc | done].
Qed.

Lemma save_failure_reported_witness :
  let E :=
    mkEnv None None (fun _ _ => Content "Story") (fun _ _ => Content "fine")
      (fun _ _ => []) 25 (Some "key") (mkTime 2025 3 9 7 5)
      (fun _ => Some "Permission denied") (fun f => f) in
  let st := mkDocState "Final text" EmptyString EmptyString true 1 in
  exists w',
    save_to_markdown E st (example_world ["notes.MD"]) = Ok tt w'
    /\ last (stdout w')
       = Some ("Failed to save: " +:+ "Permission denied" +:+ nl)
    /\ files w' = ∅.
Proof.
  intros E st.
  apply (save_failure_reported E st (example_world ["notes.MD"]) "notes.MD"
           [] "notes.MD" "Permission denied").
  - reflexivity.
  - reflexivity.
  - apply (name_as_given E "notes.MD"); [discriminate | reflexivity].
  - reflexivity.
Defined.

(** X23. Whatever the human answers at the file-name prompt, a file the
    save step writes has a name that ends in [.md], in whatever case: a
    file whose entry differs after [save_to_markdown] has such a name. *)
Theorem saved_file_is_markdown (E : Env) (st : DocState) (w w' : World)
  (f : string) :
  save_to_markdown E st w = Ok tt w' ->
  files w' !! f <> files w !! f ->
  endswith (lower f) ".md" = true.
Proof.
  intros Hsave Hdiff.
  destruct (truthy (strip (content st))) eqn:Hc.
  2:{ rewrite save_skipped in Hsave by exact Hc.
      injection Hsave as <-. by destruct Hdiff. }
  destruct (stdin w) as [|line rest] eqn:Hin.
  { exfalso. unfold save_to_markdown in Hsave. cbv zeta in Hsave.
    rewrite Hc in Hsave. cbn [negb] in Hsave.
    destruct (only_prints_divider (Some "SAVE TO MARKDOWN")) as [out Hout].
    rewrite (bind_Ok _ _ _ _ _ (Hout w)) in Hsave.
    erewrite bind_Raise in Hsave; [discriminate|].
    apply input_eof. simpl. exact Hin. }
  destruct (chosen_name_exists E line) as [fname Hname].
  destruct (open_error E fname) as [msg|] eqn:Hopen.
  - destruct (save_failed E st w line rest fname msg Hc Hin Hname Hopen)
      as [out H1].
    rewrite H1 in Hsave. injection Hsave as <-. cbn [files] in Hdiff.
    by destruct Hdiff.
  - destruct (save_written E st w line rest fname Hc Hin Hname Hopen)
      as [out H1].
    rewrite H1 in Hsave. injection Hsave as <-. cbn [files] in Hdiff.
    destruct (decide (fname = f)) as [<- | Hne].
    + by eapply chosen_name_md.
    + rewrite lookup_insert_ne in Hdiff by exact Hne. by destruct Hdiff.
Qed.

Lemma saved_file_is_markdown_witness :
  let E := example_env (Content "Story") (Content "fine") in
  let st := mkDocState "Final text" EmptyString EmptyString true 1 in
  exists w',
    save_to_markdown E st (example_world ["story"]) = Ok tt w'
    /\ files w' !! "story.md" <> (∅ : gmap string string) !! "story.md"
    /\ endswith (lower "story.md") ".md" = true.
Proof.
  intros E st.
  destruct (save_to_markdown E st (example_world ["story"]))
    as [[] w' | e w'] eqn:Hrun; [|vm_compute in Hrun; discriminate Hrun].
  assert (Hdiff : files w' !! "story.md"
                  <> files (example_world ["story"]) !! "story.md").
  { vm_compute in Hrun. injection Hrun as <-. vm_compute. discriminate. }
  exists w'. split; [reflexivity|]. split; [exact Hdiff|].
  exact (saved_file_is_markdown E st (example_world ["story"]) w' "story.md"
           Hrun Hdiff).
Defined.

End SessionFacts.

(** ** The review and the Accept button of the chat front end *)

Section ReviewFacts.
Import Py Eff Spec Laws Chainlit.

Lemma session_set_eq (key v : string) (w : World) :
  session_set key v w
  = Ok tt (mkWorld (<[key := v]> (session w)) (sent w) (clock w) (files w)).
Proof. reflexivity. Qed.

Lemma llm_ainvoke_replies (oracle : nat -> string -> reply) (p text : string)
  (w : World) :
  oracle (clock w) p = Content text ->
  llm_ainvoke oracle p w
  = Ok text (mkWorld (session w) (sent w) (S (clock w)) (files w)).
Proof. intros H. unfold llm_ainvoke. by rewrite H. Qed.

Lemma llm_ainvoke_fails (oracle : nat -> string -> reply) (p msg : string)
  (w : World) :
  oracle (clock w) p = Fails msg ->
  llm_ainvoke oracle p w
  = Raise (Exception msg)
      (mkWorld (session w) (sent w) (S (clock w)) (files w)).
Proof. intros H. unfold llm_ainvoke. by rewrite H. Qed.

Lemma with_step_Ok (name input : string) (body : M World string)
  (w w' : World) (output : string) :
  body w = Ok output w' ->
  with_step name input body w
  = Ok tt (shows [Step name input output false] w').
Proof. intros H. unfold with_step. by rewrite H. Qed.

Lemma with_step_Raise (name input : string) (body : M World string)
  (w w' : World) (e : exn) :
  body w = Raise e w' ->
  with_step name input body w
  = Raise e (shows [Step name input (str_of_exn e) true] w').
Proof. intros H. unfold with_step. by rewrite H. Qed.

(** The review when the model answers. *)
Lemma editor_review_replies (E : Env) (w : World) (resp : string) :
  truthy (session_content w) = true ->
  editor_ainvoke E (clock w) (review_prompt (session_content w))
  = Content resp ->
  exists evs,
    editor_review E w
    = Ok tt
        (mkWorld
           (<["edited_version" := snd (parse_editor_response resp)]>
              (<["suggestions" := fst (parse_editor_response resp)]>
                 (session w)))
           (sent w ++ evs) (S (clock w)) (files w))
    /\ (truthy (snd (parse_editor_response resp)) = true ->
        last evs = Some menu_message).
Proof.
  intros Hc Hreply. unfold editor_review.
  rewrite (bind_Ok _ _ _ _ _ (session_get_eq _ w)).
  fold (session_content w). rewrite Hc. cbn [negb].
  destruct (parse_editor_response resp) as [sg rw] eqn:Hp. cbn [fst snd].
  erewrite bind_Ok.
  2:{ apply with_step_Ok.
      erewrite bind_Ok; [|apply llm_ainvoke_replies; exact Hreply].
      rewrite Hp.
      rewrite (bind_Ok _ _ _ _ _ (session_set_eq _ _ _)).
      rewrite (bind_Ok _ _ _ _ _ (session_set_eq _ _ _)).
      reflexivity. }
  match goal with
  | |- context [display_editor_results ?w2] =>
      destruct (display_editor_results_shows w2) as (evs & Hd & Hlast);
      rewrite Hd
  end.
  eexists (_ :: evs). unfold shows. cbn [session sent clock files].
  split.
  - by rewrite <- app_assoc.
  - intros Hrw. cbn [last]. unfold session_rewrite in Hlast.
    cbn [session shows] in Hlast. rewrite lookup_insert_eq in Hlast.
    specialize (Hlast Hrw). destruct evs; [discriminate|]. exact Hlast.
Qed.

(** The review when the model call fails. *)
Lemma editor_review_fails (E : Env) (w : World) (msg : string) :
  truthy (session_content w) = true ->
  (forall p, editor_ainvoke E (clock w) p = Fails msg) ->
  editor_review E w
  = Raise (Exception msg)
      (mkWorld (session w)
         (sent w
          ++ [Step "Editor Review" (review_prompt (session_content w)) msg
                true])
         (S (clock w)) (files w)).
Proof.
  intros Hc Hfail. unfold editor_review.
  rewrite (bind_Ok _ _ _ _ _ (session_get_eq _ w)).
  fold (session_content w). rewrite Hc. cbn [negb].
  rewrite (bind_Raise _ _ _ _ _
             (with_step_Raise _ _ _ _ _ _
                (bind_Raise _ _ _ _ _
                   (llm_ainvoke_fails _ _ _ _ (Hfail _))))).
  reflexivity.
Qed.

(** X24. A review in the chat front end: when there is content and the
    model answers, the two fields of the parsed answer are stored as
    [suggestions] and [edited_version], no other session value changes,
    the model has been called once with the prompt that carries the
    content, and when the answer has a rewrite the last message sent
    carries the five buttons. *)
Theorem chat_review_stores_parsed_answer (E : Env) (w : World)
  (resp : string) :
  truthy (session_content w) = true ->
  editor_ainvoke E (clock w) (review_prompt (session_content w))
  = Content resp ->
  exists w',
    editor_review E w = Ok tt w'
    /\ session w'
       = <["edited_version" := snd (parse_editor_response resp)]>
           (<["suggestions" := fst (parse_editor_response resp)]> (session w))
    /\ clock w' = S (clock w) /\ files w' = files w
    /\ (truthy (snd (parse_editor_response resp)) = true ->
        last (sent w') = Some menu_message).
Proof.
  intros Hc Hreply.
  destruct (editor_review_replies E w resp Hc Hreply) as (evs & -> & Hlast).
  eexists. split; [reflexivity|]. cbn [session clock files sent].
  repeat split. intros Hrw. specialize (Hlast Hrw).
  destruct evs as [|ev evs]; [discriminate|].
  by rewrite last_app, Hlast.
Qed.

Lemma chat_review_stores_parsed_answer_witness :
  let resp :=
    "### SUGGESTIONS" +:+ nl +:+ "- tighten opening" +:+ nl +:+ nl
    +:+ "### REWRITTEN" +:+ nl +:+ "D1-improved" in
  exists w',
    editor_review (example_chat_env (Content resp))
      (example_chat_world "D1" EmptyString) = Ok tt w'
    /\ session w' !! "suggestions" = Some "- tighten opening"
    /\ session w' !! "edited_version" = Some "D1-improved"
    /\ session w' !! "content" = Some "D1"
    /\ last (sent w') = Some menu_message.
Proof.
  intros resp.
  destruct (chat_review_stores_parsed_answer (example_chat_env (Content resp))
              (example_chat_world "D1" EmptyString) resp)
    as (w' & Hrun & Hs & _ & _ & Hlast).
  - vm_compute. reflexivity.
  - reflexivity.
  - exists w'. split; [exact Hrun|]. rewrite Hs.
    split; [vm_compute; reflexivity|]. split; [vm_compute; reflexivity|].
    split; [vm_compute; reflexivity|]. apply Hlast. vm_compute. reflexivity.
Defined.

(** X25. The chat front end does not catch a failed review: when the
    model call fails [editor_review] raises its exception.  All the human
    is shown is the step of the review, marked as an error and carrying
    the text of the exception: no message and no button follow.  The
    session values and the files are as before. *)
Theorem chat_review_failure_escapes (E : Env) (w : World) (msg : string) :
  truthy (session_content w) = true ->
  (forall p, editor_ainvoke E (clock w) p = Fails msg) ->
  exists w',
    editor_review E w = Raise (Exception msg) w'
    /\ session w' = session w
    /\ sent w'
       = sent w
         ++ [Step "Editor Review" (review_prompt (session_content w)) msg
               true]
    /\ files w' = files w.
Proof.
  intros Hc Hfail. rewrite (editor_review_fails E w msg Hc Hfail).
  eexists. by repeat split.
Qed.

Lemma chat_review_failure_escapes_witness :
  exists w',
    editor_review (example_chat_env (Fails "quota"))
      (example_chat_world "D1" "old") = Raise (Exception "quota") w'
    /\ session w' = session (example_chat_world "D1" "old")
    /\ sent w' = [] ++ [Step "Editor Review" (review_prompt "D1") "quota" true]
    /\ files w' = ∅.
Proof.
  apply (chat_review_failure_escapes (example_chat_env (Fails "quota"))
           (example_chat_world "D1" "old") "quota").
  - vm_compute. reflexivity.
  - intros p. reflexivity.
Defined.

Lemma on_accept_sets_content (E : Env) (w : World) :
  truthy (session_rewrite w) = true ->
  on_accept E w
  = editor_review E
      (mkWorld (<["content" := session_rewrite w]> (session w))
         (sent w
          ++ [Message "Accepted the editor's rewrite. Rerunning review..." []])
         (clock w) (files w)).
Proof.
  intros H. unfold on_accept, session_get_opt. unfold session_rewrite in *.
  unfold mbind at 1, M_bind at 1.
  destruct (session w !! "edited_version") as [ev|]; [|discriminate].
  simpl in H. rewrite H. simpl.
  rewrite (bind_Ok _ _ _ _ _ (session_set_eq _ _ _)).
  by rewrite (bind_Ok _ _ _ _ _ (send_shows _ _)).
Qed.

(** X26. The Accept button with a rewrite at hand: the rewrite becomes
    the content and is reviewed at once; when the model answers, the
    parsed answer replaces the suggestions and the rewrite. *)
Theorem chat_accept_rewrite (E : Env) (w : World) (resp : string) :
  truthy (session_rewrite w) = true ->
  editor_ainvoke E (clock w) (review_prompt (session_rewrite w))
  = Content resp ->
  exists w',
    on_accept E w = Ok tt w'
    /\ session w'
       = <["edited_version" := snd (parse_editor_response resp)]>
           (<["suggestions" := fst (parse_editor_response resp)]>
              (<["content" := session_rewrite w]> (session w)))
    /\ clock w' = S (clock w) /\ files w' = files w.
Proof.
  intros Hev Hreply. rewrite on_accept_sets_content by exact Hev.
  match goal with
  | |- context [editor_review E ?w1] =>
      destruct (editor_review_replies E w1 resp) as (evs & -> & _)
  end.
  - unfold session_content. cbn [session]. by rewrite lookup_insert_eq.
  - unfold session_content. cbn [session clock].
    by rewrite lookup_insert_eq.
  - eexists. split; [reflexivity|]. by repeat split.
Qed.

Lemma chat_accept_rewrite_witness :
  let resp :=
    "### SUGGESTIONS" +:+ nl +:+ "- fine now" +:+ nl
    +:+ "### REWRITTEN" +:+ nl +:+ "D2" in
  exists w',
    on_accept (example_chat_env (Content resp))
      (example_chat_world "D1" "D1-improved") = Ok tt w'
    /\ session w' !! "content" = Some "D1-improved"
    /\ session w' !! "edited_version" = Some "D2"
    /\ clock w' = 1%nat.
Proof.
  intros resp.
  destruct (chat_accept_rewrite (example_chat_env (Content resp))
              (example_chat_world "D1" "D1-improved") resp)
    as (w' & Hrun & Hs & Hclock & _).
  - vm_compute. reflexivity.
  - reflexivity.
  - exists w'. split; [exact Hrun|]. rewrite Hs.
    split; [vm_compute; reflexivity|]. split; [vm_compute; reflexivity|].
    exact Hclock.
Defined.

(** X27. Accepting is not undone by a failed review: when the model call
    fails after the Accept button, the handler raises, the content is
    already the rewrite, and the suggestions and the rewrite are the old
    ones. *)
Theorem chat_accept_then_failure (E : Env) (w : World) (msg : string) :
  truthy (session_rewrite w) = true ->
  (forall p, editor_ainvoke E (clock w) p = Fails msg) ->
  exists w',
    on_accept E w = Raise (Exception msg) w'
    /\ session w' = <["content" := session_rewrite w]> (session w)
    /\ files w' = files w.
Proof.
  intros Hev Hfail. rewrite on_accept_sets_content by exact Hev.
  rewrite (editor_review_fails _ _ msg).
  - eexists. by repeat split.
  - unfold session_content. cbn [session]. by rewrite lookup_insert_eq.
  - exact Hfail.
Qed.

Lemma chat_accept_then_failure_witness :
  exists w',
    on_accept (example_chat_env (Fails "quota"))
      (example_chat_world "D1" "D1-improved") = Raise (Exception "quota") w'
    /\ session w' !! "content" = Some "D1-improved"
    /\ session w' !! "edited_version" = Some "D1-improved".
Proof.
  destruct (chat_accept_then_failure (example_chat_env (Fails "quota"))
              (example_chat_world "D1" "D1-improved") "quota")
    as (w' & Hrun & Hs & _).
  - vm_compute. reflexivity.
  - intros p. reflexivity.
  - exists w'. split; [exact Hrun|]. rewrite Hs.
    split; vm_compute; reflexivity.
Defined.

End ReviewFacts.

(** ** The messages of the chat front end *)

Section MessageFacts.
Import Py Eff Spec Laws Chat.

Lemma lift_Ok {A : Type} (m : M Chainlit.World A) (w : World) (a : A)
  (b : Chainlit.World) :
  m (base w) = Ok a b -> lift m w = Ok a (mkWorld b (context w) (streamed w)).
Proof. intros H. unfold lift. by rewrite H. Qed.

Lemma lift_Raise {A : Type} (m : M Chainlit.World A) (w : World) (e : exn)
  (b : Chainlit.World) :
  m (base w) = Raise e b ->
  lift m w = Raise e (mkWorld b (context w) (streamed w)).
Proof. intros H. unfold lift. by rewrite H. Qed.

Lemma same_context_refl (w : World) : same_context w w.
Proof. reflexivity. Qed.

Lemma same_context_trans (a b c : World) :
  same_context a b -> same_context b c -> same_context a c.
Proof. unfold same_context. congruence. Qed.

Lemma keeps_lift {A : Type} (m : M Chainlit.World A) :
  keeps same_context (lift m).
Proof. intros w. unfold lift. by destruct (m (base w)). Qed.

Lemma keeps_stream_tokens (E : Env) (p : string) :
  keeps same_context (stream_tokens E p).
Proof.
  intros w. unfold stream_tokens.
  destruct (creator_astream E (Chainlit.clock (base w)) p) as [chunks [msg|]];
    reflexivity.
Qed.

Lemma keeps_stream_message (E : Env) (p : string) :
  keeps same_context (stream_message E p).
Proof.
  unfold stream_message.
  apply (keeps_bind same_context same_context_trans); [apply keeps_lift|].
  intros _. apply keeps_stream_tokens.
Qed.

Ltac context_step :=
  first
    [ apply keeps_lift
    | apply keeps_stream_message
    | apply (keeps_ret same_context same_context_refl)
    | apply (keeps_if same_context)
    | apply (keeps_bind same_context same_context_trans); [|intros ?] ].

(** The start of [on_message]: the context is read, then cleared. *)
Lemma on_message_start (E : Env) (user_input : string) (w : World) :
  on_message E user_input w
  = (match (match context w with
            | Unset => Some "initial_idea"
            | IsNone => None
            | Is s => Some s
            end) with
     | None => mret tt
     | Some c =>
         if String.eqb c "initial_idea" then
           new_content ← stream_message E (idea_prompt user_input);
           lift (Chainlit.session_set "content" new_content);;
           lift (Chainlit.send
                   "Initial draft created. Now, let's get the editor's feedback...");;
           lift (Chainlit.editor_review (base_env E))
         else if String.eqb c "revise" then
           revised_content ←
             stream_message E
               (revise_prompt (session_content (base w)) user_input);
           lift (Chainlit.session_set "content" revised_content);;
           lift (Chainlit.send "Draft revised. Sending back to the editor...");;
           lift (Chainlit.editor_review (base_env E))
         else if String.eqb c "edit" then
           lift (Chainlit.session_set "content" user_input);;
           lift (Chainlit.send
                   "Draft updated with your edits. Let's get new feedback...");;
           lift (Chainlit.editor_review (base_env E))
         else mret tt
     end) (mkWorld (base w) IsNone (streamed w)).
Proof. reflexivity. Qed.

(** A message that arrives while nothing is awaited. *)
Lemma on_message_idle (E : Env) (user_input : string) (w : World) :
  context w = IsNone -> on_message E user_input w = Ok tt w.
Proof.
  intros Hc. rewrite on_message_start, Hc.
  destruct w as [b c s]. simpl in Hc. by subst c.
Qed.

(** The Revise button. *)
Lemma on_revise_eq (w : World) :
  on_revise w
  = Ok tt
      (mkWorld
         (shows
            [Chainlit.Message
               "Describe how you'd like the AI to revise the draft (e.g., change the tone, shorten it, target a different audience)."
               []] (base w))
         (Is "revise") (streamed w)).
Proof. reflexivity. Qed.

(** The streamed message when the stream ends well, and when it ends by
    an exception. *)
Lemma stream_message_ends (E : Env) (p : string) (w : World)
  (chunks : list string) (failure : option string) :
  creator_astream E (Chainlit.clock (base w)) p = (chunks, failure) ->
  stream_message E p w
  = let w' :=
      mkWorld
        (Chainlit.mkWorld (Chainlit.session (base w))
           (Chainlit.sent (base w) ++ [Chainlit.Message EmptyString []])
           (S (Chainlit.clock (base w))) (Chainlit.files (base w)))
        (context w) (streamed w ++ chunks) in
    match failure with
    | None => Ok (String.concat EmptyString chunks) w'
    | Some msg => Raise (Exception msg) w'
    end.
Proof.
  intros H. unfold stream_message.
  rewrite (bind_Ok _ _ _ _ _ (lift_Ok _ _ _ _ (send_shows _ _))).
  unfold stream_tokens, shows.
  cbn [base Chainlit.session Chainlit.clock Chainlit.sent Chainlit.files
         context streamed].
  by rewrite H.
Qed.

(** X28. Every message uses up the awaited input: after [on_message] the
    session key [context] is [None], whether the handler returns or
    raises; and a message that arrives while it is [None] changes
    nothing. *)
Theorem message_consumes_context :
  (forall E user_input w,
      context (world_of (on_message E user_input w)) = IsNone)
  /\ (forall E user_input w,
         context w = IsNone -> on_message E user_input w = Ok tt w).
Proof.
  split.
  - intros E user_input w. rewrite on_message_start.
    match goal with
    | |- Chat.context (world_of (?k ?w1)) = _ =>
        assert (Hk : keeps same_context k);
        [|exact (Hk w1)]
    end.
    destruct (match context w with
              | Unset => Some "initial_idea"
              | IsNone => None
              | Is s => Some s
              end) as [c|]; repeat context_step.
  - intros E user_input w Hc. by apply on_message_idle.
Qed.

Lemma message_consumes_context_witness :
  on_message (example_conversation_env ["x"] (Content "fine")) "typed early"
    (example_conversation "D1" "D2" IsNone)
  = Ok tt (example_conversation "D1" "D2" IsNone).
Proof.
  destruct message_consumes_context as [_ H]. apply H. reflexivity.
Defined.

(** X29. A manual edit in the chat front end: after the Edit button the
    next message becomes the content as it is, not stripped, and is
    reviewed at once.  An empty message empties the content: then no
    review follows and no buttons are sent. *)
Theorem chat_manual_edit :
  (forall E user_input w resp,
      context w = Is "edit" -> truthy user_input = true ->
      Chainlit.editor_ainvoke (base_env E) (Chainlit.clock (base w))
        (review_prompt user_input) = Content resp ->
      exists w',
        on_message E user_input w = Ok tt w'
        /\ context w' = IsNone
        /\ Chainlit.session (base w')
           = <["edited_version"
               := snd (Chainlit.parse_editor_response resp)]>
               (<["suggestions"
                  := fst (Chainlit.parse_editor_response resp)]>
                  (<["content" := user_input]> (Chainlit.session (base w)))))
  /\ (forall E w,
         context w = Is "edit" ->
         on_message E EmptyString w
         = Ok tt
             (mkWorld
                (Chainlit.mkWorld
                   (<["content" := EmptyString]> (Chainlit.session (base w)))
                   (Chainlit.sent (base w)
                    ++ [Chainlit.Message
                          "Draft updated with your edits. Let's get new feedback..."
                          []])
                   (Chainlit.clock (base w)) (Chainlit.files (base w)))
                IsNone (streamed w))).
Proof.
  split.
  - intros E user_input w resp Hc Hin Hreply.
    rewrite on_message_start, Hc.
    change (String.eqb "edit" "initial_idea") with false.
    change (String.eqb "edit" "revise") with false.
    change (String.eqb "edit" "edit") with true. cbv iota.
    rewrite (bind_Ok _ _ _ _ _ (lift_Ok _ _ _ _ (session_set_eq _ _ _))).
    rewrite (bind_Ok _ _ _ _ _ (lift_Ok _ _ _ _ (send_shows _ _))).
    cbn [base context streamed].
    match goal with
    | |- context [lift (Chainlit.editor_review ?E0) ?w1] =>
        destruct (editor_review_replies E0 (base w1) resp)
          as (evs & Hrev & _)
    end.
    + unfold session_content, shows. cbn [base Chainlit.session].
      by rewrite lookup_insert_eq.
    + unfold session_content, shows. cbn [base Chainlit.session Chainlit.clock].
      by rewrite lookup_insert_eq.
    + rewrite (lift_Ok _ _ _ _ Hrev).
      eexists. split; [reflexivity|]. by split.
  - intros E w Hc. rewrite on_message_start, Hc.
    change (String.eqb "edit" "initial_idea") with false.
    change (String.eqb "edit" "revise") with false.
    change (String.eqb "edit" "edit") with true. cbv iota.
    rewrite (bind_Ok _ _ _ _ _ (lift_Ok _ _ _ _ (session_set_eq _ _ _))).
    rewrite (bind_Ok _ _ _ _ _ (lift_Ok _ _ _ _ (send_shows _ _))).
    cbn [base context streamed].
    erewrite lift_Ok; [reflexivity|].
    unfold Chainlit.editor_review.
    rewrite (bind_Ok _ _ _ _ _ (session_get_eq _ _)).
    unfold shows. cbn [base Chainlit.session].
    by rewrite lookup_insert_eq.
Qed.

Lemma chat_manual_edit_witness :
  let resp :=
    "### SUGGESTIONS" +:+ nl +:+ "- fine now" +:+ nl
    +:+ "### REWRITTEN" +:+ nl +:+ "D2" in
  (exists w',
      on_message (example_conversation_env [] (Content resp))
        " New full draft. " (example_conversation "D1" "old" (Is "edit"))
      = Ok tt w'
      /\ context w' = IsNone
      /\ Chainlit.session (base w') !! "content" = Some " New full draft. "
      /\ Chainlit.session (base w') !! "edited_version" = Some "D2")
  /\ (exists w',
         on_message (example_conversation_env [] (Content resp)) EmptyString
           (example_conversation "D1" "old" (Is "edit")) = Ok tt w'
         /\ Chainlit.session (base w') !! "content" = Some EmptyString
         /\ Chainlit.clock (base w') = 0%nat).
Proof.
  intros resp. destruct chat_manual_edit as (H1 & H2). split.
  - destruct (H1 (example_conversation_env [] (Content resp))
                " New full draft. "
                (example_conversation "D1" "old" (Is "edit")) resp)
      as (w' & Hrun & Hctx & Hs).
    + reflexivity.
    + reflexivity.
    + reflexivity.
    + exists w'. split; [exact Hrun|]. split; [exact Hctx|]. rewrite Hs.
      split; vm_compute; reflexivity.
  - eexists. split.
    + apply (H2 (example_conversation_env [] (Content resp))
               (example_conversation "D1" "old" (Is "edit"))).
      reflexivity.
    + split; vm_compute; reflexivity.
Defined.

(** X30. A revision in the chat front end: after the Revise button the
    next message is the instruction.  The creator is called once, with the
    revision prompt over the content of the session and the message; when
    the stream ends well the chunks put together become the content, which
    is reviewed at once.  When the stream ends by an exception it escapes:
    the content stays as it was, and since the awaited input is used up
    every later message is ignored. *)
Theorem chat_revision :
  (forall E user_input w chunks resp,
      creator_astream E (Chainlit.clock (base w))
        (revise_prompt (session_content (base w)) user_input)
      = (chunks, None) ->
      truthy (String.concat EmptyString chunks) = true ->
      Chainlit.editor_ainvoke (base_env E) (S (Chainlit.clock (base w)))
        (review_prompt (String.concat EmptyString chunks)) = Content resp ->
      exists w',
        (on_revise;; on_message E user_input) w = Ok tt w'
        /\ context w' = IsNone
        /\ streamed w' = streamed w ++ chunks
        /\ Chainlit.clock (base w') = S (S (Chainlit.clock (base w)))
        /\ Chainlit.session (base w')
           = <["edited_version"
               := snd (Chainlit.parse_editor_response resp)]>
               (<["suggestions"
                  := fst (Chainlit.parse_editor_response resp)]>
                  (<["content" := String.concat EmptyString chunks]>
                     (Chainlit.session (base w)))))
  /\ (forall E user_input w chunks msg,
         creator_astream E (Chainlit.clock (base w))
           (revise_prompt (session_content (base w)) user_input)
         = (chunks, Some msg) ->
         exists w',
           (on_revise;; on_message E user_input) w = Raise (Exception msg) w'
           /\ context w' = IsNone
           /\ streamed w' = streamed w ++ chunks
           /\ Chainlit.session (base w') = Chainlit.session (base w)
           /\ forall later, on_message E later w' = Ok tt w').
Proof.
  split.
  - intros E user_input w chunks resp Hstream Hin Hreply.
    rewrite (bind_Ok _ _ _ _ _ (on_revise_eq w)).
    rewrite on_message_start. cbn [base context streamed].
    change (String.eqb "revise" "initial_idea") with false.
    change (String.eqb "revise" "revise") with true. cbv iota.
    erewrite bind_Ok;
      [|apply (stream_message_ends _ _ _ chunks None); exact Hstream].
    cbv zeta.
    rewrite (bind_Ok _ _ _ _ _ (lift_Ok _ _ _ _ (session_set_eq _ _ _))).
    rewrite (bind_Ok _ _ _ _ _ (lift_Ok _ _ _ _ (send_shows _ _))).
    cbn [base context streamed].
    match goal with
    | |- context [lift (Chainlit.editor_review ?E0) ?w1] =>
        destruct (editor_review_replies E0 (base w1) resp)
          as (evs & Hrev & _)
    end.
    + unfold session_content, shows. cbn [base Chainlit.session].
      by rewrite lookup_insert_eq.
    + unfold session_content, shows. cbn [base Chainlit.session Chainlit.clock].
      by rewrite lookup_insert_eq.
    + rewrite (lift_Ok _ _ _ _ Hrev).
      eexists. split; [reflexivity|]. by repeat split.
  - intros E user_input w chunks msg Hstream.
    rewrite (bind_Ok _ _ _ _ _ (on_revise_eq w)).
    rewrite on_message_start. cbn [base context streamed].
    change (String.eqb "revise" "initial_idea") with false.
    change (String.eqb "revise" "revise") with true. cbv iota.
    erewrite bind_Raise;
      [|apply (stream_message_ends _ _ _ chunks (Some msg)); exact Hstream].
    eexists. split; [reflexivity|].
    split; [reflexivity|]. split; [reflexivity|]. split; [reflexivity|].
    intros later. apply on_message_idle. reflexivity.
Qed.

Lemma chat_revision_witness :
  let resp :=
    "### SUGGESTIONS" +:+ nl +:+ "- fine now" +:+ nl
    +:+ "### REWRITTEN" +:+ nl +:+ "D3" in
  (exists w',
      (on_revise;;
       on_message (example_conversation_env ["Once "; "more."] (Content resp))
         "shorter")
        (example_conversation "D1" "D2" IsNone)
      = Ok tt w'
      /\ context w' = IsNone
      /\ streamed w' = ["Once "; "more."]
      /\ Chainlit.session (base w') !! "content" = Some "Once more."
      /\ Chainlit.session (base w') !! "edited_version" = Some "D3")
  /\ (exists w',
         (on_revise;;
          on_message
            (mkEnv (example_chat_env (Content resp)) None
               (fun _ _ => (["Once "], Some "stream closed")))
            "shorter")
           (example_conversation "D1" "D2" IsNone)
         = Raise (Exception "stream closed") w'
         /\ streamed w' = ["Once "]
         /\ Chainlit.session (base w') !! "content" = Some "D1").
Proof.
  intros resp. destruct chat_revision as (H1 & H2). split.
  - destruct (H1 (example_conversation_env ["Once "; "more."] (Content resp))
                "shorter" (example_conversation "D1" "D2" IsNone)
                ["Once "; "more."] resp)
      as (w' & Hrun & Hctx & Hst & _ & Hs).
    + reflexivity.
    + reflexivity.
    + reflexivity.
    + exists w'. split; [exact Hrun|]. split; [exact Hctx|].
      split; [exact Hst|]. rewrite Hs. split; vm_compute; reflexivity.
  - destruct (H2 (mkEnv (example_chat_env (Content resp)) None
                    (fun _ _ => (["Once "], Some "stream closed")))
                "shorter" (example_conversation "D1" "D2" IsNone)
                ["Once "] "stream closed")
      as (w' & Hrun & _ & Hst & Hs & _).
    + reflexivity.
    + exists w'. split; [exact Hrun|]. split; [exact Hst|].
      rewrite Hs. vm_compute. reflexivity.
Defined.

End MessageFacts.
